(** * Retrieval-augmented attention (memtrans.py): datastore, tracker and
      attention fusion, embedded as executable Rocq functions.

    Python integers are [Z]; tensor dimensions are [nat]; a tensor is a
    record of its [shape] (what [.size()] returns) and its nested-list
    contents; an exception is a [Raise] result; an object mutated in place
    is a state threaded through the call, and it keeps the mutations made
    before an exception was raised. *)

From Stdlib Require Import String Ascii DecimalString ZArith List Bool Lia Sorted.
From Stdlib Require DecimalZ DecimalPos.
Import ListNotations.
Local Open Scope Z_scope.

(** ** Python results *)

Module Py.

Inductive exn : Type :=
| AssertionError
| ValueError
| TypeError
| AttributeError
| IndexError
| RuntimeError
| NotImplementedError.

Inductive result (A : Type) : Type :=
| Ok (a : A)
| Raise (e : exn).

Arguments Ok {A} a.
Arguments Raise {A} e.

Definition bind {A B : Type} (r : result A) (k : A -> result B) : result B :=
  match r with
  | Ok a => k a
  | Raise e => Raise e
  end.

Definition assert (b : bool) : result unit :=
  if b then Ok tt else Raise AssertionError.

(** Normalisation of a slice bound against a length, as Python does it:
    a negative bound counts from the end, every bound is clamped. *)
Definition slice_bound (len : nat) (i : Z) : nat :=
  if i <? 0 then Z.to_nat (Z.max 0 (Z.of_nat len + i))
  else Nat.min (Z.to_nat i) len.

(** [l[s:e]] *)
Definition slice {A : Type} (l : list A) (s e : Z) : list A :=
  let s' := slice_bound (length l) s in
  let e' := slice_bound (length l) e in
  firstn (e' - s') (skipn s' l).

(** [l[:e]] *)
Definition slice_to {A : Type} (l : list A) (e : Z) : list A :=
  firstn (slice_bound (length l) e) l.

(** [l[s:]] *)
Definition slice_from {A : Type} (l : list A) (s : Z) : list A :=
  skipn (slice_bound (length l) s) l.

Fixpoint map2 {A B C : Type} (f : A -> B -> C) (l : list A) (m : list B) : list C :=
  match l, m with
  | a :: l', b :: m' => f a b :: map2 f l' m'
  | _, _ => []
  end.

Fixpoint mapM {A B : Type} (f : A -> result B) (l : list A) : result (list B) :=
  match l with
  | [] => Ok []
  | x :: l' =>
      match f x with
      | Raise e => Raise e
      | Ok y =>
          match mapM f l' with
          | Raise e => Raise e
          | Ok ys => Ok (y :: ys)
          end
      end
  end.

(** [l[i]] with Python's negative indices; IndexError out of range *)
Definition getitem {A : Type} (l : list A) (i : Z) : result A :=
  let n := Z.of_nat (length l) in
  let j := if i <? 0 then i + n else i in
  if (0 <=? j) && (j <? n) then
    match nth_error l (Z.to_nat j) with
    | Some x => Ok x
    | None => Raise IndexError
    end
  else Raise IndexError.

Definition newline : string := String "010" EmptyString.

(** [str(z)] for an integer *)
Definition str (z : Z) : string := NilZero.string_of_int (Z.to_int z).

(** [' '.join(map(str, s)) + '\n'] *)
Definition join_line (s : list Z) : string :=
  String.append (String.concat " " (map str s)) newline.

(** [x.astype(np.int32)] on a 64-bit integer: two's complement wrap. *)
Definition to_int32 (z : Z) : Z := (z + 2 ^ 31) mod 2 ^ 32 - 2 ^ 31.

End Py.

Import Py.

Notation "x <- c ;; k" := (bind c (fun x => k))
  (at level 61, c at next level, right associativity).

(** ** Tensors *)

Record Tensor (E : Type) : Type := mkTensor { shape : list nat; elems : E }.
Arguments mkTensor {E} shape elems.
Arguments shape {E} t.
Arguments elems {E} t.

Definition T1 (A : Type) : Type := Tensor (list A).
Definition T2 (A : Type) : Type := Tensor (list (list A)).
Definition T3 (A : Type) : Type := Tensor (list (list (list A))).
Definition T4 (A : Type) : Type := Tensor (list (list (list (list A)))).
Definition T5 (A : Type) : Type := Tensor (list (list (list (list (list A))))).

Fixpoint shape_eqb (a b : list nat) : bool :=
  match a, b with
  | [], [] => true
  | x :: a', y :: b' => Nat.eqb x y && shape_eqb a' b'
  | _, _ => false
  end.

(** [t.size(i)] for a non-negative [i] *)
Definition size_at {E : Type} (t : Tensor E) (i : nat) : result nat :=
  match nth_error (shape t) i with
  | Some n => Ok n
  | None => Raise IndexError
  end.

(** the contents agree with the shape *)
Definition rows_ok {A : Type} (n : nat) (inner : A -> bool) (l : list A) : bool :=
  Nat.eqb (length l) n && forallb inner l.

Definition wf1 {A : Type} (t : T1 A) : bool :=
  match shape t with
  | [a] => rows_ok a (fun _ => true) (elems t)
  | _ => false
  end.

Definition wf3 {A : Type} (t : T3 A) : bool :=
  match shape t with
  | [a; b; c] => rows_ok a (rows_ok b (rows_ok c (fun _ => true))) (elems t)
  | _ => false
  end.

Definition wf4 {A : Type} (t : T4 A) : bool :=
  match shape t with
  | [a; b; c; d] =>
      rows_ok a (rows_ok b (rows_ok c (rows_ok d (fun _ => true)))) (elems t)
  | _ => false
  end.

Definition wf5 {A : Type} (t : T5 A) : bool :=
  match shape t with
  | [a; b; c; d; e] =>
      rows_ok a (rows_ok b (rows_ok c (rows_ok d (rows_ok e (fun _ => true)))))
        (elems t)
  | _ => false
  end.

(** [t[:n]] on a 1-d tensor and [t[:, :n]] on a 3-d one *)
Definition t1_slice_to {A : Type} (t : T1 A) (n : Z) : T1 A :=
  let l := slice_to (elems t) n in
  mkTensor [slice_bound (hd 0%nat (shape t)) n] l.

Definition t3_slice1_to {A : Type} (t : T3 A) (n : Z) : T3 A :=
  match shape t with
  | [a; b; c] =>
      mkTensor [a; slice_bound b n; c] (map (fun rows => slice_to rows n) (elems t))
  | s => mkTensor s (elems t)
  end.

(** [torch.zeros(a, b, c)] and [torch.zeros(a, b, c, d)] *)
Definition zeros3 {A : Type} (z : A) (a b c : nat) : T3 A :=
  mkTensor [a; b; c] (repeat (repeat (repeat z c) b) a).

Definition zeros4 {A : Type} (z : A) (a b c d : nat) : T4 A :=
  mkTensor [a; b; c; d] (repeat (repeat (repeat (repeat z d) c) b) a).

(** [torch.stack(ts, dim=0)]: RuntimeError on an empty list or on tensors
    of different shapes *)
Definition stack0 {E : Type} (ts : list (Tensor E)) : result (Tensor (list E)) :=
  match ts with
  | [] => Raise RuntimeError
  | t0 :: _ =>
      if forallb (fun t => shape_eqb (shape t) (shape t0)) ts
      then Ok (mkTensor (length ts :: shape t0) (map elems ts))
      else Raise RuntimeError
  end.

(** Exchange of the two outer levels of a nested list whose rows have
    [n] entries: (m, n, ...) becomes (n, m, ...). *)
Definition transpose {A : Type} (n : nat) (rows : list (list A)) : list (list A) :=
  map (fun i =>
         flat_map (fun row => match nth_error row i with
                              | Some x => [x]
                              | None => []
                              end) rows)
      (seq 0 n).

(** [torch.stack(ts, dim=1)] *)
Definition stack1 {A : Type} (ts : list (Tensor (list A)))
  : result (Tensor (list (list A))) :=
  match ts with
  | [] => Raise RuntimeError
  | t0 :: _ =>
      match shape t0 with
      | [] => Raise IndexError
      | n :: rest =>
          if forallb (fun t => shape_eqb (shape t) (shape t0)) ts
          then Ok (mkTensor (n :: length ts :: rest) (transpose n (map elems ts)))
          else Raise RuntimeError
      end
  end.

(** [torch.zeros_like(t)] for an integer tensor of three dimensions *)
Definition zeros_like3 (t : T3 Z) : T3 Z :=
  mkTensor (shape t) (map (map (map (fun _ => 0))) (elems t)).

(** [t.size(-1)] *)
Definition size_last {E : Type} (t : Tensor E) : result nat :=
  match rev (shape t) with
  | n :: _ => Ok n
  | [] => Raise IndexError
  end.

(** [np.argmax(l)]: the first position of the largest entry *)
Fixpoint argmax_from (l : list nat) (i best_i best : nat) : nat :=
  match l with
  | [] => best_i
  | x :: l' =>
      if Nat.ltb best x then argmax_from l' (S i) i x
      else argmax_from l' (S i) best_i best
  end.

Definition argmax (l : list nat) : result nat :=
  match l with
  | [] => Raise ValueError
  | x :: l' => Ok (argmax_from l' 1 0 x)
  end.

(** The list in [shape] has one entry per level of nesting of [elems]; the
    fall-through cases below stand for tensors that break this and do not
    arise. *)

(** [t.permute(1, 0, ...)]: exchange of the first two dimensions *)
Definition permute_10 {A : Type} (t : Tensor (list (list A))) : Tensor (list (list A)) :=
  match shape t with
  | a :: b :: rest => mkTensor (b :: a :: rest) (transpose b (elems t))
  | s => mkTensor s (elems t)
  end.

(** [t.permute(0, 2, 1, ...)], also [t.transpose(1, 2)] *)
Definition permute_021 {A : Type} (t : Tensor (list (list (list A))))
  : Tensor (list (list (list A))) :=
  match shape t with
  | a :: b :: c :: rest => mkTensor (a :: c :: b :: rest) (map (transpose c) (elems t))
  | s => mkTensor s (elems t)
  end.

(** [t.flatten(0, 1)] and [t.flatten(1, 2)] *)
Definition flatten_01 {A : Type} (t : Tensor (list (list A))) : Tensor (list A) :=
  match shape t with
  | a :: b :: rest => mkTensor ((a * b)%nat :: rest) (concat (elems t))
  | s => mkTensor s (concat (elems t))
  end.

Definition flatten_12 {A : Type} (t : Tensor (list (list (list A))))
  : Tensor (list (list A)) :=
  match shape t with
  | a :: b :: c :: rest => mkTensor (a :: (b * c)%nat :: rest) (map (@concat A) (elems t))
  | s => mkTensor s (map (@concat A) (elems t))
  end.

(** indexing by a boolean mask: [t[mask]] and [t[:, mask]]; IndexError when
    the mask does not have the length of the dimension *)
Definition mask_select {A : Type} (mask : list bool) (l : list A) : list A :=
  map snd (filter fst (combine mask l)).

Definition count_true (mask : list bool) : nat := length (filter (fun b => b) mask).

Definition index_mask0 {A : Type} (t : Tensor (list A)) (mask : T1 bool)
  : result (Tensor (list A)) :=
  match shape t, shape mask with
  | a :: rest, [m] =>
      if Nat.eqb a m
      then Ok (mkTensor (count_true (elems mask) :: rest) (mask_select (elems mask) (elems t)))
      else Raise IndexError
  | _, _ => Raise IndexError
  end.

Definition index_mask1 {A : Type} (t : Tensor (list (list A))) (mask : T1 bool)
  : result (Tensor (list (list A))) :=
  match shape t, shape mask with
  | a :: b :: rest, [m] =>
      if Nat.eqb b m
      then Ok (mkTensor (a :: count_true (elems mask) :: rest)
                 (map (mask_select (elems mask)) (elems t)))
      else Raise IndexError
  | _, _ => Raise IndexError
  end.

(** [count] consecutive pieces of [n] entries *)
Fixpoint chunks {A : Type} (n count : nat) (l : list A) : list (list A) :=
  match count with
  | O => []
  | S c => firstn n l :: chunks n c (skipn n l)
  end.

Definition numel (s : list nat) : nat := fold_right Nat.mul 1%nat s.

(** [t.view(a, b, c, d, e)] of a tensor of four dimensions: the entries in
    row-major order, regrouped; RuntimeError when the counts differ *)
Definition view5 {A : Type} (t : T4 A) (a b c d e : nat) : result (T5 A) :=
  if Nat.eqb (numel (shape t)) (numel [a; b; c; d; e]) then
    let flat := concat (concat (concat (elems t))) in
    Ok (mkTensor [a; b; c; d; e]
          (map (fun x => map (fun y => map (chunks e d) (chunks (d * e) c y))
                             (chunks (c * d * e) b x))
               (chunks (b * c * d * e) a flat)))
  else Raise RuntimeError.

(** [t[:, 1:]] and [t[:, :n]] *)
Definition slice1_from {A : Type} (t : Tensor (list (list A))) (n : Z)
  : Tensor (list (list A)) :=
  match shape t with
  | a :: b :: rest =>
      mkTensor (a :: (b - slice_bound b n)%nat :: rest)
        (map (fun row => slice_from row n) (elems t))
  | s => mkTensor s (elems t)
  end.

Definition slice1_to {A : Type} (t : Tensor (list (list A))) (n : Z)
  : Tensor (list (list A)) :=
  match shape t with
  | a :: b :: rest =>
      mkTensor (a :: slice_bound b n :: rest) (map (fun row => slice_to row n) (elems t))
  | s => mkTensor s (elems t)
  end.

(** [t.unsqueeze(0).repeat(n, 1, 1)] *)
Definition repeat0 {E : Type} (t : Tensor E) (n : nat) : Tensor (list E) :=
  mkTensor (n :: shape t) (repeat (elems t) n).

(** [t.squeeze(-1)] of a (batch, 1) tensor; any other shape is left as it is
    by torch and is no tensor of one dimension *)
Definition squeeze_last2 {A : Type} (t : T2 A) : result (T1 A) :=
  match shape t with
  | [a; 1%nat] => Ok (mkTensor [a] (concat (elems t)))
  | _ => Raise RuntimeError
  end.

(** [torch.cat([a, b], dim=2)] and [torch.cat([a, b], dim=3)] on tensors
    of four dimensions; RuntimeError when the other dimensions differ *)
Definition cat2 {A : Type} (a b : T4 A) : result (T4 A) :=
  match shape a, shape b with
  | [a0; a1; a2; a3], [b0; b1; b2; b3] =>
      if Nat.eqb a0 b0 && Nat.eqb a1 b1 && Nat.eqb a3 b3
      then Ok (mkTensor [a0; a1; (a2 + b2)%nat; a3]
                 (map2 (map2 (@app (list A))) (elems a) (elems b)))
      else Raise RuntimeError
  | _, _ => Raise RuntimeError
  end.

Definition cat3 {A : Type} (a b : T4 A) : result (T4 A) :=
  match shape a, shape b with
  | [a0; a1; a2; a3], [b0; b1; b2; b3] =>
      if Nat.eqb a0 b0 && Nat.eqb a1 b1 && Nat.eqb a2 b2
      then Ok (mkTensor [a0; a1; a2; (a3 + b3)%nat]
                 (map2 (map2 (map2 (@app A))) (elems a) (elems b)))
      else Raise RuntimeError
  | _, _ => Raise RuntimeError
  end.

(** [t[:, :, -n:, :]] *)
Definition last_dim2 {A : Type} (t : T4 A) (n : Z) : T4 A :=
  match shape t with
  | [a; b; c; d] =>
      mkTensor [a; b; (c - slice_bound c (- n))%nat; d]
        (map (map (fun rows => slice_from rows (- n))) (elems t))
  | sh => mkTensor sh (elems t)
  end.

(** [t[:, :, :n]] and [t[:, :, n:]] *)
Definition to_dim2 {A : Type} (t : T4 A) (n : Z) : T4 A :=
  match shape t with
  | [a; b; c; d] =>
      mkTensor [a; b; slice_bound c n; d] (map (map (fun rows => slice_to rows n)) (elems t))
  | sh => mkTensor sh (elems t)
  end.

Definition from_dim2 {A : Type} (t : T4 A) (n : Z) : T4 A :=
  match shape t with
  | [a; b; c; d] =>
      mkTensor [a; b; (c - slice_bound c n)%nat; d]
        (map (map (fun rows => slice_from rows n)) (elems t))
  | sh => mkTensor sh (elems t)
  end.

(** [t[:, :, :, -n:]] and [t[:, :, :, :n]] *)
Definition last_dim3 {A : Type} (t : T4 A) (n : Z) : T4 A :=
  match shape t with
  | [a; b; c; d] =>
      mkTensor [a; b; c; (d - slice_bound d (- n))%nat]
        (map (map (map (fun row => slice_from row (- n)))) (elems t))
  | sh => mkTensor sh (elems t)
  end.

Definition to_dim3 {A : Type} (t : T4 A) (n : Z) : T4 A :=
  match shape t with
  | [a; b; c; d] =>
      mkTensor [a; b; c; slice_bound d n]
        (map (map (map (fun row => slice_to row n))) (elems t))
  | sh => mkTensor sh (elems t)
  end.

(** [t.squeeze(2)] of a tensor of five dimensions whose third is 1 *)
Definition squeeze2 {A : Type} (t : T5 A) : result (T4 A) :=
  match shape t with
  | [a; b; 1%nat; c; d] =>
      Ok (mkTensor [a; b; c; d] (map (map (@concat (list A))) (elems t)))
  | _ => Raise RuntimeError
  end.

(** [t.transpose(3, 2)] *)
Definition transpose_3_2 {A : Type} (t : T4 A) : T4 A :=
  match shape t with
  | [a; b; c; d] => mkTensor [a; b; d; c] (map (map (transpose d)) (elems t))
  | sh => mkTensor sh (elems t)
  end.

(** the numeric operations of torch, taken as given *)
Record Torch (F : Type) : Type := mkTorch {
  matmul : T4 F -> T4 F -> result (T4 F);
  (* [a + b] and [a += b], with broadcasting *)
  add : T4 F -> T4 F -> result (T4 F);
  (* [nn.functional.softmax(x.float(), dim=-1).type_as(x)] *)
  softmax : T4 F -> T4 F;
  (* the random zeroing of [nn.functional.dropout(x, p=p, training=True)],
     for the state the random generator is in *)
  dropout_mask : T4 F -> F -> T4 F;
  (* [attn_weights * layer_head_mask] *)
  mul_head_mask : T4 F -> T1 F -> result (T4 F);
  (* [torch.einsum("bnqd,bnqkd->bnqk", a, b)] *)
  einsum_bnqd_bnqkd : T4 F -> T5 F -> result (T4 F);
  (* [torch.einsum("bnqk,bnqkd->bnqd", a, b)] *)
  einsum_bnqk_bnqkd : T4 F -> T5 F -> result (T4 F)
}.
Arguments matmul {F} _ _ _.
Arguments add {F} _ _ _.
Arguments softmax {F} _ _.
Arguments dropout_mask {F} _ _ _.
Arguments mul_head_mask {F} _ _ _.
Arguments einsum_bnqd_bnqkd {F} _ _ _.
Arguments einsum_bnqk_bnqkd {F} _ _ _.

(** [nn.functional.dropout(x, p=p, training=training)]: the identity outside
    training *)
Definition dropout {F : Type} (torch : Torch F) (x : T4 F) (p : F) (training : bool)
  : T4 F :=
  if training then dropout_mask torch x p else x.

(** ** The files of a datastore *)

(** the module-level [get_index_path]: an f-string over strings and integers *)
Definition get_index_path (dstore_dir model_type : string)
  (dstore_size dimension head_idx : Z) : string :=
  (dstore_dir ++ "/index_" ++ model_type ++ "_" ++ str dstore_size ++ "_"
   ++ str dimension ++ "_" ++ str head_idx ++ ".indexed")%string.

(** [range(start, stop, step)]: ValueError when [step] is zero *)
Definition py_range (start stop step : Z) : result (list Z) :=
  if step =? 0 then Raise ValueError
  else
    let count :=
      if 0 <? step
      then (if start <? stop then (stop - start - 1) / step + 1 else 0)
      else (if stop <? start then (start - stop - 1) / (- step) + 1 else 0) in
    Ok (map (fun i => start + Z.of_nat i * step) (seq 0 (Z.to_nat count))).

(** ** MemTransDatastore *)

Module MemTransDatastore.

Inductive mmap_mode : Type := mode_r | mode_w_plus.

Section Defs.
Context {F Index : Type}.
(** [.astype(np.float32)] on one stored component *)
Variable astype_float32 : F -> F.

Record t : Type := mk {
  size : Z;
  dimension : Z;
  n_heads : Z;
  cur_idx : Z;
  mode : mmap_mode;
  keys : T3 F;          (* (n_heads, size, dimension) *)
  values : T3 F;        (* (n_heads, size, dimension) *)
  tokens : option (T1 Z);  (* (size) *)
  ids : option (T1 Z);     (* (size) *)
  _labels : option (T2 Z);             (* (batch_size, seq_length) *)
  _decoder_input_ids : option (T2 Z);  (* (batch_size, seq_length) *)
  indices : option (list Index);       (* one index per head, once loaded *)
  start_offsets : option (T1 Z);       (* inclusive *)
  end_offsets : option (T1 Z);         (* exclusive *)
  lengths : option (T1 Z)
}.

Definition set_keys (self : t) (k : T3 F) : t :=
  mk (size self) (dimension self) (n_heads self) (cur_idx self) (mode self)
     k (values self) (tokens self) (ids self)
     (_labels self) (_decoder_input_ids self) (indices self)
     (start_offsets self) (end_offsets self) (lengths self).
Definition set_values (self : t) (v : T3 F) : t :=
  mk (size self) (dimension self) (n_heads self) (cur_idx self) (mode self)
     (keys self) v (tokens self) (ids self)
     (_labels self) (_decoder_input_ids self) (indices self)
     (start_offsets self) (end_offsets self) (lengths self).
Definition set_tokens (self : t) (x : option (T1 Z)) : t :=
  mk (size self) (dimension self) (n_heads self) (cur_idx self) (mode self)
     (keys self) (values self) x (ids self)
     (_labels self) (_decoder_input_ids self) (indices self)
     (start_offsets self) (end_offsets self) (lengths self).
Definition set_ids (self : t) (x : option (T1 Z)) : t :=
  mk (size self) (dimension self) (n_heads self) (cur_idx self) (mode self)
     (keys self) (values self) (tokens self) x
     (_labels self) (_decoder_input_ids self) (indices self)
     (start_offsets self) (end_offsets self) (lengths self).
Definition set_cur_idx (self : t) (c : Z) : t :=
  mk (size self) (dimension self) (n_heads self) c (mode self)
     (keys self) (values self) (tokens self) (ids self)
     (_labels self) (_decoder_input_ids self) (indices self)
     (start_offsets self) (end_offsets self) (lengths self).

(** [save_labels], [save_decoder_input_ids], [get_labels] *)
Definition save_labels (self : t) (labels decoder_input_ids : option (T2 Z)) : t :=
  mk (size self) (dimension self) (n_heads self) (cur_idx self) (mode self)
     (keys self) (values self) (tokens self) (ids self)
     labels decoder_input_ids (indices self)
     (start_offsets self) (end_offsets self) (lengths self).
Definition save_decoder_input_ids (self : t) (decoder_input_ids : option (T2 Z)) : t :=
  mk (size self) (dimension self) (n_heads self) (cur_idx self) (mode self)
     (keys self) (values self) (tokens self) (ids self)
     (_labels self) decoder_input_ids (indices self)
     (start_offsets self) (end_offsets self) (lengths self).
Definition get_labels (self : t) : option (T2 Z) * option (T2 Z) :=
  (_labels self, _decoder_input_ids self).
Definition get_decoder_input_ids (self : t) : option (T2 Z) :=
  _decoder_input_ids self.

(** [dst[s:e] = src] on the rows of one array: numpy raises ValueError when
    the array is read-only or when [src] does not have the shape of the
    target. (numpy would also stretch a length-1 [src]; the guards of
    [save_key_value] leave no room for that case.) *)
Definition write_rows {A : Type} (dst : list A) (s : nat) (src : list A) : list A :=
  firstn s dst ++ src ++ skipn (s + length src) dst.

Definition memmap1_setitem (m : mmap_mode) (dst : T1 Z) (s e : Z) (src : T1 Z)
  : result (T1 Z) :=
  match m, shape dst, shape src with
  | mode_w_plus, [n], [k] =>
      let s' := slice_bound n s in
      let e' := slice_bound n e in
      if Nat.eqb k (e' - s')
      then Ok (mkTensor [n] (write_rows (elems dst) s' (elems src)))
      else Raise ValueError
  | _, _, _ => Raise ValueError
  end.

Definition memmap3_setitem (m : mmap_mode) (dst : T3 F) (s e : Z) (src : T3 F)
  : result (T3 F) :=
  match m, shape dst, shape src with
  | mode_w_plus, [h; n; d], [h'; k; d'] =>
      let s' := slice_bound n s in
      let e' := slice_bound n e in
      if Nat.eqb h' h && Nat.eqb k (e' - s') && Nat.eqb d' d
      then Ok (mkTensor [h; n; d]
                 (map2 (fun rows new => write_rows rows s' new) (elems dst) (elems src)))
      else Raise ValueError
  | _, _, _ => Raise ValueError
  end.

(** The checks of [save_key_value] that come before any write. They return
    the batch as it will be written: [nt] and the four truncated tensors. *)
Definition save_key_value_checks (self : t)
  (keys_in values_in : T3 F) (tokens_in ids_in : option (T1 Z))
  : result (Z * T3 F * T3 F * T1 Z * T1 Z) :=
  k1 <- size_at keys_in 1 ;;
  v1 <- size_at values_in 1 ;;
  _ <- assert (Nat.eqb k1 v1) ;;
  tokens_in <- match tokens_in with Some x => Ok x | None => Raise AttributeError end ;;
  t0 <- size_at tokens_in 0 ;;
  _ <- assert (Nat.eqb v1 t0) ;;
  ids_in <- match ids_in with Some x => Ok x | None => Raise AttributeError end ;;
  i0 <- size_at ids_in 0 ;;
  _ <- assert (Nat.eqb t0 i0) ;;
  match shape keys_in with
  | [nh; nt; dim] =>
      _ <- assert ((Z.of_nat nh =? n_heads self) && (Z.of_nat dim =? dimension self)) ;;
      _ <- assert (cur_idx self <=? size self) ;;
      if cur_idx self + Z.of_nat nt >? size self then
        let nt' := size self - cur_idx self in
        Ok (nt', t3_slice1_to keys_in nt', t3_slice1_to values_in nt',
            t1_slice_to tokens_in nt', t1_slice_to ids_in nt')
      else Ok (Z.of_nat nt, keys_in, values_in, tokens_in, ids_in)
  | _ => Raise ValueError
  end.

Definition t3_map (f : F -> F) (x : T3 F) : T3 F :=
  mkTensor (shape x) (map (map (map f)) (elems x)).
Definition t1_map (f : Z -> Z) (x : T1 Z) : T1 Z :=
  mkTensor (shape x) (map f (elems x)).

(** [save_key_value]: the store after the call and what the call returned or
    raised. The four writes happen in order; a write that raises leaves the
    earlier ones in place and [cur_idx] where it was. *)
Definition save_key_value (self : t)
  (keys_in values_in : T3 F) (tokens_in ids_in : option (T1 Z))
  : t * result unit :=
  match save_key_value_checks self keys_in values_in tokens_in ids_in with
  | Raise e => (self, Raise e)
  | Ok (nt, ks, vs, ts, iv) =>
      let lo := cur_idx self in
      let hi := nt + cur_idx self in
      match memmap3_setitem (mode self) (keys self) lo hi (t3_map astype_float32 ks) with
      | Raise e => (self, Raise e)
      | Ok k' =>
          let self := set_keys self k' in
          match memmap3_setitem (mode self) (values self) lo hi (t3_map astype_float32 vs) with
          | Raise e => (self, Raise e)
          | Ok v' =>
              let self := set_values self v' in
              match tokens self with
              | None => (self, Raise TypeError)
              | Some tk =>
                  match memmap1_setitem (mode self) tk lo hi (t1_map to_int32 ts) with
                  | Raise e => (self, Raise e)
                  | Ok tk' =>
                      let self := set_tokens self (Some tk') in
                      match ids self with
                      | None => (self, Raise TypeError)
                      | Some idt =>
                          match memmap1_setitem (mode self) idt lo hi (t1_map to_int32 iv) with
                          | Raise e => (self, Raise e)
                          | Ok id' =>
                              let self := set_ids self (Some id') in
                              (set_cur_idx self (cur_idx self + nt), Ok tt)
                          end
                      end
                  end
              end
          end
      end
  end.

(** A sequence of [save_key_value] calls: the store after each call. *)
Definition call : Type := (T3 F * T3 F * option (T1 Z) * option (T1 Z))%type.

Definition apply_call (self : t) (c : call) : t * result unit :=
  let '(k, v, tk, i) := c in save_key_value self k v tk i.

Fixpoint run (self : t) (calls : list call) : list t :=
  match calls with
  | [] => []
  | c :: rest => let self' := fst (apply_call self c) in self' :: run self' rest
  end.

(** The store as [load_or_init_dstore] creates it and as the writes keep
    it: arrays of the configured shape, [cur_idx] within the capacity. *)
Definition wf (self : t) : bool :=
  (0 <=? size self) && (0 <=? dimension self) && (0 <=? n_heads self)
  && (0 <=? cur_idx self) && (cur_idx self <=? size self)
  && wf3 (keys self) && wf3 (values self)
  && shape_eqb (shape (keys self))
       [Z.to_nat (n_heads self); Z.to_nat (size self); Z.to_nat (dimension self)]
  && shape_eqb (shape (values self))
       [Z.to_nat (n_heads self); Z.to_nat (size self); Z.to_nat (dimension self)]
  && match tokens self, ids self with
     | Some tk, Some idt =>
         wf1 tk && wf1 idt
         && shape_eqb (shape tk) [Z.to_nat (size self)]
         && shape_eqb (shape idt) [Z.to_nat (size self)]
     | _, _ => false
     end.

(** A batch that passes the shape checks of [save_key_value]. *)
Definition batch_ok (self : t) (nt : nat) (c : call) : bool :=
  let '(k, v, tk, i) := c in
  wf3 k && wf3 v
  && shape_eqb (shape k)
       [Z.to_nat (n_heads self); nt; Z.to_nat (dimension self)]
  && shape_eqb (shape v)
       [Z.to_nat (n_heads self); nt; Z.to_nat (dimension self)]
  && match tk, i with
     | Some tk, Some i =>
         wf1 tk && wf1 i
         && shape_eqb (shape tk) [nt]
         && shape_eqb (shape i) [nt]
     | _, _ => false
     end.

(** *** [load_index(build_offset=True)]: start and end offsets of each id *)

(** The loop over [enumerate(self.ids)]; it hands back the two lists as
    they stand, also when it raises. (The ids are 32-bit and there are fewer
    than 2^31 of them, so [prev_id + 1] stays in range.) *)
Fixpoint offsets_loop (ids_ : list Z) (i : Z) (prev_id : Z)
  (start_offsets_ end_offsets_ : list Z) : list Z * list Z * result unit :=
  match ids_ with
  | [] => (start_offsets_, end_offsets_, Ok tt)
  | _id :: rest =>
      if _id =? prev_id + 1 then  (* new id *)
        let end_offsets_ :=
          if negb (Nat.eqb (length start_offsets_) 0)  (* not the first *)
          then end_offsets_ ++ [i] else end_offsets_ in
        offsets_loop rest (i + 1) _id (start_offsets_ ++ [i]) end_offsets_
      else if _id =? prev_id then
        offsets_loop rest (i + 1) prev_id start_offsets_ end_offsets_
      else (start_offsets_, end_offsets_, Raise ValueError)  (* ids are not consecutive *)
  end.

(** the start offsets and the end offsets as the code leaves them, and the
    lengths or the exception *)
Definition build_offset (ids_ : list Z) : list Z * list Z * result (list Z) :=
  let '(so, eo, res) := offsets_loop ids_ 0 (-1) [] [] in
  match res with
  | Raise e => (so, eo, Raise e)
  | Ok _ =>
      let eo := eo ++ [Z.of_nat (length ids_)] in
      (so, eo,
       _ <- assert (Nat.eqb (length so) (length eo)) ;;
       Ok (map2 Z.sub eo so))
  end.

Definition tensor1 (l : list Z) : T1 Z := mkTensor [length l] l.

(** [faiss.read_index] for one head *)
Variable read_index : Z -> result Index.

Definition set_offsets (self : t) (so eo lens : option (T1 Z)) : t :=
  mk (size self) (dimension self) (n_heads self) (cur_idx self) (mode self)
     (keys self) (values self) (tokens self) (ids self)
     (_labels self) (_decoder_input_ids self) (indices self) so eo lens.
Definition set_indices (self : t) (ix : option (list Index)) : t :=
  mk (size self) (dimension self) (n_heads self) (cur_idx self) (mode self)
     (keys self) (values self) (tokens self) (ids self)
     (_labels self) (_decoder_input_ids self) ix
     (start_offsets self) (end_offsets self) (lengths self).

(** the loop that reads the index of every head *)
Fixpoint read_indices (heads : list nat) (acc : list Index) : list Index * result unit :=
  match heads with
  | [] => (acc, Ok tt)
  | h :: rest =>
      match read_index (Z.of_nat h) with
      | Raise e => (acc, Raise e)
      | Ok index => read_indices rest (acc ++ [index])
      end
  end.

Definition load_index (self : t) (build_offset_ : bool) : t * result unit :=
  let '(self, res) :=
    if build_offset_ then
      match ids self with
      | None => (set_offsets self (Some (tensor1 [])) (Some (tensor1 [])) (lengths self),
                 Raise TypeError)
      | Some idt =>
          match build_offset (elems idt) with
          | (so, eo, Ok lens) =>
              (set_offsets self (Some (tensor1 so)) (Some (tensor1 eo))
                 (Some (tensor1 lens)), Ok tt)
          | (so, eo, Raise e) =>
              (set_offsets self (Some (tensor1 so)) (Some (tensor1 eo)) (lengths self),
               Raise e)
          end
      end
    else (self, Ok tt) in
  match res with
  | Raise e => (self, Raise e)
  | Ok _ =>
      let '(ix, res) := read_indices (seq 0 (Z.to_nat (n_heads self))) [] in
      (set_indices self (Some ix), res)
  end.

(** *** [get_knns] *)

(** [index.search(queries, topk)]: the row numbers of the top-k stored
    keys, shaped (batch_size, topk) *)
Variable index_search : Index -> T2 F -> Z -> T2 Z.
Variable fzero : F.

(** every call of [index.search] is recorded *)
Inductive event : Type := index_search_call (h : nat) (topk : Z).

(** [a[indices]] for a (batch_size, topk) tensor of row numbers *)
Definition gather {A : Type} (a : list A) (inner : list nat) (ix : T2 Z)
  : result (T2 A) :=
  rows <- mapM (fun row => mapM (getitem a) row) (elems ix) ;;
  Ok (mkTensor (shape ix ++ inner) rows).

Record knns : Type := mk_knns {
  ret_ks : T4 F;            (* (n_heads, batch_size, topk, dim) *)
  ret_vs : T4 F;            (* (n_heads, batch_size, topk, dim) *)
  ret_ts : option (T3 Z);   (* (n_heads, batch_size, topk) *)
  ret_ids : option (T3 Z)   (* (n_heads, batch_size, topk) *)
}.

(** one turn of the loop over the heads: what comes before the search, and
    the gathers that follow it *)
Definition get_knns_head_query (self : t) (queries : T3 F) (h : nat)
  : result (Index * T2 F) :=
  ix <- match indices self with Some ix => Ok ix | None => Raise AttributeError end ;;
  index <- getitem ix (Z.of_nat h) ;;
  qh <- getitem (elems queries) (Z.of_nat h) ;;
  Ok (index, mkTensor (tl (shape queries)) qh).

Definition get_knns_head_gather (self : t) (return_all : bool) (h : nat) (found : T2 Z)
  : result (T3 F * T3 F * option (T2 Z * T2 Z)) :=
  kh <- getitem (elems (keys self)) (Z.of_nat h) ;;
  ks <- gather kh (skipn 2 (shape (keys self))) found ;;
  vh <- getitem (elems (values self)) (Z.of_nat h) ;;
  vs <- gather vh (skipn 2 (shape (values self))) found ;;
  if return_all then
    tk <- match tokens self with Some x => Ok x | None => Raise AssertionError end ;;
    ts <- gather (elems tk) [] found ;;
    idt <- match ids self with Some x => Ok x | None => Raise AssertionError end ;;
    is_ <- gather (elems idt) [] found ;;
    Ok (ks, vs, Some (ts, is_))
  else Ok (ks, vs, None).

Fixpoint get_knns_loop (self : t) (queries : T3 F) (topk : Z) (return_all : bool)
  (heads : list nat) (log : list event)
  (acc_ks acc_vs : list (T3 F)) (acc_ts acc_ids : list (T2 Z))
  : list event * result (list (T3 F) * list (T3 F) * list (T2 Z) * list (T2 Z)) :=
  match heads with
  | [] => (log, Ok (acc_ks, acc_vs, acc_ts, acc_ids))
  | h :: rest =>
      match get_knns_head_query self queries h with
      | Raise e => (log, Raise e)
      | Ok (index, qh) =>
          let found := index_search index qh topk in
          let log := log ++ [index_search_call h topk] in
          match get_knns_head_gather self return_all h found with
          | Raise e => (log, Raise e)
          | Ok (ks, vs, Some (ts, is_)) =>
              get_knns_loop self queries topk return_all rest log
                (acc_ks ++ [ks]) (acc_vs ++ [vs]) (acc_ts ++ [ts]) (acc_ids ++ [is_])
          | Ok (ks, vs, None) =>
              get_knns_loop self queries topk return_all rest log
                (acc_ks ++ [ks]) (acc_vs ++ [vs]) acc_ts acc_ids
          end
      end
  end.

Definition get_knns (self : t) (queries : T3 F) (topk : Z) (return_all : bool)
  : list event * result knns :=
  match shape queries with
  | [nh; bs; dim] =>
      if topk <=? 0 then  (* return "empty" tensors *)
        let ks := zeros4 fzero nh bs 0 dim in
        let vs := zeros4 fzero nh bs 0 dim in
        if return_all then
          ([], Ok (mk_knns ks vs (Some (zeros3 0 nh bs 0)) (Some (zeros3 0 nh bs 0))))
        else ([], Ok (mk_knns ks vs None None))
      else
        match get_knns_loop self queries topk return_all
                (seq 0 (Z.to_nat (n_heads self))) [] [] [] [] [] with
        | (log, Raise e) => (log, Raise e)
        | (log, Ok (lks, lvs, lts, lids)) =>
            (log,
             ks <- stack0 lks ;;
             vs <- stack0 lvs ;;
             if return_all then
               ts <- stack0 lts ;;
               is_ <- stack0 lids ;;
               Ok (mk_knns ks vs (Some ts) (Some is_))
             else Ok (mk_knns ks vs None None))
        end
  | _ => ([], Raise ValueError)
  end.

(** *** [get_knns_by_ids] *)

(** [StridedTensor(packed, lengths).lookup(ids, output='padded')[0]] of the
    utils module: the span of every id, padded to a common length.
    (batch_size, seq_len, n_heads, dim) for keys and values,
    (batch_size, seq_len) for tokens and ids. *)
Variable strided_lookup3 : T3 F -> T1 Z -> T1 Z -> result (T4 F).
Variable strided_lookup1 : T1 Z -> T1 Z -> T1 Z -> result (T2 Z).

(** [t.permute(2, 0, 1, 3)] *)
Definition permute_2013 (x : T4 F) : T4 F := permute_10 (permute_021 x).

Definition get_knns_by_ids (self : t) (ids_ : T1 Z) (max_length : Z)
  (skip_first_token return_all : bool) : result knns :=
  lens <- match lengths self with Some l => Ok l | None => Raise AttributeError end ;;
  ks <- strided_lookup3 (permute_10 (keys self)) lens ids_ ;;
  vs <- strided_lookup3 (permute_10 (values self)) lens ids_ ;;
  side <- (if return_all then
             tk <- match tokens self with Some x => Ok x | None => Raise AttributeError end ;;
             idt <- match ids self with Some x => Ok x | None => Raise AttributeError end ;;
             ts <- strided_lookup1 tk lens ids_ ;;
             is_ <- strided_lookup1 idt lens ids_ ;;
             Ok (Some (ts, is_))
           else Ok None) ;;
  k1 <- size_at ks 1 ;;
  v1 <- size_at vs 1 ;;
  _ <- assert (Nat.eqb k1 v1) ;;
  _ <- match side with
       | Some (ts, is_) =>
           t1 <- size_at ts 1 ;;
           _ <- assert (Nat.eqb v1 t1) ;;
           i1 <- size_at is_ 1 ;;
           assert (Nat.eqb t1 i1)
       | None => Ok tt
       end ;;
  (* skip the first token which is usually the bos token *)
  let ks := if skip_first_token then slice1_from ks 1 else ks in
  let vs := if skip_first_token then slice1_from vs 1 else vs in
  let side := if skip_first_token
              then option_map (fun p => (slice1_from (fst p) 1, slice1_from (snd p) 1)) side
              else side in
  seq_len <- size_at ks 1 ;;
  let trunc := Z.of_nat seq_len >? max_length in
  let ks := if trunc then slice1_to ks max_length else ks in
  let vs := if trunc then slice1_to vs max_length else vs in
  let side := if trunc
              then option_map (fun p => (slice1_to (fst p) max_length,
                                         slice1_to (snd p) max_length)) side
              else side in
  let nh := Z.to_nat (n_heads self) in
  Ok (mk_knns (permute_2013 ks) (permute_2013 vs)
        (option_map (fun p => repeat0 (fst p) nh) side)
        (option_map (fun p => repeat0 (snd p) nh) side)).

(** [wf] as a proposition. *)
Definition wfP (self : t) : Prop :=
  0 <= size self /\ 0 <= dimension self /\ 0 <= n_heads self
  /\ 0 <= cur_idx self <= size self
  /\ wf3 (keys self) = true /\ wf3 (values self) = true
  /\ shape (keys self)
     = [Z.to_nat (n_heads self); Z.to_nat (size self); Z.to_nat (dimension self)]
  /\ shape (values self)
     = [Z.to_nat (n_heads self); Z.to_nat (size self); Z.to_nat (dimension self)]
  /\ exists tk idt, tokens self = Some tk /\ ids self = Some idt
       /\ wf1 tk = true /\ wf1 idt = true
       /\ shape tk = [Z.to_nat (size self)] /\ shape idt = [Z.to_nat (size self)].

(** The tensors of a batch agree with their shapes. *)
Definition call_wf (c : call) : bool :=
  let '(k, v, tk, i) := c in
  wf3 k && wf3 v
  && match tk with Some x => wf1 x | None => true end
  && match i with Some x => wf1 x | None => true end.

(** *** The constructor, the files and [build_index] *)

(** the arguments of the constructor that the record above leaves out *)
Record location : Type := mk_location {
  directory : string;
  model_type : string
}.

(** [get_index_path] of the class *)
Definition index_path (loc : location) (self : t) (head_idx : Z) : string :=
  get_index_path (directory loc) (model_type loc) (size self) (dimension self) head_idx.

(** [get_dstore_path] of the knnlm module, which the sources do not include:
    the common prefix of the four array files *)
Variable knnlm_get_dstore_path : string -> string -> Z -> Z -> string.

Definition get_dstore_path (loc : location) (size_ dimension_ : Z)
  : string * string * string * string :=
  let prefix := knnlm_get_dstore_path (directory loc) (model_type loc) size_ dimension_ in
  ((prefix ++ "_keys.npy")%string, (prefix ++ "_vals.npy")%string,
   (prefix ++ "_tokens.npy")%string, (prefix ++ "_ids.npy")%string).

(** [os.path.exists] and [np.memmap] on the file system as it is when the
    constructor runs; [np.memmap] is given the file, the mode and the shape,
    and the float32 or int32 type goes with the rank *)
Variable os_path_exists : string -> bool.
Variable np_memmap3 : string -> mmap_mode -> Z * Z * Z -> result (T3 F).
Variable np_memmap1 : string -> mmap_mode -> Z -> result (T1 Z).

(** [__init__] with [load_or_init_dstore]: the store, or the exception of
    mapping the keys or the values. A failure to map the tokens or the ids
    is caught and leaves both unset. *)
Definition init (loc : location) (size_ dimension_ n_heads_ : Z) : result t :=
  let '(key_file, val_file, tok_file, id_file) := get_dstore_path loc size_ dimension_ in
  let mode_ := if os_path_exists key_file then mode_r else mode_w_plus in
  keys_ <- np_memmap3 key_file mode_ (n_heads_, size_, dimension_) ;;
  values_ <- np_memmap3 val_file mode_ (n_heads_, size_, dimension_) ;;
  let '(tokens_, ids_) :=
    match np_memmap1 tok_file mode_ size_ with
    | Raise _ => (None, None)
    | Ok tk =>
        match np_memmap1 id_file mode_ size_ with
        | Raise _ => (None, None)
        | Ok idt => (Some tk, Some idt)
        end
    end in
  Ok (mk size_ dimension_ n_heads_ 0 mode_ keys_ values_ tokens_ ids_
        None None None None None None).

(** [faiss.IndexFlatIP(dimension)] and the methods of an index that
    [build_index] uses *)
Variable index_flat_ip : Z -> Index.
Variable is_trained : Index -> bool.
Variable index_train : Index -> T2 F -> Index.
Variable index_add : Index -> T2 F -> Index.

(** every [index.add] and every [faiss.write_index] is recorded *)
Inductive build_event : Type :=
| index_add_call (h : nat) (batch : T2 F)
| write_index_call (h : nat) (index_name : string).

Definition t2_map (f : F -> F) (x : T2 F) : T2 F :=
  mkTensor (shape x) (map (map f) (elems x)).

(** [x[b:e]] on the rows of a two-dimensional array *)
Definition t2_slice (x : T2 F) (b e : Z) : T2 F :=
  mkTensor (length (slice (elems x) b e) :: tl (shape x)) (slice (elems x) b e).

(** the loop over the batches of one head *)
Fixpoint add_batches (index : Index) (h : nat) (keys_one_head : T2 F) (batch_size : Z)
  (starts : list Z) (log : list build_event) : Index * list build_event :=
  match starts with
  | [] => (index, log)
  | b :: rest =>
      let batch := t2_map astype_float32 (t2_slice keys_one_head b (b + batch_size)) in
      add_batches (index_add index batch) h keys_one_head batch_size rest
        (log ++ [index_add_call h batch])
  end.

(** the loop over the heads; the index of a head is in [self.indices] from
    the moment it is created *)
Fixpoint build_index_loop (loc : location) (self : t) (batch_size : Z) (heads : list nat)
  (acc : list Index) (log : list build_event)
  : list Index * list build_event * result unit :=
  match heads with
  | [] => (acc, log, Ok tt)
  | h :: rest =>
      let index_name := index_path loc self (Z.of_nat h) in
      let index := index_flat_ip (dimension self) in
      match getitem (elems (keys self)) (Z.of_nat h) with
      | Raise e => (acc ++ [index], log, Raise e)
      | Ok rows =>
          (* remove unused slots *)
          let kept := slice_to rows (cur_idx self) in
          let keys_one_head : T2 F :=
            mkTensor (length kept :: skipn 2 (shape (keys self))) kept in
          let index :=
            if negb (is_trained index)  (* use all keys for training *)
            then index_train index (t2_map astype_float32 keys_one_head)
            else index in
          match py_range 0 (Z.of_nat (length kept)) batch_size with
          | Raise e => (acc ++ [index], log, Raise e)
          | Ok starts =>
              let '(index, log) :=
                add_batches index h keys_one_head batch_size starts log in
              build_index_loop loc self batch_size rest (acc ++ [index])
                (log ++ [write_index_call h index_name])
          end
      end
  end.

Definition build_index (loc : location) (self : t) (batch_size : Z)
  : t * list build_event * result unit :=
  let '(ix, log, res) :=
    build_index_loop loc self batch_size (seq 0 (Z.to_nat (n_heads self))) [] [] in
  (set_indices self (Some ix), log, res).

(** the rows that were added to the index of head [h], in the order of the
    calls *)
Definition added_rows (h : nat) (log : list build_event) : list (list F) :=
  flat_map (fun ev => match ev with
                      | index_add_call h' batch => if Nat.eqb h' h then elems batch else []
                      | write_index_call _ _ => []
                      end) log.

(** The entries below position [n] of the four arrays, as a reader of the
    store sees them. *)
Definition stored_below (n : Z) (self : t)
  : list (list (list F)) * list (list (list F)) * option (list Z) * option (list Z) :=
  (map (fun rows => slice_to rows n) (elems (keys self)),
   map (fun rows => slice_to rows n) (elems (values self)),
   option_map (fun x => slice_to (elems x) n) (tokens self),
   option_map (fun x => slice_to (elems x) n) (ids self)).

End Defs.
End MemTransDatastore.

(** ** RetrievalTracker *)

Module RetrievalTracker.

Record t : Type := mk {
  track_file : option string;
  n_heads : Z;
  topk : Z;
  eos_token_id : Z;
  (* each item corresponds to one step *)
  predictions : list (T1 Z);       (* (batch_size) *)
  retrieved_tokens : list (T3 Z);  (* (batch_size, n_heads, topk) *)
  retrieved_ids : list (T3 Z);     (* (batch_size, n_heads, topk) *)
  (* the text handed to [_write] so far, one entry per call *)
  written : list string
}.

Definition set_buffers (self : t) (p : list (T1 Z)) (rt ri : list (T3 Z)) : t :=
  mk (track_file self) (n_heads self) (topk self) (eos_token_id self) p rt ri
     (written self).

Definition _write (self : t) (text : string) : t :=
  mk (track_file self) (n_heads self) (topk self) (eos_token_id self)
     (predictions self) (retrieved_tokens self) (retrieved_ids self)
     (written self ++ [text]).

Definition add_single_step_batched (self : t)
  (prediction : T1 Z) (retrieved_token retrieved_id : T3 Z) : t * result unit :=
  match (p0 <- size_at prediction 0 ;;
         t0 <- size_at retrieved_token 0 ;;
         _ <- assert (Nat.eqb p0 t0) ;;
         i0 <- size_at retrieved_id 0 ;;
         assert (Nat.eqb t0 i0)) with
  | Raise e => (self, Raise e)
  | Ok _ =>
      (set_buffers self (predictions self ++ [prediction])
         (retrieved_tokens self ++ [retrieved_token])
         (retrieved_ids self ++ [retrieved_id]), Ok tt)
  end.

(** the "pad with 0" step of [write]: a step whose last dimension is not
    [max_topk] is replaced by [zeros_like] of the widest step *)
Definition pad_steps (steps : list (T3 Z)) (widest : result (T3 Z)) (max_topk : nat)
  : result (list (T3 Z)) :=
  mapM (fun x => w <- size_last x ;;
                 if negb (Nat.eqb w max_topk)
                 then (wd <- widest ;; Ok (zeros_like3 wd))
                 else Ok x)
       steps.

(** [torch.stack([tokens, ids], dim=-1).flatten(2, 4)] on one
    (n_heads, topk) block: token and id alternate *)
Definition interleave (toks ids_ : list (list Z)) : list Z :=
  concat (map2 (fun th ih => concat (map2 (fun a b => [a; b]) th ih)) toks ids_).

(** [agg]: (batch_size, seq_len, 1 + n_heads * topk * 2) *)
Definition aggregate (preds : T2 Z) (toks ids_ : T4 Z) : result (list (list (list Z))) :=
  _ <- (if shape_eqb (shape toks) (shape ids_) then Ok tt else Raise RuntimeError) ;;
  match shape toks with
  | [bs; sl; nh; k] =>
      _ <- (if shape_eqb (shape preds) [bs; sl] then Ok tt else Raise RuntimeError) ;;
      Ok (map2 (fun prow tirow =>
                  map2 (fun p ti => p :: interleave (fst ti) (snd ti))
                       prow tirow)
               (elems preds)
               (map2 (fun trow irow => combine trow irow) (elems toks) (elems ids_)))
  | _ => Raise ValueError
  end.

(** the inner loop over the steps of one batch row: it stops at the first
    step whose prediction is the end-of-sequence token *)
Fixpoint write_steps (self : t) (steps : list (list Z)) : t :=
  match steps with
  | [] => self
  | s :: rest =>
      if hd 0 s =? eos_token_id self then self  (* end of prediction *)
      else
        write_steps (_write self (join_line s)) rest
  end.

Fixpoint write_rows (self : t) (agg : list (list (list Z))) : t :=
  match agg with
  | [] => self
  | row :: rest =>
      write_rows (_write (write_steps self row) newline) rest
  end.

Definition write (self : t) : t * result unit :=
  match stack1 (predictions self) with
  | Raise e => (self, Raise e)
  | Ok preds =>
      (* pad with 0 *)
      match (widths <- mapM size_last (retrieved_tokens self) ;;
             max_topk_idx <- argmax widths ;;
             widest_t <- getitem (retrieved_tokens self) (Z.of_nat max_topk_idx) ;;
             max_topk <- size_last widest_t ;;
             rt <- pad_steps (retrieved_tokens self) (Ok widest_t) max_topk ;;
             Ok (max_topk_idx, max_topk, rt)) with
      | Raise e => (self, Raise e)
      | Ok (max_topk_idx, max_topk, rt) =>
          let self := set_buffers self (predictions self) rt (retrieved_ids self) in
          match pad_steps (retrieved_ids self)
                  (getitem (retrieved_ids self) (Z.of_nat max_topk_idx)) max_topk with
          | Raise e => (self, Raise e)
          | Ok ri =>
              let self := set_buffers self (predictions self) (retrieved_tokens self) ri in
              (* pack *)
              match (toks <- stack1 (retrieved_tokens self) ;;
                     ids_ <- stack1 (retrieved_ids self) ;;
                     aggregate preds toks ids_) with
              | Raise e => (self, Raise e)
              | Ok agg =>
                  let self := write_rows self agg in
                  (* clear cache *)
                  (set_buffers self [] [] [], Ok tt)
              end
          end
      end
  end.

End RetrievalTracker.

(** ** MemTransAttn: the save and the retrieve stage *)

Module MemTransAttn.

Inductive stage_t : Type :=
| stage_save
| stage_retrieve
| stage_other (s : string).

Section Defs.
Context {F Index : Type}.
Variable astype_float32 : F -> F.
Variable index_search : Index -> T2 F -> Z -> T2 Z.
Variable fzero : F.
Variable strided_lookup3 : T3 F -> T1 Z -> T1 Z -> result (T4 F).
Variable strided_lookup1 : T1 Z -> T1 Z -> T1 Z -> result (T2 Z).

Local Abbreviation knns := (@MemTransDatastore.knns F).

Record t : Type := mk {
  dstore : @MemTransDatastore.t F Index;
  topk : Z;
  stage : stage_t;
  track : bool;                          (* [bool(self.track)] *)
  tracker : option RetrievalTracker.t;   (* present when [track] *)
  by_ids : bool;
  by_ids_cache : option knns;
  id_offset : Z;
  skip_retrieval_steps : Z;
  skip_first_token : bool;
  add_after_first : bool
}.

Definition is_track (self : t) : bool := track self.

Definition set_dstore (self : t) (d : @MemTransDatastore.t F Index) : t :=
  mk d (topk self) (stage self) (track self) (tracker self) (by_ids self)
     (by_ids_cache self) (id_offset self) (skip_retrieval_steps self)
     (skip_first_token self) (add_after_first self).
Definition set_tracker (self : t) (tr : option RetrievalTracker.t) : t :=
  mk (dstore self) (topk self) (stage self) (track self) tr (by_ids self)
     (by_ids_cache self) (id_offset self) (skip_retrieval_steps self)
     (skip_first_token self) (add_after_first self).
Definition set_by_ids_cache (self : t) (c : option knns) : t :=
  mk (dstore self) (topk self) (stage self) (track self) (tracker self) (by_ids self)
     c (id_offset self) (skip_retrieval_steps self)
     (skip_first_token self) (add_after_first self).
Definition set_id_offset (self : t) (o : Z) : t :=
  mk (dstore self) (topk self) (stage self) (track self) (tracker self) (by_ids self)
     (by_ids_cache self) o (skip_retrieval_steps self)
     (skip_first_token self) (add_after_first self).

(** *** [save] *)

(** [id_offset + torch.arange(bs).unsqueeze(-1).repeat(1, sl).flatten(0, 1)] *)
Definition example_ids (id_offset_ : Z) (bs sl : nat) : T1 Z :=
  mkTensor [(bs * sl)%nat]
    (map (Z.add id_offset_)
         (concat (map (fun j => repeat (Z.of_nat j) sl) (seq 0 bs)))).

Definition save (self : t) (key_states value_states : T4 F) : t * result unit :=
  match shape key_states with
  | [bs; _; sl; _] =>
      (* get mask *)
      match MemTransDatastore.get_labels (dstore self) with
      | (Some labels, Some decoder_input_ids) =>
          let labels := flatten_01 labels in
          let decoder_input_ids := flatten_01 decoder_input_ids in
          let mask : T1 bool :=
            mkTensor (shape labels) (map (fun x => negb (x =? -100)) (elems labels)) in
          (* get idx *)
          let ids_ := example_ids (id_offset self) bs sl in
          let self := set_id_offset self (id_offset self + Z.of_nat bs) in
          (* remove padding tokens *)
          let key_states := flatten_12 (permute_10 key_states) in
          let value_states := flatten_12 (permute_10 value_states) in
          match (ks <- index_mask1 key_states mask ;;
                 vs <- index_mask1 value_states mask ;;
                 tokens_ <- index_mask0 decoder_input_ids mask ;;
                 ids_ <- index_mask0 ids_ mask ;;
                 Ok (ks, vs, tokens_, ids_)) with
          | Raise e => (self, Raise e)
          | Ok (ks, vs, tokens_, ids_) =>
              (* save *)
              let '(d, res) :=
                MemTransDatastore.save_key_value astype_float32 (dstore self)
                  ks vs (Some tokens_) (Some ids_) in
              (set_dstore self d, res)
          end
      | _ => (self, Raise AttributeError)
      end
  | _ => (self, Raise ValueError)
  end.

(** *** [retrieve] *)

(** [self.skip_retrieval_steps and key_length <= self.skip_retrieval_steps] *)
Definition skip_for_retrieval (self : t) (key_length : Z) : bool :=
  negb (skip_retrieval_steps self =? 0) && (key_length <=? skip_retrieval_steps self).

(** the [topk] handed to the datastore *)
Definition effective_topk (self : t) (sl : nat) (key_length : Z) : Z :=
  let topk_ := topk self in
  let topk_ := if Nat.ltb 1 sl then Z.min (topk self) 0 else topk_ in
  if skip_for_retrieval self key_length then 0 else topk_.

(** [torch.arange(bs) + id_offset] *)
Definition arange_plus (bs : nat) (id_offset_ : Z) : T1 Z :=
  mkTensor [bs] (map (fun j => Z.of_nat j + id_offset_) (seq 0 bs)).

(** what [retrieve] asks of the datastore *)
Inductive event : Type :=
| by_ids_cache_hit
| get_knns_by_ids_call (ids_ : T1 Z) (max_length : Z)
| get_knns_call (topk_ : Z) (searches : list MemTransDatastore.event).

(** the tracking step of [retrieve] *)
Definition track_retrieval (self : t) (sl : nat) (r : knns) : t * result unit :=
  if is_track self then
    match tracker self with
    | None => (self, Raise AttributeError)
    | Some tr =>
        let input_ids := MemTransDatastore.get_decoder_input_ids (dstore self) in
        if Nat.eqb sl 1 then  (* only track the generation process *)
          match (ii <- match input_ids with Some x => Ok x | None => Raise AttributeError end ;;
                 p <- squeeze_last2 ii ;;
                 ts <- match MemTransDatastore.ret_ts r with
                       | Some x => Ok x | None => Raise AttributeError end ;;
                 is_ <- match MemTransDatastore.ret_ids r with
                        | Some x => Ok x | None => Raise AttributeError end ;;
                 Ok (p, permute_10 ts, permute_10 is_)) with
          | Raise e => (self, Raise e)
          | Ok (p, ts, is_) =>
              let '(tr', res) := RetrievalTracker.add_single_step_batched tr p ts is_ in
              (set_tracker self (Some tr'), res)
          end
        else  (* write in evaluation process *)
          let '(tr', res) := RetrievalTracker.write tr in
          (set_tracker self (Some tr'), res)
    end
  else (self, Ok tt).

(** the lookup of [retrieve]: by ids (with the one-slot cache) in
    single-token decoding when [by_ids] is set, by similarity otherwise;
    [query_states] is already (n_heads, batch_size * seq_length, dim) *)
Definition retrieve_lookup (self : t) (query_states : T3 F) (sl : nat)
  (key_length : Z) (ids_ : T1 Z) : t * list event * result knns :=
  let topk_ := effective_topk self sl key_length in
  let skip := skip_for_retrieval self key_length in
  if by_ids self && Nat.eqb sl 1 then
    match negb skip, by_ids_cache self with
    | true, Some cached => (self, [by_ids_cache_hit], Ok cached)
    | _, _ =>
        match MemTransDatastore.get_knns_by_ids strided_lookup3 strided_lookup1
                (dstore self) ids_ topk_ (skip_first_token self) (is_track self) with
        | Raise e => (self, [get_knns_by_ids_call ids_ topk_], Raise e)
        | Ok r =>
            (set_by_ids_cache self (if negb skip then Some r else None),
             [get_knns_by_ids_call ids_ topk_], Ok r)
        end
    end
  else
    let '(searches, r) :=
      MemTransDatastore.get_knns index_search fzero (dstore self)
        query_states topk_ (is_track self) in
    (self, [get_knns_call topk_ searches], r).

(** the reshaping of what was found:
    (batch_size, n_heads, seq_length, topk, dim_per_head) *)
Definition retrieve_return (r : knns) (bs nh sl d : nat) : result (T5 F * T5 F) :=
  actual_topk <- size_at (MemTransDatastore.ret_ks r) 2 ;;
  ks <- view5 (MemTransDatastore.ret_ks r) nh bs sl actual_topk d ;;
  vs <- view5 (MemTransDatastore.ret_vs r) nh bs sl actual_topk d ;;
  Ok (permute_10 ks, permute_10 vs).

Definition retrieve (self : t) (query_states : T4 F) (key_length : Z)
  (ids_ : option (T1 Z)) : t * list event * result (T5 F * T5 F) :=
  match shape query_states with
  | [bs; nh; sl; d] =>
      let query_states := flatten_12 (permute_10 query_states) in
      let ids_ := match ids_ with
                  | Some x => x
                  | None => arange_plus bs (id_offset self)
                  end in
      let '(self, log, found) := retrieve_lookup self query_states sl key_length ids_ in
      match found with
      | Raise e => (self, log, Raise e)
      | Ok r =>
          (* track retrieval *)
          let '(self, tracked) := track_retrieval self sl r in
          match tracked with
          | Raise e => (self, log, Raise e)
          | Ok _ =>
              (* change offset in evaluation process *)
              let self :=
                if Nat.ltb 1 sl
                then set_by_ids_cache
                       (set_id_offset self (id_offset self + Z.of_nat bs)) None
                else self in
              (self, log, retrieve_return r bs nh sl d)
          end
      end
  | _ => (self, [], Raise ValueError)
  end.

(** The one-slot cache holds nothing, or what a lookup by ids under the
    configured [topk] returned. *)
Definition cache_from_config (self : t) : Prop :=
  match by_ids_cache self with
  | None => True
  | Some cached =>
      exists ids_ : T1 Z,
        MemTransDatastore.get_knns_by_ids strided_lookup3 strided_lookup1
          (dstore self) ids_ (topk self) (skip_first_token self) (is_track self)
        = Ok cached
  end.


End Defs.
End MemTransAttn.

(** ** The host attention layer and the fused attention *)

Module T5Attention.
Section Defs.
Context {F Index : Type}.

(** what the code reads of the host's attention layer *)
Record t : Type := mk {
  n_heads : nat;
  key_value_proj_dim : nat;
  inner_dim : nat;
  is_decoder : bool;
  has_relative_attention_bias : bool;
  dropout : F;
  training : bool;
  (* [compute_bias(query_length, key_length)]: (1, n_heads, query_length, key_length) *)
  compute_bias : Z -> Z -> T4 F;
  (* the linear layers *)
  q : T3 F -> T3 F;
  k : T3 F -> T3 F;
  v : T3 F -> T3 F;
  o : T3 F -> T3 F;
  mta : @MemTransAttn.t F Index
}.

Definition set_mta (self : t) (m : @MemTransAttn.t F Index) : t :=
  mk (n_heads self) (key_value_proj_dim self) (inner_dim self) (is_decoder self)
     (has_relative_attention_bias self) (dropout self) (training self)
     (compute_bias self) (q self) (k self) (v self) (o self) m.

End Defs.
End T5Attention.

Section Attention.
Context {F Index : Type}.
Variable torch : Torch F.
Variable astype_float32 : F -> F.
Variable index_search : Index -> T2 F -> Z -> T2 Z.
Variable fzero : F.
Variable strided_lookup3 : T3 F -> T1 Z -> T1 Z -> result (T4 F).
Variable strided_lookup1 : T1 Z -> T1 Z -> T1 Z -> result (T2 Z).

Local Abbreviation layer := (@T5Attention.t F Index).
Local Abbreviation mem_attn := (@MemTransAttn.t F Index).

Definition update_mask_and_position_bias (ori_attn : layer) (mask : option (T4 F))
  (seq_length : nat) (real_seq_length key_length : Z) (topk : nat) : result (T4 F) :=
  (* extend the mask *)
  mask <- match mask with
          | Some m =>
              match shape m with
              | [a; b; c; _] =>
                  m' <- cat3 (zeros4 fzero a b c topk) m ;; Ok (Some m')
              | _ => Raise RuntimeError
              end
          | None => Ok None
          end ;;
  (* update relative positions *)
  let position_bias :=
    T5Attention.compute_bias ori_attn
      (Z.of_nat topk + real_seq_length) (Z.of_nat topk + key_length) in
  let position_bias := last_dim2 position_bias (Z.of_nat seq_length) in
  match mask with
  | Some m => add torch position_bias m
  | None => Ok position_bias
  end.

(** [states.transpose(1, 2).contiguous().view(bs, sl, -1)] *)
Definition unshape (states : T4 F) : result (T3 F) :=
  match shape states with
  | [bs; nh; sl; d] =>
      Ok (mkTensor [bs; sl; (nh * d)%nat]
            (map (fun per_example => map (@concat F) (transpose sl per_example))
                 (elems states)))
  | _ => Raise ValueError
  end.

Definition init_position_bias (ori_attn : layer) (past_key_value : option (T4 F * T4 F))
  (mask : option (T4 F)) (real_seq_length key_length : Z) (seq_length : nat)
  : result (T4 F) :=
  let position_bias :=
    if negb (T5Attention.has_relative_attention_bias ori_attn)
    then zeros4 fzero 1 (T5Attention.n_heads ori_attn)
           (Z.to_nat real_seq_length) (Z.to_nat key_length)
    else T5Attention.compute_bias ori_attn real_seq_length key_length in
  (* if key and values are already calculated
     we want only the last query position bias *)
  let position_bias :=
    match past_key_value with
    | Some _ => last_dim2 position_bias (Z.of_nat seq_length)
    | None => position_bias
    end in
  match mask with
  | Some m => add torch position_bias m
  | None => Ok position_bias
  end.

Definition original_attn (ori_attn : layer)
  (query_states key_states value_states : T4 F)
  (past_key_value : option (T4 F * T4 F)) (position_bias mask : option (T4 F))
  (layer_head_mask : option (T1 F)) (real_seq_length key_length : Z)
  : result (T4 F * T3 F * T4 F) :=
  (* compute scores *)
  scores <- matmul torch query_states (transpose_3_2 key_states) ;;
  position_bias <-
    match position_bias with
    | Some pb => Ok pb
    | None =>
        sl <- size_at query_states 2 ;;
        init_position_bias ori_attn past_key_value mask real_seq_length key_length sl
    end ;;
  scores <- add torch scores position_bias ;;
  let attn_weights := softmax torch scores in
  let attn_weights :=
    dropout torch attn_weights (T5Attention.dropout ori_attn) (T5Attention.training ori_attn) in
  (* Mask heads if we want to *)
  attn_weights <- match layer_head_mask with
                  | Some m => mul_head_mask torch attn_weights m
                  | None => Ok attn_weights
                  end ;;
  weighted <- matmul torch attn_weights value_states ;;
  attn_output <- unshape weighted ;;
  let attn_output := T5Attention.o ori_attn attn_output in
  Ok (attn_weights, attn_output, position_bias).

(** [t.size(-2)] *)
Definition size_neg2 {E : Type} (x : Tensor E) : result nat :=
  match rev (shape x) with
  | _ :: n :: _ => Ok n
  | _ => Raise IndexError
  end.

Definition attn (self : mem_attn) (ori_attn : layer)
  (query_states key_states value_states : T4 F) (ret_ks ret_vs : T5 F)
  (mask : option (T4 F)) (layer_head_mask : option (T1 F))
  (real_seq_length key_length : Z) : result (T4 F * T3 F) :=
  match layer_head_mask with
  | Some _ => Raise NotImplementedError
  | None =>
      match shape query_states with
      | [bs; nh; sl; d] =>
          kl <- size_at key_states 2 ;;
          topk <- size_neg2 ret_ks ;;
          if Nat.ltb 1 sl then  (* multiple tokens per example in the query_states *)
            _ <- assert (Nat.eqb sl kl && (Z.of_nat kl =? real_seq_length)
                         && (real_seq_length =? key_length)) ;;
            (* compute the original scores over local context *)
            scores <- matmul torch query_states (transpose_3_2 key_states) ;;
            (* compute the extended scores over the retrieved context *)
            _scores <- einsum_bnqd_bnqkd torch query_states ret_ks ;;
            (* combine scores *)
            scores <- cat3 _scores scores ;;
            (* apply bias *)
            position_bias <- update_mask_and_position_bias ori_attn mask sl
                               real_seq_length key_length topk ;;
            scores <- add torch scores position_bias ;;
            (* compute attn distribution *)
            let attn_weights := softmax torch scores in
            let attn_weights :=
              dropout torch attn_weights (T5Attention.dropout ori_attn)
                (T5Attention.training ori_attn) in
            (* compute output *)
            attn_output <- matmul torch (last_dim3 attn_weights (Z.of_nat kl)) value_states ;;
            extra <- einsum_bnqk_bnqkd torch (to_dim3 attn_weights (Z.of_nat topk)) ret_vs ;;
            attn_output <- add torch attn_output extra ;;
            attn_output <- unshape attn_output ;;
            Ok (attn_weights, T5Attention.o ori_attn attn_output)
          else
            _ <- assert (Nat.eqb sl 1) ;;
            rk2 <- size_at ret_ks 2 ;;
            rv2 <- size_at ret_vs 2 ;;
            _ <- assert (Nat.eqb rk2 rv2 && Nat.eqb rv2 sl) ;;
            _ <- assert (real_seq_length =? key_length) ;;
            (* prepend retrieved keys and values *)
            rk <- squeeze2 ret_ks ;;
            rv <- squeeze2 ret_vs ;;
            kv <- (if MemTransAttn.add_after_first self && (key_length >? 1) then
                     (* always need to prepend for the first position *)
                     k1 <- cat2 (to_dim2 key_states 1) rk ;;
                     k2 <- cat2 k1 (from_dim2 key_states 1) ;;
                     v1 <- cat2 (to_dim2 value_states 1) rv ;;
                     v2 <- cat2 v1 (from_dim2 value_states 1) ;;
                     Ok (k2, v2)
                   else
                     k2 <- cat2 rk key_states ;;
                     v2 <- cat2 rv value_states ;;
                     Ok (k2, v2)) ;;
            let '(key_states, value_states) := kv in
            (* compute attn scores *)
            scores <- matmul torch query_states (transpose_3_2 key_states) ;;
            (* apply bias *)
            position_bias <- update_mask_and_position_bias ori_attn mask sl
                               real_seq_length key_length topk ;;
            scores <- add torch scores position_bias ;;
            (* compute attn distribution *)
            let attn_weights := softmax torch scores in
            let attn_weights :=
              dropout torch attn_weights (T5Attention.dropout ori_attn)
                (T5Attention.training ori_attn) in
            (* compute output *)
            weighted <- matmul torch attn_weights value_states ;;
            attn_output <- unshape weighted ;;
            Ok (attn_weights, T5Attention.o ori_attn attn_output)
      | _ => Raise ValueError
      end
  end.

(** *** [t5attetnion_forward] *)

Record outputs : Type := mk_outputs {
  attn_output : T3 F;
  present_key_value_state : option (T4 F * T4 F);
  position_bias : T4 F;
  attn_weights : option (T4 F)   (* when [output_attentions] *)
}.

(** [real_seq_length] and [key_length] as the forward pass computes them *)
Definition real_seq_length_of (seq_length : nat)
  (past_key_value : option (T4 F * T4 F)) (query_length : option Z) : result Z :=
  match past_key_value with
  | None => Ok (Z.of_nat seq_length)
  | Some (past_k, _) =>
      match query_length with
      | None => p <- size_at past_k 2 ;; Ok (Z.of_nat seq_length + Z.of_nat p)
      | Some ql => Ok (Z.of_nat seq_length + ql)
      end
  end.

Definition key_length_of (real_seq_length : Z) (key_value_states : option (T3 F))
  : result Z :=
  match key_value_states with
  | None => Ok real_seq_length
  | Some kvs => n <- size_at kvs 1 ;; Ok (Z.of_nat n)
  end.

(** [shape(states)]: the projection
    [states.view(batch_size, -1, n_heads, key_value_proj_dim).transpose(1, 2)],
    for states of shape (batch_size, length, n_heads * key_value_proj_dim) *)
Definition shape_states (self : layer) (batch_size : nat) (states : T3 F)
  : result (T4 F) :=
  let nh := T5Attention.n_heads self in
  let d := T5Attention.key_value_proj_dim self in
  match shape states with
  | [b; s; inner] =>
      if Nat.eqb b batch_size && Nat.eqb inner (nh * d)
      then Ok (permute_021 (mkTensor [b; s; nh; d] (map (map (chunks d nh)) (elems states))))
      else Raise RuntimeError
  | _ => Raise RuntimeError
  end.

(** [project]: projects hidden states correctly to key/query states *)
Definition project (self : layer) (batch_size : nat) (hidden_states : T3 F)
  (proj_layer : T3 F -> T3 F) (key_value_states : option (T3 F))
  (past_key_value : option (T4 F)) : result (T4 F) :=
  match key_value_states, past_key_value with
  | None, None =>  (* self-attn *)
      shape_states self batch_size (proj_layer hidden_states)
  | None, Some past =>
      hs <- shape_states self batch_size (proj_layer hidden_states) ;;
      cat2 past hs
  | Some kvs, None =>  (* cross-attn *)
      shape_states self batch_size (proj_layer kvs)
  | Some _, Some past => Ok past
  end.

Definition t5attetnion_forward (self : layer) (hidden_states : T3 F)
  (mask : option (T4 F)) (key_value_states : option (T3 F))
  (position_bias_in : option (T4 F)) (past_key_value : option (T4 F * T4 F))
  (layer_head_mask : option (T1 F)) (query_length : option Z)
  (use_cache output_attentions : bool) : layer * result outputs :=
  match shape hidden_states with
  | batch_size :: seq_length :: _ =>
      match (real_seq_length <- real_seq_length_of seq_length past_key_value query_length ;;
             key_length <- key_length_of real_seq_length key_value_states ;;
             (* get query states *)
             query_states <- shape_states self batch_size (T5Attention.q self hidden_states) ;;
             (* get key/value states *)
             key_states <- project self batch_size hidden_states (T5Attention.k self)
                             key_value_states (option_map fst past_key_value) ;;
             value_states <- project self batch_size hidden_states (T5Attention.v self)
                               key_value_states (option_map snd past_key_value) ;;
             Ok (real_seq_length, key_length, query_states, key_states, value_states)) with
      | Raise e => (self, Raise e)
      | Ok (real_seq_length, key_length, query_states, key_states, value_states) =>
          let present :=
            if T5Attention.is_decoder self && use_cache
            then Some (key_states, value_states) else None in
          let pack w out pb :=
            mk_outputs out present pb (if output_attentions then Some w else None) in
          match MemTransAttn.stage (T5Attention.mta self) with
          | MemTransAttn.stage_save =>
              let '(m, saved) :=
                MemTransAttn.save astype_float32 (T5Attention.mta self)
                  key_states value_states in
              let self := T5Attention.set_mta self m in
              match saved with
              | Raise e => (self, Raise e)
              | Ok _ =>
                  (self,
                   r <- original_attn self query_states key_states value_states
                          past_key_value position_bias_in mask layer_head_mask
                          real_seq_length key_length ;;
                   let '(w, out, pb) := r in Ok (pack w out pb))
              end
          | MemTransAttn.stage_retrieve =>
              let '(m, _, found) :=
                MemTransAttn.retrieve index_search fzero strided_lookup3 strided_lookup1
                  (T5Attention.mta self) query_states key_length None in
              let self := T5Attention.set_mta self m in
              match found with
              | Raise e => (self, Raise e)
              | Ok (ret_ks, ret_vs) =>
                  (self,
                   (* init position_bias in the first layer which is reused in
                      following layers *)
                   pb <- match position_bias_in with
                         | Some pb => Ok pb
                         | None =>
                             init_position_bias self past_key_value mask
                               real_seq_length key_length seq_length
                         end ;;
                   r <- attn (T5Attention.mta self) self
                          query_states key_states value_states ret_ks ret_vs
                          mask layer_head_mask real_seq_length key_length ;;
                   let '(w, out) := r in Ok (pack w out pb))
              end
          | MemTransAttn.stage_other _ =>  (* original code *)
              (self,
               r <- original_attn self query_states key_states value_states
                      past_key_value position_bias_in mask layer_head_mask
                      real_seq_length key_length ;;
               let '(w, out, pb) := r in Ok (pack w out pb))
          end
      end
  | _ => (self, Raise ValueError)
  end.


End Attention.

(** ** Sample data *)

Module Samples.

(** a fresh store for one head, three slots, vectors of one component *)
Definition store3 : @MemTransDatastore.t Z unit :=
  MemTransDatastore.mk 3 1 1 0 MemTransDatastore.mode_w_plus
    (mkTensor [1; 3; 1]%nat [[[0]; [0]; [0]]])
    (mkTensor [1; 3; 1]%nat [[[0]; [0]; [0]]])
    (Some (mkTensor [3]%nat [0; 0; 0]))
    (Some (mkTensor [3]%nat [0; 0; 0]))
    None None None None None None.

Definition batch2 (a b : Z) : @MemTransDatastore.call Z :=
  (mkTensor [1; 2; 1]%nat [[[a]; [b]]], mkTensor [1; 2; 1]%nat [[[a + 100]; [b + 100]]],
   Some (mkTensor [2]%nat [a; b]), Some (mkTensor [2]%nat [0; 0])).

Definition batch1 (a : Z) : @MemTransDatastore.call Z :=
  (mkTensor [1; 1; 1]%nat [[[a]]], mkTensor [1; 1; 1]%nat [[[a + 100]]],
   Some (mkTensor [1]%nat [a]), Some (mkTensor [1]%nat [1])).

Definition appends : list (@MemTransDatastore.call Z) :=
  [batch2 11 12; batch2 13 14; batch1 15].

(** queries for one head, a batch of two, vectors of one component *)
Definition queries2 : T3 Z := mkTensor [1; 2; 1]%nat [[[7]; [8]]].

(** an index that answers every search with row 0 *)
Definition search0 (_ : unit) (q : T2 Z) (topk : Z) : T2 Z :=
  mkTensor [hd 0%nat (shape q); Z.to_nat topk]
    (map (fun _ => repeat 0 (Z.to_nat topk)) (elems q)).

(** a tracker with end-of-sequence token 1 and nothing buffered *)
Definition tracker0 : RetrievalTracker.t :=
  RetrievalTracker.mk None 1 2 1 [] [] [] [].

(** one decode step of a batch of one row, one head: the prediction and the
    retrieved (token, id) pairs *)
Definition step (pred : Z) (toks ids_ : list Z) : T1 Z * T3 Z * T3 Z :=
  (mkTensor [1%nat] [pred],
   mkTensor [1%nat; 1%nat; length toks] [[toks]],
   mkTensor [1%nat; 1%nat; length ids_] [[ids_]]).

Fixpoint record_steps (self : RetrievalTracker.t) (steps : list (T1 Z * T3 Z * T3 Z))
  : RetrievalTracker.t :=
  match steps with
  | [] => self
  | (p, rt, ri) :: rest =>
      record_steps (fst (RetrievalTracker.add_single_step_batched self p rt ri)) rest
  end.

(** predictions 5, 7 and then the end-of-sequence token *)
Definition tracker_5_7_eos : RetrievalTracker.t :=
  record_steps tracker0
    [step 5 [41; 42] [0; 0]; step 7 [43; 44] [0; 1]; step 1 [45; 46] [1; 1]].


End Samples.

(** ** Sample data for the attention layer *)

Module AttnSamples.

(** *** An integer stand-in for the numeric operations *)

Definition dot (a b : list Z) : Z := fold_right Z.add 0 (map2 Z.mul a b).

Definition mat_mul (n : nat) (a b : list (list Z)) : list (list Z) :=
  map (fun row => map (fun col => dot row col) (transpose n b)) a.

Definition matmulZ (a b : T4 Z) : result (T4 Z) :=
  match shape a, shape b with
  | [a0; a1; m; k], [b0; b1; k'; n] =>
      if Nat.eqb a0 b0 && Nat.eqb a1 b1 && Nat.eqb k k'
      then Ok (mkTensor [a0; a1; m; n] (map2 (map2 (mat_mul n)) (elems a) (elems b)))
      else Raise RuntimeError
  | _, _ => Raise RuntimeError
  end.

(** broadcasting: a dimension of size 1 is stretched *)
Definition stretch {A : Type} (n : nat) (l : list A) : list A :=
  match l with
  | [x] => repeat x n
  | _ => l
  end.

Definition broadcast2 {A : Type} (f : A -> A -> A) (x y : list A) : list A :=
  let n := Nat.max (length x) (length y) in
  map2 f (stretch n x) (stretch n y).

Definition broadcast_dim (a b : nat) : option nat :=
  if Nat.eqb a b then Some a
  else if Nat.eqb a 1 then Some b
  else if Nat.eqb b 1 then Some a
  else None.

Definition addZ (a b : T4 Z) : result (T4 Z) :=
  match shape a, shape b with
  | [a0; a1; a2; a3], [b0; b1; b2; b3] =>
      match broadcast_dim a0 b0, broadcast_dim a1 b1,
            broadcast_dim a2 b2, broadcast_dim a3 b3 with
      | Some c0, Some c1, Some c2, Some c3 =>
          Ok (mkTensor [c0; c1; c2; c3]
                (broadcast2 (broadcast2 (broadcast2 (broadcast2 Z.add)))
                   (elems a) (elems b)))
      | _, _, _, _ => Raise RuntimeError
      end
  | _, _ => Raise RuntimeError
  end.

Definition torchZ : Torch Z :=
  mkTorch Z matmulZ addZ
    (fun x => x)          (* stands in for the softmax *)
    (fun x _ => x)        (* no entry is dropped *)
    (fun w m =>
       Ok (mkTensor (shape w)
             (map (fun per => map2 (fun h x => map (map (Z.mul h)) x) (elems m) per)
                  (elems w))))
    (fun q ks =>
       Ok (mkTensor (firstn 4 (shape ks))
             (map2 (map2 (map2 (fun qv keys => map (dot qv) keys))) (elems q) (elems ks))))
    (fun w vs =>
       Ok (mkTensor (firstn 3 (shape vs) ++ skipn 4 (shape vs))
             (map2 (map2 (map2 (fun wv vals =>
                                  map (fun col => dot wv col)
                                      (transpose (nth 4 (shape vs) 0%nat) vals))))
                   (elems w) (elems vs)))).

(** Modelled from the spec: [StridedTensor.lookup] of the utils module,
    which the sources do not include. For each id of the batch it gathers
    the contiguous span of that id and right-pads the spans with zeros to
    the longest one. *)
Definition span_of {A : Type} (packed : list A) (lengths_ : list Z) (id : Z)
  : result (list A) :=
  len <- getitem lengths_ id ;;
  let start := fold_right Z.add 0 (slice_to lengths_ id) in
  if id <? 0 then Raise IndexError else Ok (slice packed start (start + len)).

Definition pad_to {A : Type} (z : A) (n : nat) (l : list A) : list A :=
  l ++ repeat z (n - length l).

Definition lookup_padded {A : Type} (z : A) (packed : list A) (lengths_ ids_ : list Z)
  : result (list (list A)) :=
  spans <- mapM (span_of packed lengths_) ids_ ;;
  let longest := fold_right Nat.max 0%nat (map (@length A) spans) in
  Ok (map (pad_to z longest) spans).

Definition strided_lookup3 (packed : T3 Z) (lengths_ ids_ : T1 Z) : result (T4 Z) :=
  let nh := nth 1 (shape packed) 0%nat in
  let d := nth 2 (shape packed) 0%nat in
  rows <- lookup_padded (repeat (repeat 0 d) nh) (elems packed) (elems lengths_) (elems ids_) ;;
  Ok (mkTensor [length rows; length (hd [] rows); nh; d] rows).

Definition strided_lookup1 (packed : T1 Z) (lengths_ ids_ : T1 Z) : result (T2 Z) :=
  rows <- lookup_padded 0 (elems packed) (elems lengths_) (elems ids_) ;;
  Ok (mkTensor [length rows; length (hd [] rows)] rows).

(** *** A datastore with three entries and its loaded index *)

Definition store_full : @MemTransDatastore.t Z unit :=
  last (MemTransDatastore.run (fun x => x) Samples.store3 Samples.appends) Samples.store3.

Definition store_loaded : @MemTransDatastore.t Z unit :=
  fst (MemTransDatastore.load_index (fun _ => Ok tt) store_full true).

(** the labels of a batch of one row with two positions, the second one
    masked out *)
Definition store_labelled : @MemTransDatastore.t Z unit :=
  MemTransDatastore.save_labels Samples.store3
    (Some (mkTensor [1; 2]%nat [[5; -100]])) (Some (mkTensor [1; 2]%nat [[0; 5]])).

Definition mta_save : @MemTransAttn.t Z unit :=
  MemTransAttn.mk store_labelled 1 MemTransAttn.stage_save false None false None 0 0
    false false.

(** retrieval by similarity, the first two decode steps skipped *)
Definition mta_skip2 : @MemTransAttn.t Z unit :=
  MemTransAttn.mk store_loaded 1 MemTransAttn.stage_retrieve false None false None 0 2
    false false.

(** retrieval by ids *)
Definition mta_by_ids : @MemTransAttn.t Z unit :=
  MemTransAttn.mk store_loaded 1 MemTransAttn.stage_retrieve false None true None 0 2
    false false.

Definition retrieve_ :=
  MemTransAttn.retrieve (F := Z) (Index := unit) Samples.search0 0
    strided_lookup3 strided_lookup1.

(** a query of one row, one head, one position *)
Definition query1 : T4 Z := mkTensor [1; 1; 1; 1]%nat [[[[1]]]].

(** [mta_by_ids] after the third decode step: the cache is filled *)
Definition mta_cached : @MemTransAttn.t Z unit := fst (fst (retrieve_ mta_by_ids query1 3 None)).

(** *** A layer *)

Definition relative_bias (q_len k_len : Z) : T4 Z :=
  mkTensor [1%nat; 1%nat; Z.to_nat q_len; Z.to_nat k_len]
    [[map (fun i => map (fun j => Z.of_nat j - Z.of_nat i) (seq 0 (Z.to_nat k_len)))
          (seq 0 (Z.to_nat q_len))]].

Definition layer_of (m : @MemTransAttn.t Z unit) : @T5Attention.t Z unit :=
  T5Attention.mk 1 1 1 true true 0 false relative_bias
    (fun x => x) (fun x => x) (fun x => x) (fun x => x) m.

Definition forward_ :=
  t5attetnion_forward (F := Z) (Index := unit) torchZ (fun x => x) Samples.search0 0
    strided_lookup3 strided_lookup1.

(** the second decode step: one cached position, one new one *)
Definition hidden1 : T3 Z := mkTensor [1; 1; 1]%nat [[[5]]].
Definition past1 : T4 Z * T4 Z :=
  (mkTensor [1; 1; 1; 1]%nat [[[[2]]]], mkTensor [1; 1; 1; 1]%nat [[[[3]]]]).

(** local keys and values of two positions, and retrieved tensors of
    top-k width 0 *)
Definition keys2 : T4 Z := mkTensor [1; 1; 2; 1]%nat [[[[2]; [5]]]].
Definition values2 : T4 Z := mkTensor [1; 1; 2; 1]%nat [[[[3]; [5]]]].
Definition none_retrieved : T5 Z := mkTensor [1; 1; 1; 0; 1]%nat [[[[]]]].

End AttnSamples.

(** ** Id sequences of consecutive examples

    The layout [load_index] expects of the id array, written out so that
    properties of [build_offset] can be stated against it. *)

Module Spans.

(** the ids of examples [j], [j + 1], ... that hold [lens] entries each *)
Fixpoint blocks (j : Z) (lens : list nat) : list Z :=
  match lens with
  | [] => []
  | n :: rest => repeat j n ++ blocks (j + 1) rest
  end.

(** where each of these examples starts and ends when the first one starts
    at position [i] *)
Fixpoint starts (i : Z) (lens : list nat) : list Z :=
  match lens with
  | [] => []
  | n :: rest => i :: starts (i + Z.of_nat n) rest
  end.

Fixpoint ends (i : Z) (lens : list nat) : list Z :=
  match lens with
  | [] => []
  | n :: rest => (i + Z.of_nat n) :: ends (i + Z.of_nat n) rest
  end.

End Spans.

(** ** More sample data *)

Module MoreSamples.

(** [Samples.store3] opened read-only *)
Definition store3_r : @MemTransDatastore.t Z unit :=
  MemTransDatastore.mk 3 1 1 0 MemTransDatastore.mode_r
    (mkTensor [1; 3; 1]%nat [[[0]; [0]; [0]]])
    (mkTensor [1; 3; 1]%nat [[[0]; [0]; [0]]])
    (Some (mkTensor [3]%nat [0; 0; 0]))
    (Some (mkTensor [3]%nat [0; 0; 0]))
    None None None None None None.

(** [Samples.store3] after two entries were appended *)
Definition store3_two : @MemTransDatastore.t Z unit :=
  fst (MemTransDatastore.apply_call (fun x => x) Samples.store3 (Samples.batch2 11 12)).

(** a query of one row, one head, two positions: a multi-token call *)
Definition query2 : T4 Z := mkTensor [1; 1; 2; 1]%nat [[[[1]; [2]]]].

(** hidden states of one row with two positions *)
Definition hidden2 : T3 Z := mkTensor [1; 2; 1]%nat [[[5]; [6]]].

(** [AttnSamples.mta_save] in a stage that is neither 'save' nor 'retrieve' *)
Definition mta_other : @MemTransAttn.t Z unit :=
  MemTransAttn.mk AttnSamples.store_labelled 1 (MemTransAttn.stage_other "none")
    false None false None 0 0 false false.

(** a layer of two heads, and states for it: one row, two positions *)
Definition layer_heads2 : @T5Attention.t Z unit :=
  T5Attention.mk 2 1 2 true true 0 false AttnSamples.relative_bias
    (fun x => x) (fun x => x) (fun x => x) (fun x => x) AttnSamples.mta_skip2.

Definition states22 : T3 Z := mkTensor [1; 2; 2]%nat [[[1; 2]; [3; 4]]].

(** a flat index that keeps the rows it is given; where the files are *)
Definition flat_add (index : list (list Z)) (batch : T2 Z) : list (list Z) :=
  index ++ elems batch.

Definition build_index_ :=
  MemTransDatastore.build_index (F := Z) (Index := list (list Z)) (fun x => x)
    (fun _ => []) (fun _ => true) (fun index _ => index) flat_add.

Definition loc0 : MemTransDatastore.location :=
  MemTransDatastore.mk_location "dstore/layer-6" "t5".

(** [AttnSamples.store_full] for this kind of index *)
Definition store_full : @MemTransDatastore.t Z (list (list Z)) :=
  last (MemTransDatastore.run (fun x => x)
          (MemTransDatastore.mk 3 1 1 0 MemTransDatastore.mode_w_plus
             (mkTensor [1; 3; 1]%nat [[[0]; [0]; [0]]])
             (mkTensor [1; 3; 1]%nat [[[0]; [0]; [0]]])
             (Some (mkTensor [3]%nat [0; 0; 0]))
             (Some (mkTensor [3]%nat [0; 0; 0]))
             None None None None None None)
          Samples.appends)
    (MemTransDatastore.mk 3 1 1 0 MemTransDatastore.mode_w_plus
       (mkTensor [1; 3; 1]%nat [[[0]; [0]; [0]]])
       (mkTensor [1; 3; 1]%nat [[[0]; [0]; [0]]])
       (Some (mkTensor [3]%nat [0; 0; 0]))
       (Some (mkTensor [3]%nat [0; 0; 0]))
       None None None None None None).

(** a file system in which every file exists and maps to zeros *)
Definition init_ :=
  MemTransDatastore.init (F := Z) (Index := list (list Z))
    (fun dir _ _ _ => (dir ++ "/dstore")%string)
    (fun _ => true)
    (fun _ _ shape_ =>
       let '(nh, sz, dim) := shape_ in
       Ok (zeros3 0 (Z.to_nat nh) (Z.to_nat sz) (Z.to_nat dim)))
    (fun _ _ sz => Ok (mkTensor [Z.to_nat sz] (repeat 0 (Z.to_nat sz)))).

End MoreSamples.

(** ** The track file, line by line

    What [RetrievalTracker.write] is to emit for the buffered steps, written
    out so that the output of [write] can be stated against it. *)

Module TrackerFormat.

(** the steps of one batch row up to the first one that predicts [eos] *)
Fixpoint until_eos (eos : Z) (steps : list (list Z)) : list (list Z) :=
  match steps with
  | [] => []
  | s :: rest => if hd 0 s =? eos then [] else s :: until_eos eos rest
  end.

(** the numbers of batch row [i] at one step: the prediction, then for
    every head and every retrieved neighbour its token and its id *)
Definition step_line (i : nat) (step : T1 Z * T3 Z * T3 Z) : list Z :=
  let '(p, t, d) := step in
  nth i (elems p) 0 :: RetrievalTracker.interleave (nth i (elems t) []) (nth i (elems d) []).

(** row by row: one line per step before the end of the prediction, then an
    empty line *)
Definition lines (eos : Z) (bs : nat) (steps : list (T1 Z * T3 Z * T3 Z)) : list string :=
  flat_map (fun i => map join_line (until_eos eos (map (step_line i) steps)) ++ [newline])
    (seq 0 bs).

End TrackerFormat.

(** * Properties *)

Ltac split_andb :=
  repeat match goal with
  | H : _ && _ = true |- _ => apply andb_prop in H; destruct H
  end.

Ltac case_match :=
  match goal with
  | |- context [match ?x with _ => _ end] => destruct x eqn:?
  end.

Ltac inv_bind H :=
  match type of H with
  | bind ?c _ = Ok _ =>
      let E := fresh "E" in
      destruct c eqn:E; simpl in H; [ | discriminate H ]
  end.

Lemma shape_eqb_eq (a b : list nat) : shape_eqb a b = true <-> a = b.
Proof.
  revert b; induction a as [|x a IH]; intros [|y b]; simpl; split; intros H;
    try reflexivity; try discriminate.
  - apply andb_prop in H. destruct H as [Hx Hr].
    apply Nat.eqb_eq in Hx. apply IH in Hr. congruence.
  - injection H as -> ->. rewrite Nat.eqb_refl. simpl. now apply IH.
Qed.

Lemma assert_ok (b : bool) (u : unit) : assert b = Ok u -> b = true.
Proof. destruct b; simpl; [reflexivity | discriminate]. Qed.

Lemma slice_bound_nonneg (len : nat) (i : Z) :
  0 <= i -> slice_bound len i = Nat.min (Z.to_nat i) len.
Proof.
  intros Hi. unfold slice_bound.
  destruct (i <? 0) eqn:E; [apply Z.ltb_lt in E; lia | reflexivity].
Qed.

Lemma slice_bound_le (len : nat) (i : Z) : (slice_bound len i <= len)%nat.
Proof.
  unfold slice_bound. destruct (i <? 0) eqn:E; [apply Z.ltb_lt in E | ]; lia.
Qed.

Lemma slice_bound_in (len : nat) (i : Z) :
  0 <= i <= Z.of_nat len -> slice_bound len i = Z.to_nat i.
Proof. intros Hi. rewrite slice_bound_nonneg by lia. lia. Qed.

Section WriteRows.
Context {A : Type}.

Lemma write_rows_length (dst src : list A) (s : nat) :
  (s + length src <= length dst)%nat ->
  length (MemTransDatastore.write_rows dst s src) = length dst.
Proof.
  intros H. unfold MemTransDatastore.write_rows.
  rewrite !length_app, length_firstn, length_skipn. lia.
Qed.

Lemma write_rows_nil (dst : list A) (s : nat) :
  MemTransDatastore.write_rows dst s [] = dst.
Proof.
  unfold MemTransDatastore.write_rows. simpl.
  rewrite Nat.add_0_r. apply firstn_skipn.
Qed.

Lemma write_rows_prefix (dst src : list A) (s : nat) :
  (s <= length dst)%nat ->
  firstn s (MemTransDatastore.write_rows dst s src) = firstn s dst.
Proof.
  intros H. unfold MemTransDatastore.write_rows.
  rewrite firstn_app, length_firstn.
  replace (s - Nat.min s (length dst))%nat with 0%nat by lia.
  simpl. rewrite app_nil_r. rewrite firstn_firstn. f_equal. lia.
Qed.

Lemma write_rows_suffix (dst src : list A) (s : nat) :
  (s + length src <= length dst)%nat ->
  skipn (s + length src) (MemTransDatastore.write_rows dst s src)
  = skipn (s + length src) dst.
Proof.
  intros H. unfold MemTransDatastore.write_rows.
  rewrite app_assoc. rewrite skipn_app.
  rewrite length_app, length_firstn.
  replace (Nat.min s (length dst)) with s by lia.
  rewrite Nat.sub_diag. simpl.
  rewrite skipn_all2; [reflexivity | ].
  rewrite length_app, length_firstn. lia.
Qed.

Lemma write_rows_slice (dst src : list A) (s : nat) :
  (s + length src <= length dst)%nat ->
  slice (MemTransDatastore.write_rows dst s src)
        (Z.of_nat s) (Z.of_nat s + Z.of_nat (length src)) = src.
Proof.
  intros H. unfold slice. rewrite write_rows_length by exact H.
  rewrite !slice_bound_in by lia.
  replace (Z.to_nat (Z.of_nat s + Z.of_nat (length src)) - Z.to_nat (Z.of_nat s))%nat
    with (length src) by lia.
  rewrite Nat2Z.id. unfold MemTransDatastore.write_rows.
  rewrite skipn_app, length_firstn.
  replace (Nat.min s (length dst)) with s by lia.
  rewrite Nat.sub_diag. simpl.
  rewrite skipn_all2 by (rewrite length_firstn; lia). simpl.
  rewrite firstn_app, Nat.sub_diag. simpl.
  rewrite firstn_all. apply app_nil_r.
Qed.

End WriteRows.

Section ListHelpers.
Context {A B C : Type}.

Lemma forallb_firstn (p : A -> bool) (l : list A) (n : nat) :
  forallb p l = true -> forallb p (firstn n l) = true.
Proof.
  revert n; induction l as [|x l IH]; intros [|n] H; simpl in *; try reflexivity.
  apply andb_prop in H. destruct H as [Hx Hl]. rewrite Hx. simpl. now apply IH.
Qed.

Lemma forallb_skipn (p : A -> bool) (l : list A) (n : nat) :
  forallb p l = true -> forallb p (skipn n l) = true.
Proof.
  revert n; induction l as [|x l IH]; intros [|n] H; simpl in *; try reflexivity.
  - exact H.
  - apply andb_prop in H. destruct H as [_ Hl]. now apply IH.
Qed.

Lemma map2_length (f : A -> B -> C) (l : list A) (m : list B) :
  length (map2 f l m) = Nat.min (length l) (length m).
Proof.
  revert m; induction l as [|a l IH]; intros [|b m]; simpl; try reflexivity.
  now rewrite IH.
Qed.

Lemma forallb_map2 (f : A -> B -> C) (p : A -> bool) (q : B -> bool) (r : C -> bool)
  (l : list A) (m : list B) :
  (forall a b, p a = true -> q b = true -> r (f a b) = true) ->
  forallb p l = true -> forallb q m = true -> forallb r (map2 f l m) = true.
Proof.
  intros Hf. revert m; induction l as [|a l IH]; intros [|b m] Hl Hm; simpl in *;
    try reflexivity.
  apply andb_prop in Hl. apply andb_prop in Hm.
  destruct Hl as [Ha Hl]. destruct Hm as [Hb Hm].
  rewrite (Hf a b Ha Hb). simpl. now apply IH.
Qed.

Lemma map2_fst_id (f : A -> B -> A) (q : B -> bool) (l : list A) (m : list B) :
  (forall a b, q b = true -> f a b = a) ->
  length l = length m -> forallb q m = true -> map2 f l m = l.
Proof.
  intros Hf. revert m; induction l as [|a l IH]; intros [|b m] Hlen Hm; simpl in *;
    try reflexivity; try discriminate.
  apply andb_prop in Hm. destruct Hm as [Hb Hm].
  rewrite (Hf a b Hb). f_equal. apply IH; [lia | exact Hm].
Qed.

Lemma map_map2_snd (f : A -> B -> C) (g : C -> B) (p : A -> bool) (q : B -> bool)
  (l : list A) (m : list B) :
  (forall a b, p a = true -> q b = true -> g (f a b) = b) ->
  length l = length m -> forallb p l = true -> forallb q m = true ->
  map g (map2 f l m) = m.
Proof.
  intros Hf. revert m; induction l as [|a l IH]; intros [|b m] Hlen Hl Hm; simpl in *;
    try reflexivity; try discriminate.
  apply andb_prop in Hl. apply andb_prop in Hm.
  destruct Hl as [Ha Hl]. destruct Hm as [Hb Hm].
  rewrite (Hf a b Ha Hb). f_equal. apply IH; [lia | exact Hl | exact Hm].
Qed.

End ListHelpers.

Lemma rows_ok_inv {A : Type} (n : nat) (inner : A -> bool) (l : list A) :
  rows_ok n inner l = true -> length l = n /\ forallb inner l = true.
Proof.
  unfold rows_ok. intros H. apply andb_prop in H. destruct H as [H1 H2].
  apply Nat.eqb_eq in H1. now split.
Qed.

Lemma rows_ok_intro {A : Type} (n : nat) (inner : A -> bool) (l : list A) :
  length l = n -> forallb inner l = true -> rows_ok n inner l = true.
Proof.
  unfold rows_ok. intros H1 H2. rewrite H2, andb_true_r. now apply Nat.eqb_eq.
Qed.

Lemma forallb_map {A B : Type} (f : A -> B) (p : B -> bool) (l : list A) :
  forallb p (map f l) = forallb (fun x => p (f x)) l.
Proof. induction l as [|x l IH]; simpl; [reflexivity | now rewrite IH]. Qed.

Lemma forallb_impl {A : Type} (p q : A -> bool) (l : list A) :
  (forall x, p x = true -> q x = true) -> forallb p l = true -> forallb q l = true.
Proof.
  intros Hpq. induction l as [|x l IH]; simpl; [reflexivity | ].
  intros H. apply andb_prop in H. destruct H as [Hx Hl].
  rewrite (Hpq x Hx). simpl. now apply IH.
Qed.

Lemma rows_ok_zero_nil {A : Type} (inner : A -> bool) (l : list A) :
  rows_ok 0 inner l = true -> l = [].
Proof.
  intros H. apply rows_ok_inv in H. destruct H as [H _].
  now destruct l.
Qed.

Lemma wf3_shape {A : Type} (x : T3 A) :
  wf3 x = true ->
  exists a b c, shape x = [a; b; c]
    /\ rows_ok a (rows_ok b (rows_ok c (fun _ => true))) (elems x) = true.
Proof.
  unfold wf3. destruct (shape x) as [|a [|b [|c [|d s]]]]; try discriminate.
  intros H. now exists a, b, c.
Qed.

Lemma wf1_shape {A : Type} (x : T1 A) :
  wf1 x = true -> exists a, shape x = [a] /\ length (elems x) = a.
Proof.
  unfold wf1. destruct (shape x) as [|a [|b s]]; try discriminate.
  intros H. exists a. split; [reflexivity | ]. now apply rows_ok_inv in H.
Qed.

Lemma wf3_slice1_to {A : Type} (x : T3 A) (n : Z) :
  wf3 x = true -> wf3 (t3_slice1_to x n) = true.
Proof.
  intros H. destruct (wf3_shape x H) as (a & b & c & Hs & Hr).
  unfold t3_slice1_to, wf3. rewrite Hs. simpl.
  apply rows_ok_inv in Hr. destruct Hr as [Hlen Hall].
  apply rows_ok_intro; [now rewrite length_map | ].
  rewrite forallb_map. revert Hall. apply forallb_impl.
  intros rows Hrows. apply rows_ok_inv in Hrows. destruct Hrows as [Hl Hin].
  unfold slice_to. apply rows_ok_intro.
  - rewrite length_firstn, Hl. pose proof (slice_bound_le b n). lia.
  - now apply forallb_firstn.
Qed.

Lemma wf1_slice_to {A : Type} (x : T1 A) (n : Z) :
  wf1 x = true -> wf1 (t1_slice_to x n) = true.
Proof.
  intros H. destruct (wf1_shape x H) as (a & Hs & Hl).
  unfold t1_slice_to, wf1. rewrite Hs. simpl.
  apply rows_ok_intro.
  - unfold slice_to. rewrite length_firstn, Hl. pose proof (slice_bound_le a n). lia.
  - clear. induction (slice_to (elems x) n); simpl; auto.
Qed.

Section DatastoreProps.
Import MemTransDatastore.
Context {F Index : Type}.
Variable astype_float32 : F -> F.

Local Abbreviation store := (@MemTransDatastore.t F Index).

Lemma wf3_map (f : F -> F) (x : T3 F) : wf3 x = true -> wf3 (t3_map f x) = true.
Proof.
  intros H. destruct (wf3_shape x H) as (a & b & c & Hs & Hr).
  unfold t3_map, wf3. simpl. rewrite Hs.
  apply rows_ok_inv in Hr. destruct Hr as [Hl Hall].
  apply rows_ok_intro; [now rewrite length_map | ].
  rewrite forallb_map. revert Hall. apply forallb_impl.
  intros rows Hrows. apply rows_ok_inv in Hrows. destruct Hrows as [Hl2 Hin].
  apply rows_ok_intro; [now rewrite length_map | ].
  rewrite forallb_map. revert Hin. apply forallb_impl.
  intros row Hrow. apply rows_ok_inv in Hrow. destruct Hrow as [Hl3 _].
  apply rows_ok_intro; [now rewrite length_map | ].
  clear. induction (map f row); simpl; auto.
Qed.

Lemma wf1_map (f : Z -> Z) (x : T1 Z) : wf1 x = true -> wf1 (t1_map f x) = true.
Proof.
  intros H. destruct (wf1_shape x H) as (a & Hs & Hl).
  unfold t1_map, wf1. simpl. rewrite Hs.
  apply rows_ok_intro; [now rewrite length_map | ].
  clear. induction (map f (elems x)); simpl; auto.
Qed.

(** What the checks guarantee about the batch that is written. *)
Lemma checks_ok_bounds (self : store) k v tk i nt ks vs ts iv :
  save_key_value_checks self k v tk i = Ok (nt, ks, vs, ts, iv) ->
  cur_idx self <= size self /\ 0 <= nt /\ cur_idx self + nt <= size self.
Proof.
  unfold save_key_value_checks. intros H.
  repeat inv_bind H.
  destruct (shape k) as [|nh [|n [|dim [|x s]]]]; try discriminate H.
  repeat inv_bind H.
  match goal with
  | E : assert (cur_idx self <=? size self) = Ok _ |- _ =>
      apply assert_ok in E; apply Z.leb_le in E
  end.
  destruct (cur_idx self + Z.of_nat n >? size self) eqn:Egt; injection H as <- _ _ _ _.
  - lia.
  - rewrite Z.gtb_ltb in Egt. apply Z.ltb_ge in Egt. lia.
Qed.

Lemma checks_ok_wf (self : store) (k v : T3 F) (tk i : T1 Z) nt ks vs ts iv :
  save_key_value_checks self k v (Some tk) (Some i) = Ok (nt, ks, vs, ts, iv) ->
  wf3 k = true -> wf3 v = true -> wf1 tk = true -> wf1 i = true ->
  wf3 ks = true /\ wf3 vs = true /\ wf1 ts = true /\ wf1 iv = true.
Proof.
  unfold save_key_value_checks. intros H Hk Hv Ht Hi.
  repeat inv_bind H.
  destruct (shape k) as [|nh [|n [|dim [|x s]]]]; try discriminate H.
  repeat inv_bind H.
  destruct (cur_idx self + Z.of_nat n >? size self); injection H as _ <- <- <- <-.
  - repeat split; auto using wf3_slice1_to, wf1_slice_to.
  - auto.
Qed.

(** A write keeps the array well-formed and of the same shape. *)
Lemma memmap3_setitem_wf (m : mmap_mode) (dst src res : T3 F) (s e : Z) :
  memmap3_setitem m dst s e src = Ok res ->
  wf3 dst = true -> wf3 src = true ->
  wf3 res = true /\ shape res = shape dst.
Proof.
  unfold memmap3_setitem. intros H Hd Hs.
  destruct m; try discriminate H.
  destruct (wf3_shape dst Hd) as (h & n & d & Hsd & Hrd).
  destruct (wf3_shape src Hs) as (h' & k & d' & Hss & Hrs).
  rewrite Hsd, Hss in H.
  destruct (Nat.eqb h' h && Nat.eqb k (slice_bound n e - slice_bound n s) && Nat.eqb d' d)
    eqn:Ec; try discriminate H.
  injection H as <-. split; [ | now rewrite Hsd ].
  split_andb.
  repeat match goal with Hq : Nat.eqb _ _ = true |- _ => apply Nat.eqb_eq in Hq end.
  subst h' d'.
  apply rows_ok_inv in Hrd. destruct Hrd as [Hld Hrd].
  apply rows_ok_inv in Hrs. destruct Hrs as [Hls Hrs].
  unfold wf3. simpl. apply rows_ok_intro.
  - rewrite map2_length. lia.
  - eapply forallb_map2; [ | exact Hrd | exact Hrs ].
    intros rows new Hrows Hnew. simpl.
    apply rows_ok_inv in Hrows. destruct Hrows as [Hr1 Hr2].
    apply rows_ok_inv in Hnew. destruct Hnew as [Hn1 Hn2].
    pose proof (slice_bound_le n s). pose proof (slice_bound_le n e).
    apply rows_ok_intro.
    + rewrite write_rows_length; lia.
    + unfold write_rows. rewrite !forallb_app.
      rewrite forallb_firstn, forallb_skipn, Hn2 by assumption. reflexivity.
Qed.

Lemma memmap1_setitem_wf (m : mmap_mode) (dst src res : T1 Z) (s e : Z) :
  memmap1_setitem m dst s e src = Ok res ->
  wf1 dst = true -> wf1 src = true ->
  wf1 res = true /\ shape res = shape dst.
Proof.
  unfold memmap1_setitem. intros H Hd Hs.
  destruct m; try discriminate H.
  destruct (wf1_shape dst Hd) as (n & Hsd & Hld).
  destruct (wf1_shape src Hs) as (k & Hss & Hls).
  rewrite Hsd, Hss in H.
  destruct (Nat.eqb k (slice_bound n e - slice_bound n s)) eqn:Ec; try discriminate H.
  injection H as <-. split; [ | now rewrite Hsd ].
  apply Nat.eqb_eq in Ec.
  pose proof (slice_bound_le n s). pose proof (slice_bound_le n e).
  unfold wf1. simpl. apply rows_ok_intro.
  - rewrite write_rows_length; lia.
  - clear. induction (write_rows (elems dst) (slice_bound n s) (elems src)); simpl; auto.
Qed.

(** A write of no rows changes nothing. *)
Lemma memmap3_setitem_empty (m : mmap_mode) (dst src res : T3 F) (s : Z) :
  memmap3_setitem m dst s (0 + s) src = Ok res ->
  wf3 dst = true -> wf3 src = true -> res = dst.
Proof.
  unfold memmap3_setitem. intros H Hd Hs.
  destruct m; try discriminate H.
  destruct (wf3_shape dst Hd) as (h & n & d & Hsd & Hrd).
  destruct (wf3_shape src Hs) as (h' & k & d' & Hss & Hrs).
  rewrite Hsd, Hss in H. simpl in H. rewrite Nat.sub_diag in H.
  destruct (Nat.eqb h' h && Nat.eqb k 0 && Nat.eqb d' d) eqn:Ec; try discriminate H.
  injection H as <-.
  split_andb.
  repeat match goal with Hq : Nat.eqb _ _ = true |- _ => apply Nat.eqb_eq in Hq end.
  subst h' k d'.
  apply rows_ok_inv in Hrd. destruct Hrd as [Hld _].
  apply rows_ok_inv in Hrs. destruct Hrs as [Hls Hrs].
  destruct dst as [sh el]. simpl in *. subst sh. f_equal.
  eapply map2_fst_id; [ | lia | exact Hrs ].
  intros rows new Hnew. apply rows_ok_zero_nil in Hnew. subst new.
  apply write_rows_nil.
Qed.

Lemma memmap1_setitem_empty (m : mmap_mode) (dst src res : T1 Z) (s : Z) :
  memmap1_setitem m dst s (0 + s) src = Ok res ->
  wf1 dst = true -> wf1 src = true -> res = dst.
Proof.
  unfold memmap1_setitem. intros H Hd Hs.
  destruct m; try discriminate H.
  destruct (wf1_shape dst Hd) as (n & Hsd & Hld).
  destruct (wf1_shape src Hs) as (k & Hss & Hls).
  rewrite Hsd, Hss in H. simpl in H. rewrite Nat.sub_diag in H.
  destruct (Nat.eqb k 0) eqn:Ec; try discriminate H.
  injection H as <-. apply Nat.eqb_eq in Ec. subst k.
  destruct dst as [sh el]. simpl in *. subst sh. f_equal.
  destruct (elems src); [ | discriminate ]. apply write_rows_nil.
Qed.

Ltac store_simpl :=
  cbn [set_keys set_values set_tokens set_ids set_cur_idx
       size dimension n_heads cur_idx mode keys values tokens ids fst snd] in *.

Lemma set_keys_id (self : store) : set_keys self (keys self) = self.
Proof. now destruct self. Qed.
Lemma set_values_id (self : store) : set_values self (values self) = self.
Proof. now destruct self. Qed.
Lemma set_tokens_id (self : store) : set_tokens self (tokens self) = self.
Proof. now destruct self. Qed.
Lemma set_ids_id (self : store) : set_ids self (ids self) = self.
Proof. now destruct self. Qed.
Lemma set_cur_idx_id (self : store) : set_cur_idx self (cur_idx self) = self.
Proof. now destruct self. Qed.

(** [cur_idx] never moves backwards and never passes the capacity; the
    configuration is not touched. *)
Lemma save_key_value_cur_idx (self : store) k v tk i :
  let self' := fst (save_key_value astype_float32 self k v tk i) in
  size self' = size self /\ dimension self' = dimension self
  /\ n_heads self' = n_heads self /\ mode self' = mode self
  /\ cur_idx self <= cur_idx self'
  /\ (cur_idx self <= size self -> cur_idx self' <= size self).
Proof.
  unfold save_key_value.
  destruct (save_key_value_checks self k v tk i) as [[[[[nt ks] vs] ts] iv]|e] eqn:Ec;
    [ | simpl; repeat split; lia ].
  apply checks_ok_bounds in Ec.
  repeat (store_simpl; case_match); store_simpl; repeat split; lia.
Qed.

Lemma wf_wfP (self : store) : wf self = true <-> wfP self.
Proof.
  unfold wf, wfP. split.
  - intros H. split_andb.
    destruct (tokens self) as [tk|]; [ | discriminate ].
    destruct (ids self) as [idt|]; [ | discriminate ].
    split_andb.
    repeat match goal with
    | Hq : (_ <=? _) = true |- _ => apply Z.leb_le in Hq
    | Hq : shape_eqb _ _ = true |- _ => apply shape_eqb_eq in Hq
    end.
    repeat split; try assumption.
    exists tk, idt. repeat split; assumption.
  - intros (H1 & H2 & H3 & [H4 H5] & H6 & H7 & H8 & H9 & tk & idt & -> & -> & Ha & Hb & Hc & Hd).
    apply Z.leb_le in H1, H2, H3, H4, H5.
    apply shape_eqb_eq in H8, H9, Hc, Hd.
    rewrite H1, H2, H3, H4, H5, H6, H7, H8, H9, Ha, Hb, Hc, Hd. reflexivity.
Qed.

Lemma save_key_value_wf (self : store) (c : call) :
  wf self = true -> call_wf c = true ->
  wf (fst (apply_call astype_float32 self c)) = true.
Proof.
  destruct c as [[[k v] tk] i]. unfold apply_call, call_wf.
  intros Hwf Hc. split_andb.
  apply wf_wfP. apply wf_wfP in Hwf.
  destruct Hwf as (P1 & P2 & P3 & P4 & P6 & P7 & P8 & P9 & tk0 & idt0 & Et & Ei & Pa & Pb & Pc & Pd).
  unfold save_key_value.
  destruct (save_key_value_checks self k v tk i) as [[[[[nt ks] vs] ts] iv]|e] eqn:Ec.
  2:{ simpl. unfold wfP. repeat split; try assumption; try lia.
      exists tk0, idt0. repeat split; assumption. }
  pose proof (checks_ok_bounds _ _ _ _ _ _ _ _ _ _ Ec) as Hb3.
  destruct tk as [tk|]; [ | unfold save_key_value_checks in Ec; repeat inv_bind Ec; discriminate ].
  destruct i as [i|]; [ | unfold save_key_value_checks in Ec; repeat inv_bind Ec; discriminate ].
  destruct (checks_ok_wf _ _ _ _ _ _ _ _ _ _ Ec) as (Wk & Wv & Wt & Wi); try assumption.
  destruct (memmap3_setitem (mode self) (keys self) _ _ _) as [k'|] eqn:E1.
  2:{ simpl. unfold wfP. rewrite Et, Ei. repeat split; try assumption; try lia.
      exists tk0, idt0. repeat split; assumption. }
  apply memmap3_setitem_wf in E1; auto using wf3_map. destruct E1 as [Wk' Sk'].
  store_simpl.
  destruct (memmap3_setitem (mode self) (values self) _ _ _) as [v'|] eqn:E2.
  2:{ simpl. unfold wfP. store_simpl. rewrite Et, Ei, Sk'.
      repeat split; try assumption; try lia.
      exists tk0, idt0. repeat split; assumption. }
  apply memmap3_setitem_wf in E2; auto using wf3_map. destruct E2 as [Wv' Sv'].
  store_simpl. rewrite Et.
  destruct (memmap1_setitem (mode self) tk0 _ _ _) as [tk'|] eqn:E3.
  2:{ simpl. unfold wfP. store_simpl. rewrite Et, Ei, Sk', Sv'.
      repeat split; try assumption; try lia.
      exists tk0, idt0. repeat split; assumption. }
  apply memmap1_setitem_wf in E3; auto using wf1_map. destruct E3 as [Wt' St'].
  store_simpl. rewrite Ei.
  destruct (memmap1_setitem (mode self) idt0 _ _ _) as [id'|] eqn:E4.
  2:{ simpl. unfold wfP. store_simpl. rewrite Ei, Sk', Sv'.
      repeat split; try assumption; try lia.
      exists tk', idt0. repeat split; try assumption; congruence. }
  apply memmap1_setitem_wf in E4; auto using wf1_map. destruct E4 as [Wi' Si'].
  simpl. unfold wfP. store_simpl. rewrite Sk', Sv'.
  repeat split; try assumption; try lia.
  exists tk', id'. repeat split; try assumption; congruence.
Qed.

Lemma memmap3_setitem_ok (dst src : T3 F) (h n d k : nat) (s : Z) :
  shape dst = [h; n; d] -> shape src = [h; k; d] ->
  0 <= s -> s + Z.of_nat k <= Z.of_nat n ->
  memmap3_setitem mode_w_plus dst s (Z.of_nat k + s) src
  = Ok (mkTensor [h; n; d]
          (map2 (fun rows new => write_rows rows (Z.to_nat s) new) (elems dst) (elems src))).
Proof.
  intros Hd Hs H0 Hk. unfold memmap3_setitem. rewrite Hd, Hs.
  rewrite !slice_bound_in by lia.
  replace (Z.to_nat (Z.of_nat k + s) - Z.to_nat s)%nat with k by lia.
  now rewrite !Nat.eqb_refl.
Qed.

Lemma memmap1_setitem_ok (dst src : T1 Z) (n k : nat) (s : Z) :
  shape dst = [n] -> shape src = [k] ->
  0 <= s -> s + Z.of_nat k <= Z.of_nat n ->
  memmap1_setitem mode_w_plus dst s (Z.of_nat k + s) src
  = Ok (mkTensor [n] (write_rows (elems dst) (Z.to_nat s) (elems src))).
Proof.
  intros Hd Hs H0 Hk. unfold memmap1_setitem. rewrite Hd, Hs.
  rewrite !slice_bound_in by lia.
  replace (Z.to_nat (Z.of_nat k + s) - Z.to_nat s)%nat with k by lia.
  now rewrite Nat.eqb_refl.
Qed.

Lemma batch_ok_inv (self : store) (nt : nat) (c : call) :
  batch_ok self nt c = true ->
  exists k v tk i, c = (k, v, Some tk, Some i)
    /\ wf3 k = true /\ wf3 v = true /\ wf1 tk = true /\ wf1 i = true
    /\ shape k = [Z.to_nat (n_heads self); nt; Z.to_nat (dimension self)]
    /\ shape v = [Z.to_nat (n_heads self); nt; Z.to_nat (dimension self)]
    /\ shape tk = [nt] /\ shape i = [nt].
Proof.
  destruct c as [[[k v] [tk|]] [i|]]; unfold batch_ok; intros H; split_andb;
    try discriminate.
  repeat match goal with
  | Hq : shape_eqb _ _ = true |- _ => apply shape_eqb_eq in Hq
  end.
  exists k, v, tk, i. repeat split; assumption.
Qed.

(** No truncation: the checks pass the batch on as it came. *)
Lemma checks_no_trunc (self : store) (nt : nat) (k v : T3 F) (tk i : T1 Z) :
  0 <= n_heads self -> 0 <= dimension self ->
  cur_idx self <= size self ->
  shape k = [Z.to_nat (n_heads self); nt; Z.to_nat (dimension self)] ->
  shape v = [Z.to_nat (n_heads self); nt; Z.to_nat (dimension self)] ->
  shape tk = [nt] -> shape i = [nt] ->
  cur_idx self + Z.of_nat nt <= size self ->
  save_key_value_checks self k v (Some tk) (Some i) = Ok (Z.of_nat nt, k, v, tk, i).
Proof.
  intros Hh Hd Hc Sk Sv St Si Hfit.
  destruct k as [sk ek], v as [sv ev], tk as [st et], i as [si ei].
  simpl in Sk, Sv, St, Si. subst sk sv st si.
  unfold save_key_value_checks, size_at. cbn [shape nth_error bind].
  rewrite Nat.eqb_refl. cbn [assert bind].
  rewrite !Z2Nat.id by assumption. rewrite !Z.eqb_refl. cbn [andb assert bind].
  apply Z.leb_le in Hc. rewrite Hc. simpl.
  destruct (cur_idx self + Z.of_nat nt >? size self) eqn:E; [ | reflexivity ].
  rewrite Z.gtb_ltb in E. apply Z.ltb_lt in E. lia.
Qed.

(** The batch fits: every entry is written at [cur_idx ..], the entries
    below [cur_idx] stay, and [cur_idx] advances by the batch length. *)
Lemma save_key_value_fits (self : store) (nt : nat) (c : call) :
  wf self = true -> batch_ok self nt c = true -> mode self = mode_w_plus ->
  cur_idx self + Z.of_nat nt <= size self ->
  let lo := cur_idx self in
  let hi := cur_idx self + Z.of_nat nt in
  let '(k, v, tk, i) := c in
  let '(self', res) := apply_call astype_float32 self c in
  res = Ok tt
  /\ cur_idx self' = cur_idx self + Z.of_nat nt
  /\ map (fun rows => slice rows lo hi) (elems (keys self'))
     = map (map (map astype_float32)) (elems k)
  /\ map (fun rows => slice rows lo hi) (elems (values self'))
     = map (map (map astype_float32)) (elems v)
  /\ option_map (fun x => slice (elems x) lo hi) (tokens self')
     = option_map (fun x => map to_int32 (elems x)) tk
  /\ option_map (fun x => slice (elems x) lo hi) (ids self')
     = option_map (fun x => map to_int32 (elems x)) i.
Proof.
  intros Hwf Hb Hm Hfit.
  apply batch_ok_inv in Hb.
  destruct Hb as (k & v & tk & i & -> & Wk & Wv & Wt & Wi & Sk & Sv & St & Si).
  apply wf_wfP in Hwf.
  destruct Hwf as (P1 & P2 & P3 & P4 & P6 & P7 & P8 & P9 & tk0 & idt0 & Et & Ei & Pa & Pb & Pc & Pd).
  unfold apply_call. cbv beta iota zeta. unfold save_key_value.
  rewrite (checks_no_trunc self nt k v tk i) by (assumption || lia).
  rewrite Hm.
  rewrite (memmap3_setitem_ok (keys self) (t3_map astype_float32 k) _ _ _ nt _ P8)
    by (simpl; assumption || lia).
  store_simpl. rewrite ?Hm.
  rewrite (memmap3_setitem_ok (values self) (t3_map astype_float32 v) _ _ _ nt _ P9)
    by (simpl; assumption || lia).
  store_simpl. rewrite ?Hm, Et.
  rewrite (memmap1_setitem_ok tk0 (t1_map to_int32 tk) _ nt _ Pc)
    by (simpl; assumption || lia).
  store_simpl. rewrite ?Hm, Ei.
  rewrite (memmap1_setitem_ok idt0 (t1_map to_int32 i) _ nt _ Pd)
    by (simpl; assumption || lia).
  store_simpl. cbv beta iota. store_simpl. cbn [elems t3_map t1_map option_map].
  destruct (wf3_shape _ P6) as (a1 & b1 & c1 & Sk1 & Rk1).
  destruct (wf3_shape _ P7) as (a2 & b2 & c2 & Sv2 & Rv2).
  destruct (wf3_shape _ Wk) as (a3 & b3 & c3 & Sk3 & Rk3).
  destruct (wf3_shape _ Wv) as (a4 & b4 & c4 & Sv4 & Rv4).
  rewrite P8 in Sk1. rewrite P9 in Sv2. rewrite Sk in Sk3. rewrite Sv in Sv4.
  injection Sk1 as <- <- <-. injection Sv2 as <- <- <-.
  injection Sk3 as <- <- <-. injection Sv4 as <- <- <-.
  apply rows_ok_inv in Rk1, Rv2, Rk3, Rv4.
  destruct Rk1 as [L1 R1]. destruct Rv2 as [L2 R2].
  destruct Rk3 as [L3 R3]. destruct Rv4 as [L4 R4].
  destruct (wf1_shape _ Pa) as (n1 & S1 & Ln1). rewrite Pc in S1. injection S1 as <-.
  destruct (wf1_shape _ Pb) as (n2 & S2 & Ln2). rewrite Pd in S2. injection S2 as <-.
  destruct (wf1_shape _ Wt) as (n3 & S3 & Ln3). rewrite St in S3. injection S3 as <-.
  destruct (wf1_shape _ Wi) as (n4 & S4 & Ln4). rewrite Si in S4. injection S4 as <-.
  assert (Hrow : forall (X : Type) (rows new : list X),
             length rows = Z.to_nat (size self) -> length new = nt ->
             slice (write_rows rows (Z.to_nat (cur_idx self)) new)
                   (cur_idx self) (cur_idx self + Z.of_nat nt) = new).
  { intros X rows new Hr Hn.
    pose proof (write_rows_slice rows new (Z.to_nat (cur_idx self))) as Hs.
    rewrite Z2Nat.id, Hn in Hs by lia. apply Hs. lia. }
  repeat split.
  - eapply map_map2_snd with
      (p := rows_ok (Z.to_nat (size self)) (rows_ok (Z.to_nat (dimension self)) (fun _ => true)))
      (q := fun new : list (list F) => Nat.eqb (length new) nt).
    + intros rows new Hr Hn. apply rows_ok_inv in Hr. apply Nat.eqb_eq in Hn.
      apply Hrow; [apply Hr | exact Hn].
    + rewrite length_map. lia.
    + exact R1.
    + rewrite forallb_map. revert R3. apply forallb_impl.
      intros x Hx. apply rows_ok_inv in Hx. rewrite length_map. now apply Nat.eqb_eq.
  - eapply map_map2_snd with
      (p := rows_ok (Z.to_nat (size self)) (rows_ok (Z.to_nat (dimension self)) (fun _ => true)))
      (q := fun new : list (list F) => Nat.eqb (length new) nt).
    + intros rows new Hr Hn. apply rows_ok_inv in Hr. apply Nat.eqb_eq in Hn.
      apply Hrow; [apply Hr | exact Hn].
    + rewrite length_map. lia.
    + exact R2.
    + rewrite forallb_map. revert R4. apply forallb_impl.
      intros x Hx. apply rows_ok_inv in Hx. rewrite length_map. now apply Nat.eqb_eq.
  - f_equal. apply Hrow; [exact Ln1 | now rewrite length_map].
  - f_equal. apply Hrow; [exact Ln2 | now rewrite length_map].
Qed.

(** The store is full: the batch is cut to nothing and no array changes. *)
Lemma save_key_value_full (self : store) (c : call) :
  wf self = true -> call_wf c = true -> cur_idx self = size self ->
  fst (apply_call astype_float32 self c) = self.
Proof.
  destruct c as [[[k v] tk] i]. unfold apply_call, call_wf.
  intros Hwf Hc Hfull. split_andb.
  apply wf_wfP in Hwf.
  destruct Hwf as (P1 & P2 & P3 & P4 & P6 & P7 & P8 & P9 & tk0 & idt0 & Et & Ei & Pa & Pb & Pc & Pd).
  unfold save_key_value.
  destruct (save_key_value_checks self k v tk i) as [[[[[nt ks] vs] ts] iv]|e] eqn:Ec;
    [ | reflexivity ].
  pose proof (checks_ok_bounds _ _ _ _ _ _ _ _ _ _ Ec) as Hb3.
  assert (nt = 0) by lia. subst nt.
  destruct tk as [tk|]; [ | unfold save_key_value_checks in Ec; repeat inv_bind Ec; discriminate ].
  destruct i as [i|]; [ | unfold save_key_value_checks in Ec; repeat inv_bind Ec; discriminate ].
  destruct (checks_ok_wf _ _ _ _ _ _ _ _ _ _ Ec) as (Wk & Wv & Wt & Wi); try assumption.
  destruct (memmap3_setitem (mode self) (keys self) _ _ _) as [k'|] eqn:E1;
    [ | reflexivity ].
  apply memmap3_setitem_empty in E1; auto using wf3_map. subst k'.
  rewrite set_keys_id.
  destruct (memmap3_setitem (mode self) (values self) _ _ _) as [v'|] eqn:E2;
    [ | reflexivity ].
  apply memmap3_setitem_empty in E2; auto using wf3_map. subst v'.
  rewrite set_values_id. rewrite Et.
  destruct (memmap1_setitem (mode self) tk0 _ _ _) as [tk'|] eqn:E3;
    [ | reflexivity ].
  apply memmap1_setitem_empty in E3; auto using wf1_map. subst tk'.
  rewrite <- Et, set_tokens_id. rewrite Ei.
  destruct (memmap1_setitem (mode self) idt0 _ _ _) as [id'|] eqn:E4;
    [ | reflexivity ].
  apply memmap1_setitem_empty in E4; auto using wf1_map. subst id'.
  rewrite <- Ei, set_ids_id. rewrite Z.add_0_r. cbn [fst]. apply set_cur_idx_id.
Qed.

(** The reachable stores of a sequence of appends. *)
Lemma run_sorted (self : store) (calls : list call) :
  Sorted Z.le (map cur_idx (self :: run astype_float32 self calls)).
Proof.
  revert self. induction calls as [|c rest IH]; intros self; simpl.
  - repeat constructor.
  - constructor; [apply IH | ].
    constructor. destruct c as [[[k v] tk] i].
    apply (save_key_value_cur_idx self k v tk i).
Qed.

Lemma run_wf (self : store) (calls : list call) :
  wf self = true -> forallb call_wf calls = true ->
  Forall (fun s => wf s = true /\ size s = size self)
    (self :: run astype_float32 self calls).
Proof.
  revert self. induction calls as [|c rest IH]; intros self Hwf Hcs; simpl in *.
  - repeat constructor. exact Hwf.
  - apply andb_prop in Hcs. destruct Hcs as [Hc Hrest].
    constructor; [now split | ].
    pose proof (save_key_value_wf self c Hwf Hc) as Hwf'.
    specialize (IH _ Hwf' Hrest).
    assert (Hsz : size (fst (apply_call astype_float32 self c)) = size self).
    { destruct c as [[[k v] tk] i]. apply (save_key_value_cur_idx self k v tk i). }
    rewrite Hsz in IH. exact IH.
Qed.

(** C1. Along every sequence of [save_key_value] calls [cur_idx] never
    decreases and never exceeds the capacity [size]. At every store reached:
    a batch of [nt] entries with [cur_idx + nt <= size] is written whole and
    advances [cur_idx] by [nt]; a batch arriving when [cur_idx = size] leaves
    the store as it was (zero entries written). *)
Theorem save_key_value_cur_idx_capacity (self : store) (calls : list call) :
  wf self = true -> forallb call_wf calls = true ->
  Sorted Z.le (map cur_idx (self :: run astype_float32 self calls))
  /\ Forall (fun s =>
       (0 <= cur_idx s <= size self /\ size s = size self)
       /\ (forall (nt : nat) (c : call),
             batch_ok s nt c = true -> mode s = mode_w_plus ->
             cur_idx s + Z.of_nat nt <= size s ->
             let lo := cur_idx s in
             let hi := cur_idx s + Z.of_nat nt in
             let '(k, v, tk, i) := c in
             let '(s', res) := apply_call astype_float32 s c in
             res = Ok tt
             /\ cur_idx s' = cur_idx s + Z.of_nat nt
             /\ map (fun rows => slice rows lo hi) (elems (keys s'))
                = map (map (map astype_float32)) (elems k)
             /\ map (fun rows => slice rows lo hi) (elems (values s'))
                = map (map (map astype_float32)) (elems v)
             /\ option_map (fun x => slice (elems x) lo hi) (tokens s')
                = option_map (fun x => map to_int32 (elems x)) tk
             /\ option_map (fun x => slice (elems x) lo hi) (ids s')
                = option_map (fun x => map to_int32 (elems x)) i)
       /\ (forall c : call,
             call_wf c = true -> cur_idx s = size s ->
             fst (apply_call astype_float32 s c) = s))
     (self :: run astype_float32 self calls).
Proof.
  intros Hwf Hcs. split; [apply run_sorted | ].
  pose proof (run_wf self calls Hwf Hcs) as Hall.
  revert Hall. apply Forall_impl. intros s [Hs Hsz].
  split; [ | split ].
  - apply wf_wfP in Hs. unfold wfP in Hs. rewrite <- Hsz. split; [tauto | reflexivity].
  - intros nt c Hb Hm Hfit. exact (save_key_value_fits s nt c Hs Hb Hm Hfit).
  - intros c Hc Hfull. exact (save_key_value_full s c Hs Hc Hfull).
Qed.

End DatastoreProps.

Lemma save_key_value_cur_idx_capacity_witness :
  MemTransDatastore.wf Samples.store3 = true
  /\ forallb MemTransDatastore.call_wf Samples.appends = true
  /\ Sorted Z.le
       (map MemTransDatastore.cur_idx
          (Samples.store3
           :: MemTransDatastore.run (fun x => x) Samples.store3 Samples.appends)).
Proof.
  split; [reflexivity | split; [reflexivity | ]].
  apply (save_key_value_cur_idx_capacity (fun x => x) Samples.store3 Samples.appends);
    reflexivity.
Defined.

(** ** The offsets of [load_index] *)

Section OffsetsProps.
Import MemTransDatastore.

(** Once the loop has come to a pair of neighbours that steps down or skips
    a value, it raises, whatever came before. *)
Lemma offsets_loop_rejects (a b : Z) (post pre : list Z) :
  (b < a \/ a + 1 < b) ->
  forall i prev so eo,
    snd (offsets_loop (pre ++ a :: b :: post) i prev so eo) = Raise ValueError.
Proof.
  intros Hab. induction pre as [|x pre IH]; intros i prev so eo.
  - simpl.
    destruct (a =? prev + 1) eqn:E1.
    + cbn [offsets_loop].
      destruct (b =? a + 1) eqn:E2; [apply Z.eqb_eq in E2; lia | ].
      destruct (b =? a) eqn:E3; [apply Z.eqb_eq in E3; lia | reflexivity].
    + destruct (a =? prev) eqn:E4; [ | reflexivity ].
      apply Z.eqb_eq in E4. subst prev. cbn [offsets_loop].
      destruct (b =? a + 1) eqn:E2; [apply Z.eqb_eq in E2; lia | ].
      destruct (b =? a) eqn:E3; [apply Z.eqb_eq in E3; lia | reflexivity].
  - simpl.
    destruct (x =? prev + 1); [apply IH | ].
    destruct (x =? prev); [apply IH | reflexivity].
Qed.

(** C3. The ids [0,0,1,1,1,2] give the spans [0,2), [2,5), [5,6) with
    lengths 2, 3, 1; the ids [0,2,1] are rejected with the error for
    non-consecutive ids; so is every id sequence in which some id is followed
    by a smaller one or by one that skips a value, and every sequence that
    starts above 0. *)
Theorem build_offset_spans (pre post : list Z) (a b : Z) :
  (b < a \/ a + 1 < b) ->
  build_offset [0; 0; 1; 1; 1; 2] = ([0; 2; 5], [2; 5; 6], Ok [2; 3; 1])
  /\ snd (build_offset [0; 2; 1]) = Raise ValueError
  /\ snd (build_offset (pre ++ a :: b :: post)) = Raise ValueError
  /\ (forall (first : Z) (rest : list Z),
        0 < first -> snd (build_offset (first :: rest)) = Raise ValueError).
Proof.
  intros Hab. split; [reflexivity | split; [reflexivity | split ]].
  - unfold build_offset.
    pose proof (offsets_loop_rejects a b post pre Hab 0 (-1) [] []) as H.
    destruct (offsets_loop (pre ++ a :: b :: post) 0 (-1) [] []) as [[so eo] res].
    simpl in H. subst res. reflexivity.
  - intros first rest Hfirst. unfold build_offset. cbn [offsets_loop].
    destruct (first =? -1 + 1) eqn:E1; [apply Z.eqb_eq in E1; lia | ].
    destruct (first =? -1) eqn:E2; [apply Z.eqb_eq in E2; lia | reflexivity].
Qed.

End OffsetsProps.

Lemma build_offset_spans_witness :
  (2 < 0 \/ 0 + 1 < 2)
  /\ snd (MemTransDatastore.build_offset ([] ++ 0 :: 2 :: [1])) = Raise ValueError.
Proof.
  split; [right; lia | ].
  destruct (build_offset_spans [] [1] 0 2) as (_ & _ & H & _); [right; lia | ].
  exact H.
Defined.

(** ** [get_knns] *)

Lemma rows_ok_repeat {A : Type} (n : nat) (p : A -> bool) (x : A) :
  p x = true -> rows_ok n p (repeat x n) = true.
Proof.
  intros Hx. apply rows_ok_intro; [apply repeat_length | ].
  induction n as [|n IH]; simpl; [reflexivity | now rewrite Hx].
Qed.

Lemma wf4_zeros4 {A : Type} (z : A) (a b c d : nat) : wf4 (zeros4 z a b c d) = true.
Proof. unfold wf4, zeros4. simpl. repeat apply rows_ok_repeat. reflexivity. Qed.

Lemma wf3_zeros3 {A : Type} (z : A) (a b c : nat) : wf3 (zeros3 z a b c) = true.
Proof. unfold wf3, zeros3. simpl. repeat apply rows_ok_repeat. reflexivity. Qed.

Section GetKnnsProps.
Import MemTransDatastore.
Context {F Index : Type}.
Variable index_search : Index -> T2 F -> Z -> T2 Z.
Variable fzero : F.

(** what [get_knns] returns when [topk <= 0] *)
Lemma get_knns_empty (self : @MemTransDatastore.t F Index)
  (queries : T3 F) (nh bs dim : nat) (topk : Z) (return_all : bool) :
  shape queries = [nh; bs; dim] -> topk <= 0 ->
  get_knns index_search fzero self queries topk return_all
  = ([], Ok (mk_knns (zeros4 fzero nh bs 0 dim) (zeros4 fzero nh bs 0 dim)
               (if return_all then Some (zeros3 0 nh bs 0) else None)
               (if return_all then Some (zeros3 0 nh bs 0) else None))).
Proof.
  intros Hs Hk. unfold get_knns. rewrite Hs.
  apply Z.leb_le in Hk. rewrite Hk. now destruct return_all.
Qed.

(** C4. For queries of shape (n_heads, batch, dim) and [topk <= 0],
    [get_knns] returns without raising and without a single call of
    [index.search]; the keys and values have shape (n_heads, batch, 0, dim)
    and, when asked for, the tokens and ids have shape (n_heads, batch, 0). *)
Theorem get_knns_topk_nonpositive (self : @MemTransDatastore.t F Index)
  (queries : T3 F) (nh bs dim : nat) (topk : Z) (return_all : bool) :
  shape queries = [nh; bs; dim] -> topk <= 0 ->
  exists res : knns,
    get_knns index_search fzero self queries topk return_all = ([], Ok res)
    /\ shape (ret_ks res) = [nh; bs; 0%nat; dim] /\ wf4 (ret_ks res) = true
    /\ shape (ret_vs res) = [nh; bs; 0%nat; dim] /\ wf4 (ret_vs res) = true
    /\ (if return_all then
          exists ts is_, ret_ts res = Some ts /\ ret_ids res = Some is_
            /\ shape ts = [nh; bs; 0%nat] /\ wf3 ts = true
            /\ shape is_ = [nh; bs; 0%nat] /\ wf3 is_ = true
        else ret_ts res = None /\ ret_ids res = None).
Proof.
  intros Hs Hk. eexists. split; [exact (get_knns_empty self queries nh bs dim topk return_all Hs Hk) | ].
  cbn [ret_ks ret_vs ret_ts ret_ids].
  repeat split; try apply wf4_zeros4.
  destruct return_all; [ | now split ].
  exists (zeros3 0 nh bs 0), (zeros3 0 nh bs 0).
  repeat split; apply wf3_zeros3.
Qed.

End GetKnnsProps.

Lemma get_knns_topk_nonpositive_witness :
  exists res,
    MemTransDatastore.get_knns Samples.search0 0 Samples.store3 Samples.queries2 0 true
    = ([], Ok res)
    /\ shape (MemTransDatastore.ret_ks res) = [1; 2; 0; 1]%nat.
Proof.
  destruct (get_knns_topk_nonpositive Samples.search0 0 Samples.store3 Samples.queries2
              1 2 1 0 true eq_refl ltac:(lia)) as (res & H1 & H2 & _).
  exists res. split; assumption.
Defined.

(** ** RetrievalTracker *)

Section TrackerProps.
Import RetrievalTracker.

(** The loop over the steps of one row writes the lines of the steps that
    come before the first end-of-sequence prediction and nothing else. *)
Lemma write_steps_stops_at_eos (self : t) (pre post : list (list Z)) (s : list Z) :
  Forall (fun x => hd 0 x <> eos_token_id self) pre ->
  hd 0 s = eos_token_id self ->
  written (write_steps self (pre ++ s :: post))
  = written self ++ map join_line pre.
Proof.
  revert self. induction pre as [|x pre IH]; intros self Hpre Hs; simpl.
  - apply Z.eqb_eq in Hs. rewrite Hs. now rewrite app_nil_r.
  - inversion Hpre as [|? ? Hx Hrest]; subst.
    apply Z.eqb_neq in Hx. rewrite Hx.
    rewrite IH; [ | exact Hrest | exact Hs ].
    simpl. now rewrite <- app_assoc.
Qed.

(** C5. With the predictions 5, 7 and end-of-sequence buffered for one
    batch row, [write] emits the lines of 5 and of 7 and the blank line,
    no line for the end-of-sequence step, and empties the buffer. A [write]
    on an empty buffer emits nothing, yet it raises RuntimeError: stacking
    an empty list of predictions fails. *)
Theorem write_then_write_again_raises :
  (exists tr,
      write Samples.tracker_5_7_eos = (tr, Ok tt)
      /\ written tr = [join_line [5; 41; 0; 42; 0];
                       join_line [7; 43; 0; 44; 1]; newline]
      /\ predictions tr = [] /\ retrieved_tokens tr = [] /\ retrieved_ids tr = []
      /\ write tr = (tr, Raise RuntimeError))
  /\ (forall (self : t) (rt ri : list (T3 Z)),
        write (set_buffers self [] rt ri) = (set_buffers self [] rt ri, Raise RuntimeError)).
Proof.
  split.
  - eexists. split; [vm_compute; reflexivity | ].
    repeat split.
  - intros self rt ri. reflexivity.
Qed.


End TrackerProps.

(** ** MemTransAttn.save *)


Section SaveProps.
Import MemTransAttn.
Context {F Index : Type}.
Variable astype_float32 : F -> F.

Local Abbreviation mta := (@MemTransAttn.t F Index).



End SaveProps.

(** ** Fused attention with nothing retrieved *)

Section CatHelpers.
Context {A : Type}.

Lemma map2_snd_id {X Y : Type} (f : X -> Y -> Y) (p : X -> bool) (q : Y -> bool)
  (l : list X) (m : list Y) :
  (forall a b, p a = true -> q b = true -> f a b = b) ->
  length l = length m -> forallb p l = true -> forallb q m = true ->
  map2 f l m = m.
Proof.
  intros Hf. revert m; induction l as [|a l IH]; intros [|b m] Hlen Hl Hm; simpl in *;
    try reflexivity; try discriminate.
  apply andb_prop in Hl. apply andb_prop in Hm.
  destruct Hl as [Ha Hl]. destruct Hm as [Hb Hm].
  rewrite (Hf a b Ha Hb). f_equal. apply IH; [lia | exact Hl | exact Hm].
Qed.

Lemma map2_fst_id2 {X Y : Type} (f : X -> Y -> X) (p : X -> bool) (q : Y -> bool)
  (l : list X) (m : list Y) :
  (forall a b, p a = true -> q b = true -> f a b = a) ->
  length l = length m -> forallb p l = true -> forallb q m = true ->
  map2 f l m = l.
Proof.
  intros Hf. revert m; induction l as [|a l IH]; intros [|b m] Hlen Hl Hm; simpl in *;
    try reflexivity; try discriminate.
  apply andb_prop in Hl. apply andb_prop in Hm.
  destruct Hl as [Ha Hl]. destruct Hm as [Hb Hm].
  rewrite (Hf a b Ha Hb). f_equal. apply IH; [lia | exact Hl | exact Hm].
Qed.

Lemma map2_map_map {X Y Z' W : Type} (f : Y -> Z' -> W) (g : X -> Y) (h : X -> Z')
  (l : list X) :
  map2 f (map g l) (map h l) = map (fun x => f (g x) (h x)) l.
Proof. induction l as [|x l IH]; simpl; [reflexivity | now rewrite IH]. Qed.

Lemma map_id_on {X : Type} (f : X -> X) (p : X -> bool) (l : list X) :
  (forall x, p x = true -> f x = x) -> forallb p l = true -> map f l = l.
Proof.
  intros Hf. induction l as [|x l IH]; simpl; [reflexivity | ].
  intros H. apply andb_prop in H. destruct H as [Hx Hl].
  rewrite (Hf x Hx). f_equal. now apply IH.
Qed.

(** an empty block in front of, or behind, every row changes nothing *)
Lemma cat_rows2_nil_l {p : A -> bool} {q : list A -> bool} (a b : nat)
  (E K : list (list (list A))) :
  rows_ok a (rows_ok b (rows_ok 0 p)) E = true ->
  rows_ok a (rows_ok b q) K = true ->
  map2 (map2 (@app A)) E K = K.
Proof.
  intros HE HK. apply rows_ok_inv in HE, HK.
  destruct HE as [LE RE]. destruct HK as [LK RK].
  eapply map2_snd_id; [ | lia | exact RE | exact RK ].
  intros e k He Hk. apply rows_ok_inv in He, Hk.
  destruct He as [Le Re]. destruct Hk as [Lk Rk].
  eapply map2_snd_id with (q := fun _ => true); [ | lia | exact Re | ].
  - intros x y Hx _. apply rows_ok_zero_nil in Hx. now subst x.
  - clear. induction k; simpl; auto.
Qed.

Lemma cat_rows2_nil_r {p : A -> bool} {q : list A -> bool} (a b : nat)
  (E K : list (list (list A))) :
  rows_ok a (rows_ok b (rows_ok 0 p)) E = true ->
  rows_ok a (rows_ok b q) K = true ->
  map2 (map2 (@app A)) K E = K.
Proof.
  intros HE HK. apply rows_ok_inv in HE, HK.
  destruct HE as [LE RE]. destruct HK as [LK RK].
  eapply map2_fst_id2; [ | lia | exact RK | exact RE ].
  intros k e Hk He. apply rows_ok_inv in He, Hk.
  destruct He as [Le Re]. destruct Hk as [Lk Rk].
  eapply map2_fst_id2 with (p := fun _ => true); [ | lia | | exact Re ].
  - intros x y _ Hy. apply rows_ok_zero_nil in Hy. subst y. apply app_nil_r.
  - clear. induction k; simpl; auto.
Qed.

Lemma cat_rows3_nil_l {p : A -> bool} (a b c : nat) (q : list A -> bool)
  (E K : list (list (list (list A)))) :
  rows_ok a (rows_ok b (rows_ok c (rows_ok 0 p))) E = true ->
  rows_ok a (rows_ok b (rows_ok c q)) K = true ->
  map2 (map2 (map2 (@app A))) E K = K.
Proof.
  intros HE HK. apply rows_ok_inv in HE, HK.
  destruct HE as [LE RE]. destruct HK as [LK RK].
  eapply map2_snd_id; [ | lia | exact RE | exact RK ].
  intros e k He Hk. eapply cat_rows2_nil_l; eassumption.
Qed.

End CatHelpers.

Lemma rows_ok_weaken {A : Type} (n : nat) (p q : A -> bool) (l : list A) :
  (forall x, p x = true -> q x = true) ->
  rows_ok n p l = true -> rows_ok n q l = true.
Proof.
  intros Hpq H. apply rows_ok_inv in H. destruct H as [Hl Hp].
  apply rows_ok_intro; [exact Hl | ]. revert Hp. now apply forallb_impl.
Qed.

Lemma rows_ok_map {A B : Type} (n : nat) (f : A -> B) (p : A -> bool) (q : B -> bool)
  (l : list A) :
  (forall x, p x = true -> q (f x) = true) ->
  rows_ok n p l = true -> rows_ok n q (map f l) = true.
Proof.
  intros Hpq H. apply rows_ok_inv in H. destruct H as [Hl Hp].
  apply rows_ok_intro; [now rewrite length_map | ].
  rewrite forallb_map. revert Hp. now apply forallb_impl.
Qed.

Lemma wf4_shape {A : Type} (x : T4 A) :
  wf4 x = true ->
  exists a b c d, shape x = [a; b; c; d]
    /\ rows_ok a (rows_ok b (rows_ok c (rows_ok d (fun _ => true)))) (elems x) = true.
Proof.
  unfold wf4. destruct (shape x) as [|a [|b [|c [|d [|e s]]]]]; try discriminate.
  intros H. now exists a, b, c, d.
Qed.

Lemma wf5_shape {A : Type} (x : T5 A) :
  wf5 x = true ->
  exists a b c d e, shape x = [a; b; c; d; e]
    /\ rows_ok a (rows_ok b (rows_ok c (rows_ok d (rows_ok e (fun _ => true)))))
         (elems x) = true.
Proof.
  unfold wf5. destruct (shape x) as [|a [|b [|c [|d [|e [|f s]]]]]]; try discriminate.
  intros H. now exists a, b, c, d, e.
Qed.

Section TensorCat.
Context {A : Type}.

(** squeezing retrieved tensors of top-k width 0 leaves empty blocks *)
Lemma squeeze2_empty (x : T5 A) (bs nh d : nat) :
  wf5 x = true -> shape x = [bs; nh; 1; 0; d]%nat ->
  exists rk : T4 A,
    squeeze2 x = Ok rk /\ shape rk = [bs; nh; 0; d]%nat
    /\ rows_ok bs (rows_ok nh (rows_ok 0 (fun _ : list A => true))) (elems rk) = true.
Proof.
  intros Hwf Hs. destruct (wf5_shape x Hwf) as (a & b & c & e & f & Hs' & Hr).
  rewrite Hs in Hs'. injection Hs' as <- <- <- <- <-.
  unfold squeeze2. rewrite Hs. eexists. split; [reflexivity | ].
  split; [reflexivity | ]. cbn [elems].
  revert Hr. apply rows_ok_map. intros y. apply rows_ok_map. intros z Hz.
  apply rows_ok_inv in Hz. destruct Hz as [Hl Hz].
  destruct z as [|z0 [|z1 z]]; try discriminate.
  simpl in Hz. rewrite andb_true_r in Hz. apply rows_ok_zero_nil in Hz. subst z0.
  reflexivity.
Qed.

Lemma cat2_empty_l (rk x : T4 A) (bs nh n d : nat) (q : list (list A) -> bool) :
  shape rk = [bs; nh; 0; d]%nat ->
  rows_ok bs (rows_ok nh (rows_ok 0 (fun _ : list A => true))) (elems rk) = true ->
  shape x = [bs; nh; n; d] ->
  rows_ok bs (rows_ok nh q) (elems x) = true ->
  cat2 rk x = Ok x.
Proof.
  intros Hrs Hr Hxs Hx. unfold cat2. rewrite Hrs, Hxs, !Nat.eqb_refl. cbn [andb].
  rewrite (cat_rows2_nil_l bs nh _ _ Hr Hx).
  destruct x as [sh el]. simpl in *. now subst sh.
Qed.

Lemma cat2_empty_r (rk x : T4 A) (bs nh n d : nat) (q : list (list A) -> bool) :
  shape rk = [bs; nh; 0; d]%nat ->
  rows_ok bs (rows_ok nh (rows_ok 0 (fun _ : list A => true))) (elems rk) = true ->
  shape x = [bs; nh; n; d] ->
  rows_ok bs (rows_ok nh q) (elems x) = true ->
  cat2 x rk = Ok x.
Proof.
  intros Hrs Hr Hxs Hx. unfold cat2. rewrite Hrs, Hxs, !Nat.eqb_refl. cbn [andb].
  rewrite (cat_rows2_nil_r bs nh _ _ Hr Hx). rewrite Nat.add_0_r.
  destruct x as [sh el]. simpl in *. now subst sh.
Qed.

(** the first entry and the rest, put together again *)
Lemma cat2_split (x : T4 A) (bs nh n d : nat) (i : Z) :
  shape x = [bs; nh; n; d] ->
  rows_ok bs (rows_ok nh (rows_ok n (fun _ : list A => true))) (elems x) = true ->
  cat2 (to_dim2 x i) (from_dim2 x i) = Ok x.
Proof.
  intros Hs Hr. unfold cat2, to_dim2, from_dim2. rewrite Hs. cbn [shape elems].
  rewrite !Nat.eqb_refl. cbn [andb].
  pose proof (slice_bound_le n i) as Hle.
  replace (slice_bound n i + (n - slice_bound n i))%nat with n by lia.
  destruct x as [sh el]. simpl in *. subst sh. do 2 f_equal.
  rewrite map2_map_map.
  apply rows_ok_inv in Hr. destruct Hr as [_ Hr].
  eapply map_id_on; [ | exact Hr ]. intros y Hy. cbv beta.
  rewrite map2_map_map.
  apply rows_ok_inv in Hy. destruct Hy as [_ Hy].
  eapply map_id_on; [ | exact Hy ]. intros z Hz. cbv beta.
  unfold slice_to, slice_from. apply firstn_skipn.
Qed.

(** a mask extended by no column is the mask *)
Lemma cat3_zeros_l (z : A) (m : T4 A) (a b c e : nat) :
  wf4 m = true -> shape m = [a; b; c; e] ->
  cat3 (zeros4 z a b c 0) m = Ok m.
Proof.
  intros Hwf Hs. destruct (wf4_shape m Hwf) as (a' & b' & c' & e' & Hs' & Hr).
  rewrite Hs in Hs'. injection Hs' as <- <- <- <-.
  unfold cat3, zeros4. cbn [shape elems]. rewrite Hs, !Nat.eqb_refl. cbn [andb].
  rewrite (cat_rows3_nil_l (p := fun _ => true) a b c
             (rows_ok e (fun _ => true))
             (repeat (repeat (repeat (repeat z 0) c) b) a) (elems m)).
  - destruct m as [sh el]. simpl in *. now subst sh.
  - repeat apply rows_ok_repeat. reflexivity.
  - exact Hr.
Qed.

(** the last [n] rows of a block of at most [n] rows are the block *)
Lemma last_dim2_id (x : T4 A) (a b c d n : nat) :
  wf4 x = true -> shape x = [a; b; c; d] -> (c <= n)%nat ->
  last_dim2 x (Z.of_nat n) = x.
Proof.
  intros Hwf Hs Hc. destruct (wf4_shape x Hwf) as (a' & b' & c' & d' & Hs' & Hr).
  rewrite Hs in Hs'. injection Hs' as <- <- <- <-.
  unfold last_dim2. rewrite Hs.
  assert (Hb : forall len, (len <= n)%nat -> slice_bound len (- Z.of_nat n) = 0%nat).
  { intros len Hlen. unfold slice_bound.
    destruct (- Z.of_nat n <? 0) eqn:E; [ | apply Z.ltb_ge in E ]; lia. }
  rewrite (Hb c Hc), Nat.sub_0_r.
  destruct x as [sh el]. simpl in *. subst sh. f_equal.
  apply rows_ok_inv in Hr. destruct Hr as [_ Hr].
  eapply map_id_on; [ | exact Hr ]. intros y Hy. cbv beta.
  apply rows_ok_inv in Hy. destruct Hy as [_ Hy].
  eapply map_id_on; [ | exact Hy ]. intros rows Hrows. cbv beta.
  apply rows_ok_inv in Hrows. destruct Hrows as [Hl _].
  unfold slice_from. rewrite Hb by lia. reflexivity.
Qed.

End TensorCat.

Section AttnProps.
Context {F Index : Type}.
Variable torch : Torch F.
Variable fzero : F.

Local Abbreviation layer := (@T5Attention.t F Index).
Local Abbreviation mem_attn := (@MemTransAttn.t F Index).

(** With top-k width 0 the bias of the fused path is the bias of the host:
    the mask gets no column, the positions no offset. *)
Lemma update_mask_and_position_bias_topk0 (ori_attn : layer) (mask : option (T4 F))
  (real_seq_length key_length : Z) (sl : nat) :
  match mask with Some m => wf4 m = true | None => True end ->
  update_mask_and_position_bias torch fzero ori_attn mask sl real_seq_length key_length 0
  = let pb := last_dim2 (T5Attention.compute_bias ori_attn real_seq_length key_length)
                (Z.of_nat sl) in
    match mask with
    | Some m => add torch pb m
    | None => Ok pb
    end.
Proof.
  intros Hm. unfold update_mask_and_position_bias.
  destruct mask as [m|]; [ | reflexivity ].
  destruct (wf4_shape m Hm) as (a & b & c & e & Hs & _).
  rewrite Hs. rewrite (cat3_zeros_l fzero m a b c e Hm Hs). reflexivity.
Qed.

Lemma init_position_bias_with_bias (l : layer) (past : option (T4 F * T4 F))
  (mask : option (T4 F)) (real_seq_length key_length : Z) :
  T5Attention.has_relative_attention_bias l = true ->
  (past = None -> real_seq_length = 1) ->
  wf4 (T5Attention.compute_bias l real_seq_length key_length) = true ->
  nth_error (shape (T5Attention.compute_bias l real_seq_length key_length)) 2
  = Some (Z.to_nat real_seq_length) ->
  init_position_bias torch fzero l past mask real_seq_length key_length 1
  = let pb := last_dim2 (T5Attention.compute_bias l real_seq_length key_length) 1 in
    match mask with
    | Some m => add torch pb m
    | None => Ok pb
    end.
Proof.
  intros Hb Hpast Hwf Hdim. unfold init_position_bias. rewrite Hb. cbn [negb].
  destruct past as [p|]; [reflexivity | ].
  specialize (Hpast eq_refl). subst real_seq_length.
  destruct (wf4_shape _ Hwf) as (a & b & c & e & Hs & _).
  rewrite Hs in Hdim. simpl in Hdim. injection Hdim as ->.
  pose proof (last_dim2_id _ a b _ e 1%nat Hwf Hs) as Hid.
  change (Z.of_nat 1) with 1 in Hid. cbv zeta.
  rewrite Hid by (simpl; lia). reflexivity.
Qed.

(** C2. Single-token decoding with retrieved tensors of top-k width 0:
    [attn] returns the attention weights and the attention output of
    [original_attn] on the same query, keys, values, mask and lengths (and
    raises where it raises), for the position bias the host uses: computed
    by the layer's own relative bias or handed on from the first layer. *)
Theorem attn_topk0_original_attn
  (self : mem_attn) (ori_attn first_layer : layer)
  (query_states key_states value_states : T4 F) (ret_ks ret_vs : T5 F)
  (mask : option (T4 F)) (past_key_value : option (T4 F * T4 F))
  (position_bias : option (T4 F))
  (real_seq_length key_length : Z) (bs nh kl d : nat) :
  shape query_states = [bs; nh; 1; d]%nat ->
  wf4 key_states = true -> shape key_states = [bs; nh; kl; d] ->
  wf4 value_states = true -> shape value_states = [bs; nh; kl; d] ->
  wf5 ret_ks = true -> shape ret_ks = [bs; nh; 1; 0; d]%nat ->
  wf5 ret_vs = true -> shape ret_vs = [bs; nh; 1; 0; d]%nat ->
  match mask with Some m => wf4 m = true | None => True end ->
  real_seq_length = key_length ->
  (past_key_value = None -> real_seq_length = 1) ->
  wf4 (T5Attention.compute_bias ori_attn real_seq_length key_length) = true ->
  nth_error (shape (T5Attention.compute_bias ori_attn real_seq_length key_length)) 2
  = Some (Z.to_nat real_seq_length) ->
  T5Attention.has_relative_attention_bias first_layer = true ->
  T5Attention.compute_bias first_layer = T5Attention.compute_bias ori_attn ->
  match position_bias with
  | None => T5Attention.has_relative_attention_bias ori_attn = true
  | Some pb =>
      init_position_bias torch fzero first_layer past_key_value mask
        real_seq_length key_length 1 = Ok pb
  end ->
  attn torch fzero self ori_attn query_states key_states value_states ret_ks ret_vs
    mask None real_seq_length key_length
  = (r <- original_attn torch fzero ori_attn query_states key_states value_states
            past_key_value position_bias mask None real_seq_length key_length ;;
     let '(w, out, _) := r in Ok (w, out)).
Proof.
  intros Hq Wk Sk Wv Sv Wrk Srk Wrv Srv Hm Hlen Hpast Wcb Dcb Hfb Hfc Hpb.
  destruct (squeeze2_empty ret_ks bs nh d Wrk Srk) as (rk & Erk & Srk' & Rrk).
  destruct (squeeze2_empty ret_vs bs nh d Wrv Srv) as (rv & Erv & Srv' & Rrv).
  destruct (wf4_shape _ Wk) as (a1 & b1 & c1 & d1 & Sk' & Rk).
  rewrite Sk in Sk'. injection Sk' as <- <- <- <-.
  destruct (wf4_shape _ Wv) as (a2 & b2 & c2 & d2 & Sv' & Rv).
  rewrite Sv in Sv'. injection Sv' as <- <- <- <-.
  (* the keys and values the scores are computed on are the local ones *)
  assert (Ekv : forall x : T4 F,
             shape x = [bs; nh; kl; d] ->
             rows_ok bs (rows_ok nh (rows_ok kl (rows_ok d (fun _ => true)))) (elems x) = true ->
             forall r : T4 F,
               shape r = [bs; nh; 0; d]%nat ->
               rows_ok bs (rows_ok nh (rows_ok 0 (fun _ : list F => true))) (elems r) = true ->
               cat2 r x = Ok x
               /\ cat2 (to_dim2 x 1) r = Ok (to_dim2 x 1)
               /\ cat2 (to_dim2 x 1) (from_dim2 x 1) = Ok x).
  { intros x Sx Rx r Sr Rr. split; [ | split ].
    - exact (cat2_empty_l r x bs nh kl d _ Sr Rr Sx Rx).
    - apply (cat2_empty_r r (to_dim2 x 1) bs nh (slice_bound kl 1) d
               (fun _ => true) Sr Rr).
      + unfold to_dim2. now rewrite Sx.
      + unfold to_dim2. rewrite Sx. cbn [elems].
        revert Rx. apply rows_ok_map. intros y. apply rows_ok_map. reflexivity.
    - assert (Rx' : rows_ok bs (rows_ok nh (rows_ok kl (fun _ : list F => true))) (elems x) = true).
      { revert Rx. apply rows_ok_weaken. intros y. apply rows_ok_weaken.
        intros z. apply rows_ok_weaken. reflexivity. }
      exact (cat2_split x bs nh kl d 1 Sx Rx'). }
  destruct (Ekv key_states Sk Rk rk Srk' Rrk) as (Ek1 & Ek2 & Ek3).
  destruct (Ekv value_states Sv Rv rv Srv' Rrv) as (Ev1 & Ev2 & Ev3).
  (* the bias *)
  pose proof (update_mask_and_position_bias_topk0 ori_attn mask real_seq_length
                key_length 1 Hm) as Eup.
  assert (Epb : match position_bias with
                | Some pb => Ok pb
                | None =>
                    sl <- size_at query_states 2 ;;
                    init_position_bias torch fzero ori_attn past_key_value mask
                      real_seq_length key_length sl
                end
                = update_mask_and_position_bias torch fzero ori_attn mask 1
                    real_seq_length key_length 0).
  { rewrite Eup. destruct position_bias as [pb|].
    - rewrite <- Hpb. rewrite init_position_bias_with_bias; try assumption.
      + now rewrite Hfc.
      + now rewrite Hfc.
      + now rewrite Hfc.
    - unfold size_at. rewrite Hq. cbn [nth_error bind].
      now rewrite init_position_bias_with_bias. }
  unfold attn, original_attn. rewrite Hq, Epb.
  unfold size_at, size_neg2. rewrite Sk, Srk, Srv.
  cbn [nth_error rev app bind Nat.ltb Nat.leb Nat.eqb andb assert].
  apply Z.eqb_eq in Hlen. rewrite Hlen. cbn [assert bind].
  rewrite Erk, Erv. cbn [bind].
  destruct (MemTransAttn.add_after_first self && (key_length >? 1)).
  - rewrite Ek2. cbn [bind]. rewrite Ek3. cbn [bind].
    rewrite Ev2. cbn [bind]. rewrite Ev3. cbn [bind].
    unfold bind. repeat (case_match; try reflexivity).
  - rewrite Ek1. cbn [bind]. rewrite Ev1. cbn [bind].
    unfold bind. repeat (case_match; try reflexivity).
Qed.

End AttnProps.

(** ** MemTransAttn.retrieve *)

Section RetrieveProps.
Import MemTransAttn.
Context {F Index : Type}.
Variable index_search : Index -> T2 F -> Z -> T2 Z.
Variable fzero : F.
Variable strided_lookup3 : T3 F -> T1 Z -> T1 Z -> result (T4 F).
Variable strided_lookup1 : T1 Z -> T1 Z -> T1 Z -> result (T2 Z).

Local Abbreviation mta := (@MemTransAttn.t F Index).
Local Abbreviation knns := (@MemTransDatastore.knns F).
Local Abbreviation retrieve_ := (retrieve index_search fzero strided_lookup3 strided_lookup1).
Local Abbreviation lookup_ :=
  (retrieve_lookup index_search fzero strided_lookup3 strided_lookup1).
Local Abbreviation by_ids_ :=
  (MemTransDatastore.get_knns_by_ids (Index := Index) strided_lookup3 strided_lookup1).

Ltac mta_simpl :=
  cbn [set_dstore set_tracker set_by_ids_cache set_id_offset
       dstore topk stage track tracker by_ids by_ids_cache id_offset
       skip_retrieval_steps skip_first_token add_after_first is_track fst snd] in *.

(** tracking touches the tracker and nothing else *)
Lemma track_retrieval_frame (self : mta) (sl : nat) (r : knns) :
  exists tr, fst (track_retrieval self sl r) = set_tracker self tr.
Proof.
  unfold track_retrieval.
  destruct (is_track self) eqn:Et; [ | exists (tracker self); now destruct self ].
  destruct (tracker self) as [tr|] eqn:Etr; [ | exists None; destruct self; simpl in *; now subst ].
  repeat case_match; simpl;
    try (eexists; reflexivity);
    exists (Some tr); destruct self; simpl in *; now subst.
Qed.

(** the lookup sets the cache, or leaves the state alone *)
Lemma retrieve_lookup_state (self : mta) (qs : T3 F) (sl : nat) (kl : Z) (ids_ : T1 Z) :
  let s1 := fst (fst (lookup_ self qs sl kl ids_)) in
  s1 = self \/ exists c, s1 = set_by_ids_cache self c.
Proof.
  unfold retrieve_lookup. repeat case_match; simpl; auto; right; eexists; reflexivity.
Qed.

(** a call that is not multi-token: the lookup, then the tracker *)
Lemma retrieve_not_multi (self : mta) (q : T4 F) (bs nh sl d : nat) (kl : Z)
  (ids_ : option (T1 Z)) :
  shape q = [bs; nh; sl; d] -> Nat.ltb 1 sl = false ->
  let ids' := match ids_ with Some x => x | None => arange_plus bs (id_offset self) end in
  let looked := lookup_ self (flatten_12 (permute_10 q)) sl kl ids' in
  let out := retrieve_ self q kl ids_ in
  (exists tr, fst (fst out) = set_tracker (fst (fst looked)) tr)
  /\ snd (fst out) = snd (fst looked)
  /\ (forall ks vs, snd out = Ok (ks, vs) ->
        exists r, snd looked = Ok r /\ retrieve_return r bs nh sl d = Ok (ks, vs)).
Proof.
  intros Hs Hsl. cbv zeta. unfold retrieve. rewrite Hs.
  destruct (retrieve_lookup _ _ _ _ _ _ _ _ _) as [[s1 log] found]. cbn [fst snd].
  destruct found as [r|e].
  - destruct (track_retrieval_frame s1 sl r) as [tr Htr].
    destruct (track_retrieval s1 sl r) as [s2 tracked]. cbn [fst] in Htr. subst s2.
    destruct tracked as [u|e]; cbn [fst snd].
    + rewrite Hsl. repeat split.
      * now exists tr.
      * intros ks vs H. now exists r.
    + repeat split; [now exists tr | discriminate].
  - repeat split; [ | discriminate ].
    exists (tracker s1). now destruct s1.
Qed.

Lemma effective_topk_skip (self : mta) (sl : nat) (kl : Z) :
  skip_for_retrieval self kl = true -> effective_topk self sl kl = 0.
Proof. intros H. unfold effective_topk. now rewrite H. Qed.

Lemma effective_topk_no_skip (self : mta) (kl : Z) :
  skip_for_retrieval self kl = false -> effective_topk self 1 kl = topk self.
Proof. intros H. unfold effective_topk. now rewrite H. Qed.

Lemma skip_for_retrieval_spec (self : mta) (kl : Z) :
  0 < skip_retrieval_steps self ->
  skip_for_retrieval self kl = (kl <=? skip_retrieval_steps self).
Proof.
  intros HN. unfold skip_for_retrieval.
  destruct (skip_retrieval_steps self =? 0) eqn:E; [apply Z.eqb_eq in E; lia | reflexivity].
Qed.

(** [get_knns] never searches when [topk <= 0], and what it returns then
    has top-k width 0 *)
Lemma get_knns_nonpositive (d0 : @MemTransDatastore.t F Index) (qs : T3 F) (k : Z)
  (ra : bool) :
  k <= 0 ->
  fst (MemTransDatastore.get_knns index_search fzero d0 qs k ra) = []
  /\ forall r, snd (MemTransDatastore.get_knns index_search fzero d0 qs k ra) = Ok r ->
        size_at (MemTransDatastore.ret_ks r) 2 = Ok 0%nat.
Proof.
  intros Hk. unfold MemTransDatastore.get_knns.
  destruct (shape qs) as [|a [|b [|c [|x s]]]]; try (split; [reflexivity | discriminate]).
  apply Z.leb_le in Hk. rewrite Hk.
  destruct ra; (split; [reflexivity | ]); intros r Hr; injection Hr as <-; reflexivity.
Qed.

Lemma truncated_to_zero_width (x : T4 F) (seq_len k : nat) :
  size_at x 1 = Ok seq_len ->
  size_at (MemTransDatastore.permute_2013
             (if Z.of_nat seq_len >? 0 then slice1_to x 0 else x)) 2 = Ok k ->
  k = 0%nat.
Proof.
  unfold size_at, MemTransDatastore.permute_2013.
  destruct x as [sh el]. cbn [shape].
  destruct sh as [|a [|b rest]]; try discriminate. cbn [nth_error].
  intros Hb. injection Hb as <-.
  destruct (Z.of_nat b >? 0) eqn:E.
  - unfold slice1_to. cbn [shape elems].
    replace (slice_bound b 0) with 0%nat by (unfold slice_bound; simpl; lia).
    destruct rest as [|c rest]; unfold permute_021, permute_10; cbn [shape elems nth_error];
      intros H; [discriminate | now injection H].
  - rewrite Z.gtb_ltb in E. apply Z.ltb_ge in E. assert (b = 0%nat) by lia. subst b.
    destruct rest as [|c rest]; unfold permute_021, permute_10; cbn [shape elems nth_error];
      intros H; [discriminate | now injection H].
Qed.

(** a lookup by ids cut to length 0 has top-k width 0 *)
Lemma get_knns_by_ids_zero (d0 : @MemTransDatastore.t F Index) (ids_ : T1 Z)
  (sf ra : bool) (r : knns) (k : nat) :
  by_ids_ d0 ids_ 0 sf ra = Ok r ->
  size_at (MemTransDatastore.ret_ks r) 2 = Ok k -> k = 0%nat.
Proof.
  unfold MemTransDatastore.get_knns_by_ids. intros H.
  repeat inv_bind H.
  injection H as <-. cbn [MemTransDatastore.ret_ks].
  eapply truncated_to_zero_width; eassumption.
Qed.

Lemma retrieve_return_shape (r : knns) (bs nh sl d : nat) (ks vs : T5 F) :
  retrieve_return r bs nh sl d = Ok (ks, vs) ->
  exists k, size_at (MemTransDatastore.ret_ks r) 2 = Ok k
    /\ shape ks = [bs; nh; sl; k; d] /\ shape vs = [bs; nh; sl; k; d].
Proof.
  unfold retrieve_return. intros H.
  destruct (size_at (MemTransDatastore.ret_ks r) 2) as [k|] eqn:Ek; [ | discriminate H ].
  cbn [bind] in H. unfold view5 in H.
  destruct (Nat.eqb (numel (shape (MemTransDatastore.ret_ks r))) _); [ | discriminate H ].
  cbn [bind] in H.
  destruct (Nat.eqb (numel (shape (MemTransDatastore.ret_vs r))) _); [ | discriminate H ].
  cbn [bind] in H. injection H as <- <-.
  exists k. repeat split.
Qed.

Lemma cache_from_config_set_tracker (self : mta) tr :
  cache_from_config strided_lookup3 strided_lookup1 self ->
  cache_from_config strided_lookup3 strided_lookup1 (set_tracker self tr).
Proof. unfold cache_from_config. now mta_simpl. Qed.

(** the lookup of a single-token call: what it asks, and that the cache
    stays one made under the configured [topk] *)
Lemma retrieve_lookup_single (self : mta) (qs : T3 F) (kl : Z) (ids_ : T1 Z) :
  cache_from_config strided_lookup3 strided_lookup1 self ->
  let looked := lookup_ self qs 1 kl ids_ in
  let k := effective_topk self 1 kl in
  cache_from_config strided_lookup3 strided_lookup1 (fst (fst looked))
  /\ (skip_for_retrieval self kl = true ->
       (snd (fst looked) = [get_knns_call 0 []]
        \/ snd (fst looked) = [get_knns_by_ids_call ids_ 0])
       /\ forall r w, snd looked = Ok r ->
            size_at (MemTransDatastore.ret_ks r) 2 = Ok w -> w = 0%nat)
  /\ (skip_for_retrieval self kl = false ->
       (exists s, snd (fst looked) = [get_knns_call (topk self) s])
       \/ snd (fst looked) = [get_knns_by_ids_call ids_ (topk self)]
       \/ (snd (fst looked) = [by_ids_cache_hit]
           /\ exists cached, by_ids_cache self = Some cached /\ snd looked = Ok cached)).
Proof.
  intros Hc. cbv zeta. unfold retrieve_lookup.
  destruct (skip_for_retrieval self kl) eqn:Eskip.
  - rewrite (effective_topk_skip self 1 kl Eskip). cbn [negb].
    destruct (by_ids self && Nat.eqb 1 1) eqn:Eb.
    + destruct (MemTransDatastore.get_knns_by_ids _ _ _ _ _ _ _) as [r|e] eqn:Er;
        cbn [fst snd].
      * split; [exact I | ]. split; [ | discriminate ].
        intros _. split; [now right | ].
        intros r' w Hr Hw. injection Hr as <-.
        exact (get_knns_by_ids_zero _ _ _ _ _ _ Er Hw).
      * split; [exact Hc | ]. split; [ | discriminate ].
        intros _. split; [now right | ]. discriminate.
    + pose proof (get_knns_nonpositive (dstore self) qs 0 (is_track self) (Z.le_refl 0))
        as [Hlog Hw0].
      destruct (MemTransDatastore.get_knns _ _ _ _ _ _) as [searches res]. cbn [fst snd] in *.
      subst searches. split; [exact Hc | ]. split; [ | discriminate ].
      intros _. split; [now left | ].
      intros r w Hr Hw. rewrite (Hw0 r Hr) in Hw. now injection Hw.
  - rewrite (effective_topk_no_skip self kl Eskip). cbn [negb].
    destruct (by_ids self && Nat.eqb 1 1) eqn:Eb.
    + destruct (by_ids_cache self) as [cached|] eqn:Ecache.
      * cbn [fst snd]. split; [exact Hc | ]. split; [discriminate | ].
        intros _. right. right. split; [reflexivity | ]. now exists cached.
      * destruct (MemTransDatastore.get_knns_by_ids _ _ _ _ _ _ _) as [r|e] eqn:Er;
          cbn [fst snd].
        -- split; [ | split; [discriminate | intros _; right; now left ] ].
           unfold cache_from_config. mta_simpl. now exists ids_.
        -- split; [exact Hc | ]. split; [discriminate | intros _; right; now left ].
    + destruct (MemTransDatastore.get_knns _ _ _ _ _ _) as [searches res]. cbn [fst snd].
      split; [exact Hc | ]. split; [discriminate | ].
      intros _. left. now exists searches.
Qed.

(** C7. With [skip_retrieval_steps = N > 0], take the [t]-th single-token
    decode call (the host's cache holds [t - 1] positions, so the forward
    pass computes [key_length = t]). If [t <= N] the topk handed to the
    datastore is 0, the index is not searched and what [retrieve] returns
    has top-k width 0. If [t > N] the topk handed on is the configured one;
    a hit of the by-id cache returns what a lookup under the configured topk
    had returned. *)
Theorem retrieve_skip_retrieval_steps (self : mta) (q : T4 F) (bs nh d t : nat)
  (past : option (T4 F * T4 F)) (ids_ : option (T1 Z)) :
  0 < skip_retrieval_steps self ->
  shape q = [bs; nh; 1; d]%nat ->
  (1 <= t)%nat ->
  match past with
  | None => t = 1%nat
  | Some (past_k, _) => size_at past_k 2 = Ok (t - 1)%nat
  end ->
  cache_from_config strided_lookup3 strided_lookup1 self ->
  let N := skip_retrieval_steps self in
  let ids' := match ids_ with Some x => x | None => arange_plus bs (id_offset self) end in
  let out := retrieve_ self q (Z.of_nat t) ids_ in
  let log := snd (fst out) in
  (rsl <- real_seq_length_of 1 past None ;; key_length_of rsl (@None (T3 F)))
  = Ok (Z.of_nat t)
  /\ cache_from_config strided_lookup3 strided_lookup1 (fst (fst out))
  /\ (Z.of_nat t <= N ->
      effective_topk self 1 (Z.of_nat t) = 0
      /\ (log = [get_knns_call 0 []] \/ log = [get_knns_by_ids_call ids' 0])
      /\ forall ks vs, snd out = Ok (ks, vs) ->
           shape ks = [bs; nh; 1; 0; d]%nat /\ shape vs = [bs; nh; 1; 0; d]%nat)
  /\ (N < Z.of_nat t ->
      effective_topk self 1 (Z.of_nat t) = topk self
      /\ ((exists s, log = [get_knns_call (topk self) s])
          \/ log = [get_knns_by_ids_call ids' (topk self)]
          \/ (log = [by_ids_cache_hit]
              /\ exists cached ids0,
                   by_ids_cache self = Some cached
                   /\ by_ids_ (dstore self) ids0 (topk self) (skip_first_token self)
                        (is_track self) = Ok cached))).
Proof.
  intros HN Hs Ht Hpast Hc. cbv zeta.
  destruct (retrieve_not_multi self q bs nh 1 d (Z.of_nat t) ids_ Hs eq_refl)
    as ([tr Hst] & Hlog & Hres).
  destruct (retrieve_lookup_single self (flatten_12 (permute_10 q)) (Z.of_nat t)
              (match ids_ with Some x => x | None => arange_plus bs (id_offset self) end) Hc)
    as (Hc1 & Hskip & Hnoskip).
  rewrite Hst, Hlog. rewrite (skip_for_retrieval_spec self _ HN) in Hskip, Hnoskip.
  split; [ | split; [ | split ] ].
  - destruct past as [[past_k past_v]|].
    + unfold real_seq_length_of. rewrite Hpast. cbn [bind key_length_of]. f_equal. lia.
    + subst t. reflexivity.
  - now apply cache_from_config_set_tracker.
  - intros Hle. apply Z.leb_le in Hle. destruct (Hskip Hle) as [Hl Hw].
    split; [ | split; [exact Hl | ] ].
    + apply effective_topk_skip. now rewrite skip_for_retrieval_spec.
    + intros ks vs Hout. destruct (Hres ks vs Hout) as (r & Hr & Hret).
      destruct (retrieve_return_shape r bs nh 1 d ks vs Hret) as (w & Hw1 & Hks & Hvs).
      rewrite (Hw r w Hr Hw1) in Hks, Hvs. now split.
  - intros Hgt. assert (Hf : (Z.of_nat t <=? skip_retrieval_steps self) = false)
      by (apply Z.leb_gt; lia).
    split.
    + apply effective_topk_no_skip. now rewrite skip_for_retrieval_spec.
    + destruct (Hnoskip Hf) as [H1 | [H2 | (H3 & cached & Hcached & _)]].
      * now left.
      * right. now left.
      * right. right. split; [exact H3 | ].
        unfold cache_from_config in Hc. rewrite Hcached in Hc.
        destruct Hc as [ids0 Hids0]. now exists cached, ids0.
Qed.






End RetrieveProps.

(** ** The forward pass *)

Ltac case_match_in H :=
  match type of H with
  | context [match ?x with _ => _ end] => destruct x eqn:?
  end.

Section ForwardProps.
Context {F Index : Type}.
Variable torch : Torch F.
Variable astype_float32 : F -> F.
Variable index_search : Index -> T2 F -> Z -> T2 Z.
Variable fzero : F.
Variable strided_lookup3 : T3 F -> T1 Z -> T1 Z -> result (T4 F).
Variable strided_lookup1 : T1 Z -> T1 Z -> T1 Z -> result (T2 Z).

Local Abbreviation layer := (@T5Attention.t F Index).
Local Abbreviation forward :=
  (t5attetnion_forward torch astype_float32 index_search fzero strided_lookup3
     strided_lookup1).

(** Whatever the stage, a forward pass that returns hands back the
    projected local keys and values as the cached state. *)
Lemma forward_present (self self' : layer) (hidden_states : T3 F)
  (mask : option (T4 F)) (key_value_states : option (T3 F))
  (position_bias : option (T4 F)) (past_key_value : option (T4 F * T4 F))
  (layer_head_mask : option (T1 F)) (query_length : option Z)
  (use_cache output_attentions : bool) (out : outputs) :
  forward self hidden_states mask key_value_states position_bias past_key_value
    layer_head_mask query_length use_cache output_attentions = (self', Ok out) ->
  exists (batch_size : nat) (key_states value_states : T4 F),
    nth_error (shape hidden_states) 0 = Some batch_size
    /\ project self batch_size hidden_states (T5Attention.k self) key_value_states
         (option_map fst past_key_value) = Ok key_states
    /\ project self batch_size hidden_states (T5Attention.v self) key_value_states
         (option_map snd past_key_value) = Ok value_states
    /\ present_key_value_state out
       = if T5Attention.is_decoder self && use_cache
         then Some (key_states, value_states) else None.
Proof.
  unfold t5attetnion_forward. intros H.
  destruct (shape hidden_states) as [|batch_size [|seq_length rest]]; try discriminate H.
  unfold bind in H.
  destruct (real_seq_length_of seq_length past_key_value query_length) as [rsl|];
    try discriminate H.
  destruct (key_length_of rsl key_value_states) as [kl|]; try discriminate H.
  destruct (shape_states self batch_size (T5Attention.q self hidden_states)) as [qs|];
    try discriminate H.
  destruct (project self batch_size hidden_states (T5Attention.k self) key_value_states
              (option_map fst past_key_value)) as [ks|] eqn:Ek; try discriminate H.
  destruct (project self batch_size hidden_states (T5Attention.v self) key_value_states
              (option_map snd past_key_value)) as [vs|] eqn:Ev; try discriminate H.
  exists batch_size, ks, vs. split; [reflexivity | ]. split; [exact Ek | ].
  split; [exact Ev | ].
  repeat case_match_in H; try discriminate H;
    injection H as _ <-; reflexivity.
Qed.

Lemma project_set_mta (self : layer) (m : @MemTransAttn.t F Index) (bs : nat)
  (hs : T3 F) (proj : T3 F -> T3 F) (kvs : option (T3 F)) (past : option (T4 F)) :
  project (T5Attention.set_mta self m) bs hs proj kvs past = project self bs hs proj kvs past.
Proof. reflexivity. Qed.

(** C9. In the retrieve stage the cached key/value state handed back to
    the host is the pair of projected local key and value states (the past
    cache with the new positions appended), or nothing when the layer does
    not cache. It is the same whatever the retrieval state is (datastore,
    topk, by-id cache, stage): nothing retrieved enters it. *)
Theorem forward_present_key_value_state (self self' : layer) (hidden_states : T3 F)
  (mask : option (T4 F)) (key_value_states : option (T3 F))
  (position_bias : option (T4 F)) (past_key_value : option (T4 F * T4 F))
  (layer_head_mask : option (T1 F)) (query_length : option Z)
  (use_cache output_attentions : bool) (out : outputs) :
  MemTransAttn.stage (T5Attention.mta self) = MemTransAttn.stage_retrieve ->
  forward self hidden_states mask key_value_states position_bias past_key_value
    layer_head_mask query_length use_cache output_attentions = (self', Ok out) ->
  (exists (batch_size : nat) (key_states value_states : T4 F),
      nth_error (shape hidden_states) 0 = Some batch_size
      /\ project self batch_size hidden_states (T5Attention.k self) key_value_states
           (option_map fst past_key_value) = Ok key_states
      /\ project self batch_size hidden_states (T5Attention.v self) key_value_states
           (option_map snd past_key_value) = Ok value_states
      /\ present_key_value_state out
         = if T5Attention.is_decoder self && use_cache
           then Some (key_states, value_states) else None)
  /\ forall (m : @MemTransAttn.t F Index) (self2 : layer) (out2 : outputs),
       forward (T5Attention.set_mta self m) hidden_states mask key_value_states
         position_bias past_key_value layer_head_mask query_length use_cache
         output_attentions = (self2, Ok out2) ->
       present_key_value_state out2 = present_key_value_state out.
Proof.
  intros _ H. pose proof (forward_present _ _ _ _ _ _ _ _ _ _ _ _ H) as Hp.
  split; [exact Hp | ].
  intros m self2 out2 H2.
  destruct Hp as (bs & ks & vs & Hbs & Hk & Hv & Hout).
  destruct (forward_present _ _ _ _ _ _ _ _ _ _ _ _ H2) as (bs2 & ks2 & vs2 & Hbs2 & Hk2 & Hv2 & Hout2).
  rewrite Hbs in Hbs2. injection Hbs2 as <-.
  rewrite project_set_mta in Hk2, Hv2.
  cbn [T5Attention.set_mta T5Attention.k T5Attention.v T5Attention.is_decoder] in *.
  rewrite Hk in Hk2. rewrite Hv in Hv2. injection Hk2 as <-. injection Hv2 as <-.
  now rewrite Hout, Hout2.
Qed.

End ForwardProps.

(** ** The theorems at sample inputs *)

(** three appends of 2, 2 and 1 entries to a store of three slots: the
    second is cut to one entry, the third to none *)
Example appends_cur_idx :
  map MemTransDatastore.cur_idx
    (MemTransDatastore.run (fun x => x) Samples.store3 Samples.appends) = [2; 3; 3]
  /\ map (fun c => snd (MemTransDatastore.apply_call (fun x => x) Samples.store3 c))
       Samples.appends = [Ok tt; Ok tt; Ok tt].
Proof. split; reflexivity. Qed.

(** with [topk = 1] the index of the one head is searched once *)
Example get_knns_searches :
  fst (MemTransDatastore.get_knns Samples.search0 0 AttnSamples.store_loaded
         Samples.queries2 1 false)
  = [MemTransDatastore.index_search_call 0 1].
Proof. reflexivity. Qed.

(** the third decode step with two cached positions: the fused weights span
    one retrieved and three local columns, the cached state handed back has
    the three local positions *)
Example forward_third_step :
  match snd (AttnSamples.forward_ (AttnSamples.layer_of AttnSamples.mta_skip2)
               AttnSamples.hidden1 None None None
               (Some (AttnSamples.keys2, AttnSamples.values2)) None None true true) with
  | Ok out =>
      option_map shape (attn_weights out) = Some [1; 1; 1; 4]%nat
      /\ option_map (fun p => shape (fst p)) (present_key_value_state out)
         = Some [1; 1; 3; 1]%nat
  | Raise _ => False
  end.
Proof. vm_compute. split; reflexivity. Qed.


Lemma attn_topk0_original_attn_witness :
  attn AttnSamples.torchZ 0 AttnSamples.mta_skip2
    (AttnSamples.layer_of AttnSamples.mta_skip2)
    AttnSamples.query1 AttnSamples.keys2 AttnSamples.values2
    AttnSamples.none_retrieved AttnSamples.none_retrieved None None 2 2
  = (r <- original_attn AttnSamples.torchZ 0 (AttnSamples.layer_of AttnSamples.mta_skip2)
            AttnSamples.query1 AttnSamples.keys2 AttnSamples.values2
            (Some AttnSamples.past1) None None None 2 2 ;;
     let '(w, out, _) := r in Ok (w, out)).
Proof.
  apply (attn_topk0_original_attn AttnSamples.torchZ 0 AttnSamples.mta_skip2
           (AttnSamples.layer_of AttnSamples.mta_skip2)
           (AttnSamples.layer_of AttnSamples.mta_skip2)
           AttnSamples.query1 AttnSamples.keys2 AttnSamples.values2
           AttnSamples.none_retrieved AttnSamples.none_retrieved
           None (Some AttnSamples.past1) None 2 2 1 1 2 1);
    try reflexivity; try exact I; discriminate.
Defined.

Lemma retrieve_skip_retrieval_steps_witness :
  0 < MemTransAttn.skip_retrieval_steps AttnSamples.mta_skip2
  /\ shape AttnSamples.query1 = [1; 1; 1; 1]%nat
  /\ MemTransAttn.effective_topk AttnSamples.mta_skip2 1 (Z.of_nat 1) = 0
  /\ snd (fst (AttnSamples.retrieve_ AttnSamples.mta_skip2 AttnSamples.query1 (Z.of_nat 1) None))
     = [MemTransAttn.get_knns_call 0 []].
Proof.
  split; [reflexivity | split; [reflexivity | ] ].
  pose proof (retrieve_skip_retrieval_steps Samples.search0 0
                AttnSamples.strided_lookup3 AttnSamples.strided_lookup1
                AttnSamples.mta_skip2 AttnSamples.query1 1 1 1 1 None None
                eq_refl eq_refl (le_n 1) eq_refl I) as H.
  cbv zeta in H. destruct H as (_ & _ & H & _).
  destruct (H ltac:(simpl; lia)) as (H1 & H2 & _).
  split; [exact H1 | ].
  destruct H2 as [H2 | H2]; [exact H2 | ].
  vm_compute in H2. discriminate H2.
Defined.

Lemma forward_present_key_value_state_witness :
  exists (self' : @T5Attention.t Z unit) (out : @outputs Z),
    AttnSamples.forward_ (AttnSamples.layer_of AttnSamples.mta_skip2) AttnSamples.hidden1
      None None None (Some (AttnSamples.keys2, AttnSamples.values2)) None None true true
    = (self', Ok out)
    /\ exists (batch_size : nat) (key_states value_states : T4 Z),
         project (AttnSamples.layer_of AttnSamples.mta_skip2) batch_size AttnSamples.hidden1
           (fun x => x) None (Some AttnSamples.keys2) = Ok key_states
         /\ project (AttnSamples.layer_of AttnSamples.mta_skip2) batch_size AttnSamples.hidden1
              (fun x => x) None (Some AttnSamples.values2) = Ok value_states
         /\ present_key_value_state out = Some (key_states, value_states).
Proof.
  destruct (AttnSamples.forward_ (AttnSamples.layer_of AttnSamples.mta_skip2)
              AttnSamples.hidden1 None None None
              (Some (AttnSamples.keys2, AttnSamples.values2)) None None true true)
    as [self' [out|e]] eqn:E; [ | vm_compute in E; discriminate E ].
  exists self', out. split; [reflexivity | ].
  destruct (proj1 (forward_present_key_value_state AttnSamples.torchZ (fun x => x)
                     Samples.search0 0 AttnSamples.strided_lookup3
                     AttnSamples.strided_lookup1
                     (AttnSamples.layer_of AttnSamples.mta_skip2) self'
                     AttnSamples.hidden1 None None None
                     (Some (AttnSamples.keys2, AttnSamples.values2)) None None true true
                     out eq_refl E))
    as (bs & ks & vs & _ & Hk & Hv & Hp).
  exists bs, ks, vs. repeat split; assumption.
Defined.



(** * Further properties of the datastore *)

Ltac dstore_simpl :=
  cbn [MemTransDatastore.set_keys MemTransDatastore.set_values
       MemTransDatastore.set_tokens MemTransDatastore.set_ids
       MemTransDatastore.set_cur_idx
       MemTransDatastore.size MemTransDatastore.dimension MemTransDatastore.n_heads
       MemTransDatastore.cur_idx MemTransDatastore.mode MemTransDatastore.keys
       MemTransDatastore.values MemTransDatastore.tokens MemTransDatastore.ids
       fst snd] in *.

(** ** The offsets of [load_index] *)

Section OffsetsLayout.
Import MemTransDatastore Spans.

(** entries equal to the current id are passed over *)
Lemma offsets_loop_same (p : Z) (n : nat) (rest : list Z) :
  forall i so eo,
    offsets_loop (repeat p n ++ rest) i p so eo
    = offsets_loop rest (i + Z.of_nat n) p so eo.
Proof.
  induction n as [|n IH]; intros i so eo.
  - simpl. now rewrite Z.add_0_r.
  - cbn [repeat app offsets_loop].
    destruct (p =? p + 1) eqn:E; [apply Z.eqb_eq in E; lia | ].
    rewrite Z.eqb_refl, IH. f_equal. lia.
Qed.

(** a block of the next id opens a span, and closes the one before it *)
Lemma offsets_loop_block (j : Z) (n : nat) (rest : list Z) :
  (0 < n)%nat ->
  forall i so eo,
    offsets_loop (repeat j n ++ rest) i (j - 1) so eo
    = offsets_loop rest (i + Z.of_nat n) j (so ++ [i])
        (if negb (Nat.eqb (length so) 0) then eo ++ [i] else eo).
Proof.
  intros Hn i so eo. destruct n as [|n]; [lia | ].
  cbn [repeat app offsets_loop].
  replace (j - 1 + 1) with j by lia. rewrite Z.eqb_refl.
  rewrite offsets_loop_same. f_equal. lia.
Qed.

Lemma offsets_loop_blocks (lens : list nat) :
  Forall (fun n => (0 < n)%nat) lens ->
  forall j i so eo, so <> [] ->
    offsets_loop (blocks j lens) i (j - 1) so eo
    = (so ++ starts i lens, eo ++ starts i lens, Ok tt).
Proof.
  induction 1 as [|n lens Hn Hall IH]; intros j i so eo Hso.
  - simpl. now rewrite !app_nil_r.
  - cbn [blocks starts]. rewrite offsets_loop_block by assumption.
    destruct so as [|s so]; [contradiction | ]. cbn [length Nat.eqb negb].
    replace j with (j + 1 - 1) at 2 by lia.
    rewrite IH by discriminate.
    now rewrite <- !app_assoc.
Qed.

Lemma starts_ends (lens : list nat) :
  forall i,
    starts i lens ++ [i + fold_right (fun n acc => Z.of_nat n + acc) 0 lens]
    = i :: ends i lens.
Proof.
  induction lens as [|n lens IH]; intros i.
  - simpl. now rewrite Z.add_0_r.
  - cbn [starts ends fold_right app]. f_equal.
    rewrite <- IH. f_equal. f_equal. lia.
Qed.

Lemma blocks_length (lens : list nat) :
  forall j,
    Z.of_nat (length (blocks j lens))
    = fold_right (fun n acc => Z.of_nat n + acc) 0 lens.
Proof.
  induction lens as [|n lens IH]; intros j; [reflexivity | ].
  cbn [blocks fold_right]. rewrite length_app, repeat_length, Nat2Z.inj_add.
  now rewrite IH.
Qed.

Lemma map2_sub_ends_starts (lens : list nat) :
  forall i, map2 Z.sub (ends i lens) (starts i lens) = map Z.of_nat lens.
Proof.
  induction lens as [|n lens IH]; intros i; [reflexivity | ].
  cbn [ends starts map2 map]. rewrite IH. f_equal. lia.
Qed.

Lemma starts_length (lens : list nat) : forall i, length (starts i lens) = length lens.
Proof. induction lens as [|n lens IH]; intros i; simpl; [ | rewrite IH ]; reflexivity. Qed.

Lemma ends_length (lens : list nat) : forall i, length (ends i lens) = length lens.
Proof. induction lens as [|n lens IH]; intros i; simpl; [ | rewrite IH ]; reflexivity. Qed.

(** what the loop and the closing steps make of such a sequence *)
Lemma build_offset_blocks (k : nat) (lens : list nat) :
  Forall (fun n => (0 < n)%nat) lens ->
  build_offset (repeat (-1) k ++ blocks 0 lens)
  = match lens with
    | [] => ([], [Z.of_nat k], Raise AssertionError)
    | _ => (starts (Z.of_nat k) lens, ends (Z.of_nat k) lens, Ok (map Z.of_nat lens))
    end.
Proof.
  intros Hall. unfold build_offset.
  rewrite offsets_loop_same. cbn [Z.add].
  rewrite length_app, repeat_length, Nat2Z.inj_add, (blocks_length lens 0).
  destruct lens as [|n lens].
  - simpl. now rewrite Z.add_0_r.
  - inversion Hall as [|? ? Hn Hrest]; subst.
    cbn [blocks]. replace (-1) with (0 - 1) by reflexivity.
    rewrite offsets_loop_block by assumption.
    cbn [length Nat.eqb negb app].
    replace 0 with (0 + 1 - 1) at 1 by reflexivity.
    rewrite offsets_loop_blocks by (assumption || discriminate).
    cbn [app fold_right].
    replace (Z.of_nat k + (Z.of_nat n + fold_right (fun n0 acc => Z.of_nat n0 + acc) 0 lens))
      with (Z.of_nat k + Z.of_nat n
            + fold_right (fun n0 acc => Z.of_nat n0 + acc) 0 lens) by lia.
    rewrite starts_ends.
    change (Z.of_nat k :: starts (Z.of_nat k + Z.of_nat n) lens)
      with (starts (Z.of_nat k) (n :: lens)).
    change ((Z.of_nat k + Z.of_nat n) :: ends (Z.of_nat k + Z.of_nat n) lens)
      with (ends (Z.of_nat k) (n :: lens)).
    rewrite starts_length, ends_length, Nat.eqb_refl.
    cbn [assert bind]. now rewrite map2_sub_ends_starts.
Qed.

(** a sequence the loop accepts is made of such blocks *)
Lemma offsets_loop_accepts (ids_ : list Z) :
  forall i prev so eo so' eo' u,
    offsets_loop ids_ i prev so eo = (so', eo', Ok u) ->
    exists (n : nat) (lens : list nat),
      Forall (fun m => (0 < m)%nat) lens
      /\ ids_ = repeat prev n ++ blocks (prev + 1) lens.
Proof.
  induction ids_ as [|x rest IH]; intros i prev so eo so' eo' u H.
  - exists 0%nat, []. split; [constructor | reflexivity].
  - cbn [offsets_loop] in H.
    destruct (x =? prev + 1) eqn:E1.
    + apply Z.eqb_eq in E1. subst x.
      apply IH in H. destruct H as (n & lens & Hall & ->).
      exists 0%nat, (S n :: lens). split; [constructor; [lia | assumption] | ].
      reflexivity.
    + destruct (x =? prev) eqn:E2; [ | discriminate ].
      apply Z.eqb_eq in E2. subst x.
      apply IH in H. destruct H as (n & lens & Hall & ->).
      exists (S n), lens. split; [assumption | reflexivity].
Qed.

Lemma offsets_loop_raises (ids_ : list Z) :
  forall i prev so eo so' eo' e,
    offsets_loop ids_ i prev so eo = (so', eo', Raise e) -> e = ValueError.
Proof.
  induction ids_ as [|x rest IH]; intros i prev so eo so' eo' e H.
  - discriminate.
  - cbn [offsets_loop] in H.
    destruct (x =? prev + 1); [now apply IH in H | ].
    destruct (x =? prev); [now apply IH in H | ].
    now injection H as _ _ <-.
Qed.

(** X1. [build_offset] inverts the layout: a sequence of consecutive
    examples 0, 1, ... of [lens] entries each (at least one example, each
    with at least one entry), also when it is preceded by entries equal to
    -1, gives the start offset and the end offset of every example and the
    lengths [lens]. *)
Theorem build_offset_of_blocks (k : nat) (lens : list nat) :
  lens <> [] ->
  Forall (fun n => (0 < n)%nat) lens ->
  build_offset (repeat (-1) k ++ blocks 0 lens)
  = (starts (Z.of_nat k) lens, ends (Z.of_nat k) lens, Ok (map Z.of_nat lens)).
Proof.
  intros Hne Hall. rewrite build_offset_blocks by assumption.
  destruct lens; [contradiction | reflexivity].
Qed.

(** X2. What [build_offset] returns tells what the id sequence is. It
    returns lengths exactly when the sequence is made of consecutive
    examples 0, 1, ... with at least one entry each (after any number of
    entries equal to -1), and then the lengths are those of the examples; it
    fails its assertion exactly when the sequence holds no example (it is
    empty or all -1); and it raises ValueError on every other sequence. *)
Theorem build_offset_cases (ids_ : list Z) :
  match snd (build_offset ids_) with
  | Ok lengths_ =>
      exists (k : nat) (lens : list nat),
        lens <> [] /\ Forall (fun n => (0 < n)%nat) lens
        /\ ids_ = repeat (-1) k ++ blocks 0 lens
        /\ lengths_ = map Z.of_nat lens
  | Raise AssertionError => exists k : nat, ids_ = repeat (-1) k
  | Raise ValueError =>
      forall (k : nat) (lens : list nat),
        Forall (fun n => (0 < n)%nat) lens -> ids_ <> repeat (-1) k ++ blocks 0 lens
  | Raise _ => False
  end.
Proof.
  destruct (offsets_loop ids_ 0 (-1) [] []) as [[so eo] [u|e]] eqn:E.
  - destruct (offsets_loop_accepts _ _ _ _ _ _ _ _ E) as (k & lens & Hall & ->).
    change (-1 + 1) with 0. rewrite build_offset_blocks by assumption.
    destruct lens as [|n lens]; cbn [snd].
    + exists k. now rewrite app_nil_r.
    + exists k, (n :: lens). repeat split; [discriminate | assumption].
  - pose proof (offsets_loop_raises _ _ _ _ _ _ _ _ E) as ->.
    unfold build_offset. rewrite E. cbn [snd].
    intros k lens Hall ->.
    pose proof (build_offset_blocks k lens Hall) as Hb.
    unfold build_offset in Hb. rewrite E in Hb.
    destruct lens; discriminate.
Qed.

End OffsetsLayout.

Lemma build_offset_of_blocks_witness :
  MemTransDatastore.build_offset (repeat (-1) 0 ++ Spans.blocks 0 [2; 3; 1]%nat)
  = ([0; 2; 5], [2; 5; 6], Ok [2; 3; 1]).
Proof.
  apply (build_offset_of_blocks 0 [2; 3; 1]%nat); [discriminate | ].
  repeat constructor.
Defined.

Section LoadIndexProps.
Import MemTransDatastore.
Context {F Index : Type}.
Variable read_index : Z -> result Index.

(** an id that is followed, anywhere later, by a smaller one *)
Lemma offsets_loop_out_of_order (a b : Z) (l2 l1 l3 : list Z) :
  b < a ->
  forall i prev so eo,
    snd (offsets_loop (l1 ++ a :: l2 ++ b :: l3) i prev so eo) = Raise ValueError.
Proof.
  revert a l1. induction l2 as [|c l2 IH]; intros a l1 Hab i prev so eo.
  - apply offsets_loop_rejects. now left.
  - destruct (Z_lt_ge_dec c a) as [Hc|Hc].
    + cbn [app]. apply offsets_loop_rejects. now left.
    + replace (l1 ++ a :: (c :: l2) ++ b :: l3) with ((l1 ++ [a]) ++ c :: l2 ++ b :: l3)
        by (now rewrite <- app_assoc).
      apply IH. lia.
Qed.

(** X3. When the id array holds a larger id anywhere before a smaller one,
    [load_index(build_offset=True)] raises ValueError and reads no index:
    [indices] and [lengths] stay as they were, and so do the stored arrays.
    The slots of a store that was not filled up to its capacity are such a
    case once an example with an id above 0 was saved: the unwritten slots
    hold 0. *)
Theorem load_index_rejects_out_of_order (self : @MemTransDatastore.t F Index)
  (idt : T1 Z) (l1 l2 l3 : list Z) (a b : Z) :
  ids self = Some idt ->
  elems idt = l1 ++ a :: l2 ++ b :: l3 ->
  b < a ->
  let out := load_index read_index self true in
  snd out = Raise ValueError
  /\ indices (fst out) = indices self
  /\ lengths (fst out) = lengths self
  /\ keys (fst out) = keys self /\ values (fst out) = values self
  /\ tokens (fst out) = tokens self /\ ids (fst out) = ids self
  /\ cur_idx (fst out) = cur_idx self.
Proof.
  intros Hi He Hab. cbv zeta. unfold load_index. rewrite Hi, He.
  pose proof (offsets_loop_out_of_order a b l2 l1 l3 Hab 0 (-1) [] []) as H.
  unfold build_offset.
  destruct (offsets_loop (l1 ++ a :: l2 ++ b :: l3) 0 (-1) [] []) as [[so eo] res].
  cbn [snd] in H. subst res. cbn [fst snd].
  unfold set_offsets. cbn. repeat split; try reflexivity; assumption.
Qed.

End LoadIndexProps.

Lemma load_index_rejects_out_of_order_witness :
  snd (MemTransDatastore.load_index (fun _ => Ok tt)
         (MemTransDatastore.set_ids Samples.store3 (Some (mkTensor [3]%nat [0; 1; 0])))
         true)
  = Raise ValueError.
Proof.
  exact (proj1 (load_index_rejects_out_of_order (fun _ => Ok tt)
                  (MemTransDatastore.set_ids Samples.store3
                     (Some (mkTensor [3]%nat [0; 1; 0])))
                  (mkTensor [3]%nat [0; 1; 0]) [0] [] [] 1 0
                  eq_refl eq_refl ltac:(lia))).
Defined.

(** ** [save_key_value]: what is stored stays stored *)

Lemma slice_to_write_rows {A : Type} (rows new : list A) (s : nat) (n : Z) :
  (s + length new <= length rows)%nat ->
  (slice_bound (length rows) n <= s)%nat ->
  slice_to (MemTransDatastore.write_rows rows s new) n = slice_to rows n.
Proof.
  intros Hfit Hn. unfold slice_to. rewrite write_rows_length by exact Hfit.
  set (b := slice_bound (length rows) n) in *.
  replace b with (Nat.min b s) by lia.
  rewrite <- !firstn_firstn. f_equal. apply write_rows_prefix. lia.
Qed.

Lemma map_map2_fst {A B C D : Type} (f : A -> B -> C) (g : C -> D) (g' : A -> D)
  (p : A -> bool) (q : B -> bool) (l : list A) (m : list B) :
  (forall a b, p a = true -> q b = true -> g (f a b) = g' a) ->
  length l = length m -> forallb p l = true -> forallb q m = true ->
  map g (map2 f l m) = map g' l.
Proof.
  intros Hf. revert m; induction l as [|a l IH]; intros [|b m] Hlen Hl Hm; simpl in *;
    try reflexivity; try discriminate.
  apply andb_prop in Hl. apply andb_prop in Hm.
  destruct Hl as [Ha Hl]. destruct Hm as [Hb Hm].
  rewrite (Hf a b Ha Hb). f_equal. apply IH; [lia | exact Hl | exact Hm].
Qed.

Section AppendOnly.
Import MemTransDatastore.
Context {F Index : Type}.
Variable astype_float32 : F -> F.

Local Abbreviation store := (@MemTransDatastore.t F Index).

Lemma memmap3_setitem_prefix (m : mmap_mode) (dst src res : T3 F) (s e n : Z) :
  memmap3_setitem m dst s e src = Ok res ->
  wf3 dst = true -> wf3 src = true -> 0 <= n <= s ->
  map (fun rows => slice_to rows n) (elems res)
  = map (fun rows => slice_to rows n) (elems dst).
Proof.
  unfold memmap3_setitem. intros H Hd Hs Hn.
  destruct m; try discriminate H.
  destruct (wf3_shape dst Hd) as (h & sz & d & Hsd & Hrd).
  destruct (wf3_shape src Hs) as (h' & k & d' & Hss & Hrs).
  rewrite Hsd, Hss in H.
  destruct (Nat.eqb h' h && Nat.eqb k (slice_bound sz e - slice_bound sz s) && Nat.eqb d' d)
    eqn:Ec; try discriminate H.
  injection H as <-. cbn [elems]. split_andb.
  repeat match goal with Hq : Nat.eqb _ _ = true |- _ => apply Nat.eqb_eq in Hq end.
  subst h' d'.
  apply rows_ok_inv in Hrd. destruct Hrd as [Hld Hrd].
  apply rows_ok_inv in Hrs. destruct Hrs as [Hls Hrs].
  eapply map_map2_fst; [ | lia | exact Hrd | exact Hrs ].
  intros rows new Hrows Hnew. cbv beta.
  apply rows_ok_inv in Hrows. destruct Hrows as [Hr1 _].
  apply rows_ok_inv in Hnew. destruct Hnew as [Hn1 _].
  pose proof (slice_bound_le sz s). pose proof (slice_bound_le sz e).
  apply slice_to_write_rows; [lia | ].
  rewrite Hr1. rewrite slice_bound_nonneg by lia.
  unfold slice_bound. destruct (s <? 0) eqn:E; [apply Z.ltb_lt in E; lia | lia].
Qed.

Lemma memmap1_setitem_prefix (m : mmap_mode) (dst src res : T1 Z) (s e n : Z) :
  memmap1_setitem m dst s e src = Ok res ->
  wf1 dst = true -> wf1 src = true -> 0 <= n <= s ->
  slice_to (elems res) n = slice_to (elems dst) n.
Proof.
  unfold memmap1_setitem. intros H Hd Hs Hn.
  destruct m; try discriminate H.
  destruct (wf1_shape dst Hd) as (sz & Hsd & Hld).
  destruct (wf1_shape src Hs) as (k & Hss & Hls).
  rewrite Hsd, Hss in H.
  destruct (Nat.eqb k (slice_bound sz e - slice_bound sz s)) eqn:Ec; try discriminate H.
  injection H as <-. cbn [elems]. apply Nat.eqb_eq in Ec.
  pose proof (slice_bound_le sz s). pose proof (slice_bound_le sz e).
  apply slice_to_write_rows; [lia | ].
  rewrite Hld. rewrite slice_bound_nonneg by lia.
  unfold slice_bound. destruct (s <? 0) eqn:E; [apply Z.ltb_lt in E; lia | lia].
Qed.

Lemma save_key_value_below (self : store) (k v : T3 F) (tk i : option (T1 Z)) (n : Z) :
  wf self = true -> call_wf (k, v, tk, i) = true ->
  0 <= n <= cur_idx self ->
  stored_below n (fst (save_key_value astype_float32 self k v tk i))
  = stored_below n self.
Proof.
  intros Hwf Hc Hn. unfold call_wf in Hc. split_andb.
  apply wf_wfP in Hwf.
  destruct Hwf as (P1 & P2 & P3 & P4 & P6 & P7 & P8 & P9 & tk0 & idt0 & Et & Ei & Pa & Pb & Pc & Pd).
  unfold save_key_value.
  destruct (save_key_value_checks self k v tk i) as [[[[[nt ks] vs] ts] iv]|e] eqn:Ec;
    [ | reflexivity ].
  destruct tk as [tk|]; [ | unfold save_key_value_checks in Ec; repeat inv_bind Ec; discriminate ].
  destruct i as [i|]; [ | unfold save_key_value_checks in Ec; repeat inv_bind Ec; discriminate ].
  destruct (checks_ok_wf _ _ _ _ _ _ _ _ _ _ Ec) as (Wk & Wv & Wt & Wi); try assumption.
  destruct (memmap3_setitem (mode self) (keys self) _ _ _) as [k'|] eqn:E1;
    [ | reflexivity ].
  pose proof (memmap3_setitem_prefix _ _ _ _ _ _ n E1 P6 (wf3_map _ _ Wk) Hn) as Hk'.
  dstore_simpl.
  destruct (memmap3_setitem (mode self) (values self) _ _ _) as [v'|] eqn:E2;
    [ | unfold stored_below; dstore_simpl; rewrite ?Et, ?Ei; cbn [option_map]; rewrite ?Hk', ?Hv', ?Ht', ?Hi'; reflexivity ].
  pose proof (memmap3_setitem_prefix _ _ _ _ _ _ n E2 P7 (wf3_map _ _ Wv) Hn) as Hv'.
  dstore_simpl. rewrite Et.
  destruct (memmap1_setitem (mode self) tk0 _ _ _) as [tk'|] eqn:E3;
    [ | unfold stored_below; dstore_simpl; rewrite ?Et, ?Ei; cbn [option_map]; rewrite ?Hk', ?Hv', ?Ht', ?Hi'; reflexivity ].
  pose proof (memmap1_setitem_prefix _ _ _ _ _ _ n E3 Pa (wf1_map _ _ Wt) Hn) as Ht'.
  dstore_simpl. rewrite Ei.
  destruct (memmap1_setitem (mode self) idt0 _ _ _) as [id'|] eqn:E4;
    [ | unfold stored_below; dstore_simpl; rewrite ?Et, ?Ei; cbn [option_map]; rewrite ?Hk', ?Hv', ?Ht', ?Hi'; reflexivity ].
  pose proof (memmap1_setitem_prefix _ _ _ _ _ _ n E4 Pb (wf1_map _ _ Wi) Hn) as Hi'.
  unfold stored_below; dstore_simpl; rewrite ?Et, ?Ei; cbn [option_map]; rewrite ?Hk', ?Hv', ?Ht', ?Hi'; reflexivity.
Qed.

Lemma run_below (calls : list call) :
  forall (self : store) (n : Z),
    wf self = true -> forallb call_wf calls = true ->
    0 <= n <= cur_idx self ->
    Forall (fun s => stored_below n s = stored_below n self)
      (run astype_float32 self calls).
Proof.
  induction calls as [|c rest IH]; intros self n Hwf Hcs Hn; cbn [run].
  - constructor.
  - cbn [forallb] in Hcs. apply andb_prop in Hcs. destruct Hcs as [Hc Hrest].
    pose proof (save_key_value_wf astype_float32 self c Hwf Hc) as Hwf'.
    destruct c as [[[k v] tk] i]. cbn [apply_call] in *.
    pose proof (save_key_value_below self k v tk i n Hwf Hc Hn) as Hstep.
    pose proof (save_key_value_cur_idx astype_float32 self k v tk i) as Hidx.
    cbv zeta in Hidx. destruct Hidx as (_ & _ & _ & _ & Hmono & _).
    constructor; [exact Hstep | ].
    specialize (IH _ n Hwf' Hrest ltac:(lia)).
    revert IH. apply Forall_impl. intros s Hs. now rewrite Hs.
Qed.

(** X4. The datastore is append-only: along every sequence of
    [save_key_value] calls, whether they succeed, get truncated or raise,
    the keys, values, tokens and ids that were stored below [cur_idx] when
    the sequence began are still there, unchanged, in every store reached. *)
Theorem save_key_value_append_only (self : store) (calls : list call) :
  wf self = true -> forallb call_wf calls = true ->
  Forall (fun s => stored_below (cur_idx self) s = stored_below (cur_idx self) self)
    (run astype_float32 self calls).
Proof.
  intros Hwf Hcs. apply run_below; try assumption.
  apply wf_wfP in Hwf. unfold wfP in Hwf. lia.
Qed.

(** the checks cut an overflowing batch to the room that is left *)
Lemma checks_trunc (self : store) (nt : nat) (k v : T3 F) (tk i : T1 Z) :
  0 <= n_heads self -> 0 <= dimension self ->
  cur_idx self <= size self ->
  shape k = [Z.to_nat (n_heads self); nt; Z.to_nat (dimension self)] ->
  shape v = [Z.to_nat (n_heads self); nt; Z.to_nat (dimension self)] ->
  shape tk = [nt] -> shape i = [nt] ->
  size self < cur_idx self + Z.of_nat nt ->
  let room := size self - cur_idx self in
  save_key_value_checks self k v (Some tk) (Some i)
  = Ok (room, t3_slice1_to k room, t3_slice1_to v room,
        t1_slice_to tk room, t1_slice_to i room).
Proof.
  intros Hh Hd Hc Sk Sv St Si Hover.
  destruct k as [sk ek], v as [sv ev], tk as [st et], i as [si ei].
  simpl in Sk, Sv, St, Si. subst sk sv st si.
  unfold save_key_value_checks, size_at. cbn [shape nth_error bind].
  rewrite Nat.eqb_refl. cbn [assert bind].
  rewrite !Z2Nat.id by assumption. rewrite !Z.eqb_refl. cbn [andb assert bind].
  apply Z.leb_le in Hc. rewrite Hc. cbn [assert bind].
  destruct (cur_idx self + Z.of_nat nt >? size self) eqn:E; [reflexivity | ].
  rewrite Z.gtb_ltb in E. apply Z.ltb_ge in E. lia.
Qed.

(** X5. A batch that does not fit is cut to the room that is left: it is
    stored exactly as its first [size - cur_idx] entries would be, the call
    returns normally, [cur_idx] ends at the capacity, and the slots from the
    old [cur_idx] to the end hold these first entries (keys and values as
    float32, tokens and ids as int32). *)
Theorem save_key_value_truncates (self : store) (nt : nat) (k v : T3 F) (tk i : T1 Z) :
  wf self = true -> batch_ok self nt (k, v, Some tk, Some i) = true ->
  mode self = mode_w_plus ->
  size self < cur_idx self + Z.of_nat nt ->
  let room := size self - cur_idx self in
  let out := save_key_value astype_float32 self k v (Some tk) (Some i) in
  out = save_key_value astype_float32 self
          (t3_slice1_to k room) (t3_slice1_to v room)
          (Some (t1_slice_to tk room)) (Some (t1_slice_to i room))
  /\ snd out = Ok tt
  /\ cur_idx (fst out) = size self
  /\ map (fun rows => slice_from rows (cur_idx self)) (elems (keys (fst out)))
     = map (fun rows => map (map astype_float32) (slice_to rows room)) (elems k)
  /\ map (fun rows => slice_from rows (cur_idx self)) (elems (values (fst out)))
     = map (fun rows => map (map astype_float32) (slice_to rows room)) (elems v)
  /\ option_map (fun x => slice_from (elems x) (cur_idx self)) (tokens (fst out))
     = Some (map to_int32 (slice_to (elems tk) room))
  /\ option_map (fun x => slice_from (elems x) (cur_idx self)) (ids (fst out))
     = Some (map to_int32 (slice_to (elems i) room)).
Proof.
  intros Hwf Hb Hm Hover. cbv zeta.
  pose proof Hb as Hb0.
  apply batch_ok_inv in Hb.
  destruct Hb as (k0 & v0 & tk0 & i0 & Heq & Wk & Wv & Wt & Wi & Sk & Sv & St & Si).
  injection Heq as <- <- <- <-.
  pose proof Hwf as Hwf0. apply wf_wfP in Hwf.
  destruct Hwf as (P1 & P2 & P3 & P4 & P6 & P7 & P8 & P9 & tks & idts & Et & Ei & Pa & Pb & Pc & Pd).
  set (room := size self - cur_idx self) in *.
  assert (Hroom : 0 <= room <= Z.of_nat nt) by (unfold room; lia).
  assert (Hsb : slice_bound nt room = Z.to_nat room) by (apply slice_bound_in; lia).
  (* the cut batch is a batch that fits *)
  assert (Hb' : batch_ok self (Z.to_nat room)
                  (t3_slice1_to k room, t3_slice1_to v room,
                   Some (t1_slice_to tk room), Some (t1_slice_to i room)) = true).
  { unfold batch_ok.
    rewrite (wf3_slice1_to k room Wk), (wf3_slice1_to v room Wv).
    rewrite (wf1_slice_to tk room Wt), (wf1_slice_to i room Wi).
    unfold t3_slice1_to, t1_slice_to. rewrite Sk, Sv, St, Si. cbn [shape hd].
    rewrite Hsb. cbn [andb].
    rewrite !(proj2 (shape_eqb_eq _ _) eq_refl). reflexivity. }
  assert (Hsame : save_key_value astype_float32 self k v (Some tk) (Some i)
                  = save_key_value astype_float32 self
                      (t3_slice1_to k room) (t3_slice1_to v room)
                      (Some (t1_slice_to tk room)) (Some (t1_slice_to i room))).
  { unfold save_key_value.
    rewrite (checks_trunc self nt k v tk i) by (assumption || lia).
    rewrite (checks_no_trunc self (Z.to_nat room)
               (t3_slice1_to k room) (t3_slice1_to v room)
               (t1_slice_to tk room) (t1_slice_to i room));
      try assumption; try lia;
      try (unfold t3_slice1_to, t1_slice_to; rewrite ?Sk, ?Sv, ?St, ?Si; cbn [shape hd];
           now rewrite Hsb).
    rewrite Z2Nat.id by lia. reflexivity. }
  split; [exact Hsame | ]. rewrite Hsame.
  pose proof (save_key_value_fits astype_float32 self (Z.to_nat room) _ Hwf0 Hb' Hm
                ltac:(lia)) as Hfit.
  cbv zeta in Hfit. cbn [apply_call] in Hfit.
  assert (Hwf' : wf (fst (save_key_value astype_float32 self
                            (t3_slice1_to k room) (t3_slice1_to v room)
                            (Some (t1_slice_to tk room)) (Some (t1_slice_to i room))))
                 = true).
  { apply (save_key_value_wf astype_float32 self
             (t3_slice1_to k room, t3_slice1_to v room,
              Some (t1_slice_to tk room), Some (t1_slice_to i room)) Hwf0).
    unfold call_wf.
    now rewrite (wf3_slice1_to k room Wk), (wf3_slice1_to v room Wv),
      (wf1_slice_to tk room Wt), (wf1_slice_to i room Wi). }
  pose proof (save_key_value_cur_idx astype_float32 self
                (t3_slice1_to k room) (t3_slice1_to v room)
                (Some (t1_slice_to tk room)) (Some (t1_slice_to i room))) as Hcfg.
  cbv zeta in Hcfg. destruct Hcfg as (Hsz & _).
  destruct (save_key_value astype_float32 self (t3_slice1_to k room) (t3_slice1_to v room)
              (Some (t1_slice_to tk room)) (Some (t1_slice_to i room))) as [self' res].
  destruct Hfit as (Hres & Hidx & Hk & Hv & Ht & Hi). cbn [fst snd].
  rewrite Z2Nat.id in Hidx, Hk, Hv, Ht, Hi by lia.
  assert (Hend : cur_idx self + room = size self) by (unfold room; lia).
  rewrite Hend in Hk, Hv, Ht, Hi.
  split; [exact Hres | ]. split; [lia | ].
  cbn [fst] in Hwf', Hsz. apply wf_wfP in Hwf'.
  destruct Hwf' as (_ & _ & _ & _ & Q6 & Q7 & Q8 & Q9 & tks' & idts' & Et' & Ei' & Qa & Qb & Qc & Qd).
  rewrite Hsz in Q8, Q9, Qc, Qd.
  assert (Hrows : forall (X : Type) (inner : list X -> bool) (rows : list (list X)),
             rows_ok (Z.to_nat (size self)) inner rows = true ->
             slice rows (cur_idx self) (size self) = slice_from rows (cur_idx self)).
  { intros X inner rows Hr. apply rows_ok_inv in Hr. destruct Hr as [Hl _].
    unfold slice, slice_from. rewrite Hl, !slice_bound_in by lia.
    apply firstn_all2. rewrite length_skipn. lia. }
  assert (Hflat : forall (l : list Z),
             length l = Z.to_nat (size self) ->
             slice l (cur_idx self) (size self) = slice_from l (cur_idx self)).
  { intros l Hl. unfold slice, slice_from. rewrite Hl, !slice_bound_in by lia.
    apply firstn_all2. rewrite length_skipn. lia. }
  destruct (wf3_shape _ Q6) as (a1 & b1 & c1 & S1 & R1). rewrite Q8 in S1.
  injection S1 as <- <- <-.
  destruct (wf3_shape _ Q7) as (a2 & b2 & c2 & S2 & R2). rewrite Q9 in S2.
  injection S2 as <- <- <-.
  apply rows_ok_inv in R1, R2. destruct R1 as [_ R1]. destruct R2 as [_ R2].
  assert (Hmap : forall (inner : list F -> bool) (l : list (list (list F))),
             forallb (rows_ok (Z.to_nat (size self)) inner) l = true ->
             map (fun rows => slice_from rows (cur_idx self)) l
             = map (fun rows => slice rows (cur_idx self) (size self)) l).
  { intros inner l Hl. induction l as [|r l IHl]; [reflexivity | ].
    cbn [forallb map] in *. apply andb_prop in Hl. destruct Hl as [Hr Hl].
    rewrite (Hrows _ _ _ Hr), IHl by assumption. reflexivity. }
  repeat split.
  - rewrite (Hmap _ _ R1), Hk. unfold t3_slice1_to. rewrite Sk. cbn [elems].
    now rewrite !map_map.
  - rewrite (Hmap _ _ R2), Hv. unfold t3_slice1_to. rewrite Sv. cbn [elems].
    now rewrite !map_map.
  - rewrite Et' in Ht |- *. cbn [option_map] in Ht |- *.
    destruct (wf1_shape _ Qa) as (n1 & Sn1 & Ln1). rewrite Qc in Sn1. injection Sn1 as <-.
    rewrite <- (Hflat _ Ln1). exact Ht.
  - rewrite Ei' in Hi |- *. cbn [option_map] in Hi |- *.
    destruct (wf1_shape _ Qb) as (n1 & Sn1 & Ln1). rewrite Qd in Sn1. injection Sn1 as <-.
    rewrite <- (Hflat _ Ln1). exact Hi.
Qed.

Lemma save_key_value_mode_r (self : store) (k v : T3 F) (tk i : option (T1 Z)) :
  mode self = mode_r ->
  fst (save_key_value astype_float32 self k v tk i) = self
  /\ exists e, snd (save_key_value astype_float32 self k v tk i) = Raise e
       /\ (forall b, save_key_value_checks self k v tk i = Ok b -> e = ValueError).
Proof.
  intros Hm. unfold save_key_value.
  destruct (save_key_value_checks self k v tk i) as [[[[[nt ks] vs] ts] iv]|e].
  - rewrite Hm. cbn [memmap3_setitem fst snd]. split; [reflexivity | ].
    exists ValueError. split; [reflexivity | intros; reflexivity].
  - cbn [fst snd]. split; [reflexivity | ].
    exists e. split; [reflexivity | discriminate].
Qed.

(** X6. A datastore that was opened read-only (mode 'r', the mode
    [load_or_init_dstore] picks when the key file exists) takes no entry:
    every [save_key_value] call raises, with ValueError as soon as the
    batch passes the shape checks, and no call of any sequence changes the
    store, [cur_idx] included. *)
Theorem save_key_value_read_only (self : store) (calls : list call) :
  mode self = mode_r ->
  (forall (k v : T3 F) (tk i : option (T1 Z)),
      fst (save_key_value astype_float32 self k v tk i) = self
      /\ exists e, snd (save_key_value astype_float32 self k v tk i) = Raise e
           /\ (forall b, save_key_value_checks self k v tk i = Ok b -> e = ValueError))
  /\ Forall (fun s => s = self) (run astype_float32 self calls).
Proof.
  intros Hm. split; [intros; now apply save_key_value_mode_r | ].
  induction calls as [|c rest IH]; cbn [run]; [constructor | ].
  destruct c as [[[k v] tk] i]. cbn [apply_call].
  rewrite (proj1 (save_key_value_mode_r self k v tk i Hm)).
  constructor; [reflexivity | exact IH].
Qed.

End AppendOnly.

Lemma save_key_value_append_only_witness :
  Forall (fun s =>
            MemTransDatastore.stored_below 2 s
            = ([[[11]; [12]]], [[[111]; [112]]], Some [11; 12], Some [0; 0]))
    (MemTransDatastore.run (fun x => x) MoreSamples.store3_two
       [Samples.batch2 13 14; Samples.batch1 15]).
Proof.
  exact (save_key_value_append_only (fun x => x) MoreSamples.store3_two
           [Samples.batch2 13 14; Samples.batch1 15] eq_refl eq_refl).
Defined.

Lemma save_key_value_truncates_witness :
  let out :=
    MemTransDatastore.save_key_value (fun x => x) MoreSamples.store3_two
      (mkTensor [1; 2; 1]%nat [[[13]; [14]]]) (mkTensor [1; 2; 1]%nat [[[113]; [114]]])
      (Some (mkTensor [2]%nat [13; 14])) (Some (mkTensor [2]%nat [1; 1])) in
  snd out = Ok tt /\ MemTransDatastore.cur_idx (fst out) = 3.
Proof.
  cbv zeta.
  destruct (save_key_value_truncates (fun x => x) MoreSamples.store3_two
              2 (mkTensor [1; 2; 1]%nat [[[13]; [14]]])
              (mkTensor [1; 2; 1]%nat [[[113]; [114]]])
              (mkTensor [2]%nat [13; 14]) (mkTensor [2]%nat [1; 1])
              eq_refl eq_refl eq_refl ltac:(simpl; lia)) as (_ & H1 & H2 & _).
  split; assumption.
Defined.

Lemma save_key_value_read_only_witness :
  Forall (fun s => s = MoreSamples.store3_r)
    (MemTransDatastore.run (fun x => x) MoreSamples.store3_r Samples.appends).
Proof.
  exact (proj2 (save_key_value_read_only (fun x => x) MoreSamples.store3_r
                  Samples.appends eq_refl)).
Defined.

(** ** [get_knns] with a positive [topk] *)

Lemma mapM_ok_map {A B : Type} (f : A -> result B) (g : A -> B) (l : list A) :
  Forall (fun x => f x = Ok (g x)) l -> mapM f l = Ok (map g l).
Proof.
  induction 1 as [|x l Hx Hl IH]; [reflexivity | ].
  cbn [mapM map]. now rewrite Hx, IH.
Qed.

Lemma getitem_in_range {A : Type} (a : list A) (e : Z) (d : A) :
  0 <= e < Z.of_nat (length a) -> getitem a e = Ok (nth (Z.to_nat e) a d).
Proof.
  intros He. unfold getitem.
  destruct (e <? 0) eqn:E; [apply Z.ltb_lt in E; lia | ].
  replace ((0 <=? e) && (e <? Z.of_nat (length a))) with true
    by (symmetry; apply andb_true_intro; split; [apply Z.leb_le | apply Z.ltb_lt]; lia).
  destruct (nth_error a (Z.to_nat e)) as [x|] eqn:En.
  - now rewrite (nth_error_nth _ _ d En).
  - apply nth_error_None in En. lia.
Qed.

Lemma gather_in_range {A : Type} (a : list A) (inner : list nat) (ix : T2 Z) (d : A) :
  Forall (Forall (fun e => 0 <= e < Z.of_nat (length a))) (elems ix) ->
  MemTransDatastore.gather a inner ix
  = Ok (mkTensor (shape ix ++ inner)
          (map (map (fun e => nth (Z.to_nat e) a d)) (elems ix))).
Proof.
  intros H. unfold MemTransDatastore.gather.
  rewrite (mapM_ok_map _ (map (fun e => nth (Z.to_nat e) a d))); [reflexivity | ].
  revert H. apply Forall_impl. intros row Hrow.
  apply mapM_ok_map. revert Hrow. apply Forall_impl. intros e He.
  now apply getitem_in_range.
Qed.

Section GetKnnsFound.
Import MemTransDatastore.
Context {F Index : Type}.
Variable index_search : Index -> T2 F -> Z -> T2 Z.
Variable fzero : F.

Local Abbreviation store := (@MemTransDatastore.t F Index).

(** what the search of head [h] finds, and the stored rows it points at *)
Local Abbreviation found_of queries topk ix d0 h :=
  (index_search (nth h ix d0)
     (mkTensor (tl (shape queries)) (nth h (elems queries) [])) topk).

Local Abbreviation rows_at queries topk ix d0 arr h :=
  (mkTensor (shape (found_of queries topk ix d0 h) ++ skipn 2 (shape arr))
     (map (map (fun e => nth (Z.to_nat e) (nth h (elems arr) []) []))
          (elems (found_of queries topk ix d0 h)))).

Local Abbreviation ints_at queries topk ix d0 arr h :=
  (mkTensor (shape (found_of queries topk ix d0 h) ++ [])
     (map (map (fun e => nth (Z.to_nat e) (elems arr) 0))
          (elems (found_of queries topk ix d0 h)))).

Lemma getitem_nat {A : Type} (l : list A) (h : nat) (d : A) :
  (h < length l)%nat -> getitem l (Z.of_nat h) = Ok (nth h l d).
Proof.
  intros Hh. rewrite (getitem_in_range l (Z.of_nat h) d) by lia.
  now rewrite Nat2Z.id.
Qed.

Lemma get_knns_loop_found (self : store) (queries : T3 F) (topk : Z) (return_all : bool)
  (ix : list Index) (d0 : Index) (tk idt : T1 Z) (heads : list nat) :
  wf self = true ->
  indices self = Some ix -> tokens self = Some tk -> ids self = Some idt ->
  Forall (fun h =>
            (h < length ix)%nat /\ (h < length (elems queries))%nat
            /\ (h < Z.to_nat (n_heads self))%nat
            /\ Forall (Forall (fun e => 0 <= e < size self))
                 (elems (found_of queries topk ix d0 h))) heads ->
  forall log aks avs ats aids,
    get_knns_loop index_search self queries topk return_all heads log aks avs ats aids
    = (log ++ map (fun h => index_search_call h topk) heads,
       Ok (aks ++ map (fun h => rows_at queries topk ix d0 (keys self) h) heads,
           avs ++ map (fun h => rows_at queries topk ix d0 (values self) h) heads,
           if return_all then ats ++ map (fun h => ints_at queries topk ix d0 tk h) heads else ats,
           if return_all then aids ++ map (fun h => ints_at queries topk ix d0 idt h) heads
           else aids)).
Proof.
  intros Hwf Hix Htk Hid. apply wf_wfP in Hwf.
  destruct Hwf as (P1 & P2 & P3 & P4 & P6 & P7 & P8 & P9 & tk0 & idt0 & Et & Ei & Pa & Pb & Pc & Pd).
  rewrite Htk in Et. injection Et as <-. rewrite Hid in Ei. injection Ei as <-.
  destruct (wf3_shape _ P6) as (a1 & b1 & c1 & S1 & R1). rewrite P8 in S1.
  injection S1 as <- <- <-.
  destruct (wf3_shape _ P7) as (a2 & b2 & c2 & S2 & R2). rewrite P9 in S2.
  injection S2 as <- <- <-.
  apply rows_ok_inv in R1, R2. destruct R1 as [L1 R1]. destruct R2 as [L2 R2].
  destruct (wf1_shape _ Pa) as (n1 & Sn1 & Ln1). rewrite Pc in Sn1. injection Sn1 as <-.
  destruct (wf1_shape _ Pb) as (n2 & Sn2 & Ln2). rewrite Pd in Sn2. injection Sn2 as <-.
  induction 1 as [|h heads (Hh1 & Hh2 & Hh3 & Hin) Hrest IH]; intros log aks avs ats aids.
  - cbn [get_knns_loop map]. rewrite !app_nil_r. now destruct return_all.
  - cbn [get_knns_loop]. unfold get_knns_head_query. rewrite Hix. cbn [bind].
    rewrite (getitem_nat ix h d0 Hh1). cbn [bind].
    rewrite (getitem_nat (elems queries) h [] Hh2). cbn [bind].
    unfold get_knns_head_gather.
    rewrite (getitem_nat (elems (keys self)) h []) by lia. cbn [bind].
    assert (Hrow : forall (arr : list (list (list F))),
               forallb (rows_ok (Z.to_nat (size self))
                          (rows_ok (Z.to_nat (dimension self)) (fun _ => true))) arr = true ->
               (h < length arr)%nat ->
               length (nth h arr []) = Z.to_nat (size self)).
    { intros arr Harr Hlt. rewrite forallb_forall in Harr.
      specialize (Harr (nth h arr []) (nth_In _ _ Hlt)).
      now apply rows_ok_inv in Harr. }
    assert (Hin' : forall n : nat, n = Z.to_nat (size self) ->
               Forall (Forall (fun e => 0 <= e < Z.of_nat n))
                 (elems (found_of queries topk ix d0 h))).
    { intros n ->. revert Hin. apply Forall_impl. intros row. apply Forall_impl.
      intros e He. lia. }
    rewrite (gather_in_range _ _ _ [] (Hin' _ (Hrow _ R1 ltac:(lia)))). cbn [bind].
    rewrite (getitem_nat (elems (values self)) h []) by lia. cbn [bind].
    rewrite (gather_in_range _ _ _ [] (Hin' _ (Hrow _ R2 ltac:(lia)))). cbn [bind].
    destruct return_all.
    + rewrite Htk, Hid. cbn [bind].
      rewrite (gather_in_range _ _ _ 0 (Hin' _ Ln1)). cbn [bind].
      rewrite (gather_in_range _ _ _ 0 (Hin' _ Ln2)). cbn [bind].
      rewrite IH. cbn [map]. now rewrite <- !app_assoc.
    + rewrite IH. cbn [map]. now rewrite <- !app_assoc.
Qed.

Lemma stack0_uniform {E : Type} (ts : list (Tensor E)) (sh : list nat) :
  ts <> [] -> Forall (fun x => shape x = sh) ts ->
  stack0 ts = Ok (mkTensor (length ts :: sh) (map elems ts)).
Proof.
  intros Hne Hall. unfold stack0. destruct ts as [|t0 ts']; [contradiction | ].
  pose proof (Forall_inv Hall) as H0. cbv beta in H0. rewrite H0.
  replace (forallb (fun x => shape_eqb (shape x) sh) (t0 :: ts')) with true; [reflexivity | ].
  symmetry. apply forallb_forall. intros x Hx.
  rewrite Forall_forall in Hall. rewrite (Hall x Hx). now apply shape_eqb_eq.
Qed.

Lemma nth_error_map_seq {A : Type} (f : nat -> A) (n h : nat) :
  (h < n)%nat -> nth_error (map f (seq 0 n)) h = Some (f h).
Proof.
  intros Hh. rewrite nth_error_map.
  rewrite (nth_error_nth' (seq 0 n) 0%nat) by (now rewrite length_seq).
  now rewrite seq_nth.
Qed.

(** X7. With a positive [topk], [get_knns] searches the index of every
    head once, in head order and with the caller's [topk]; when each search
    returns a (batch_size, k) tensor of row numbers that lie within the
    store, the call returns tensors of shape (n_heads, batch_size, k, dim)
    in which the block of head [h] is the search result of head [h] with
    every row number replaced by the key (the value) that this head stores
    at that row, and, with [return_all], by the token and the id stored at
    that row. *)
Theorem get_knns_returns_found (self : store) (queries : T3 F) (topk : Z)
  (return_all : bool) (nh bs dq k : nat) (ix : list Index) (tk idt : T1 Z) :
  wf self = true ->
  n_heads self = Z.of_nat nh -> (0 < nh)%nat ->
  indices self = Some ix -> length ix = nh ->
  tokens self = Some tk -> ids self = Some idt ->
  shape queries = [nh; bs; dq] -> length (elems queries) = nh ->
  0 < topk ->
  (forall h index qh,
      nth_error ix h = Some index -> nth_error (elems queries) h = Some qh ->
      shape (index_search index (mkTensor [bs; dq] qh) topk) = [bs; k]
      /\ Forall (Forall (fun e => 0 <= e < size self))
           (elems (index_search index (mkTensor [bs; dq] qh) topk))) ->
  exists r,
    get_knns index_search fzero self queries topk return_all
    = (map (fun h => index_search_call h topk) (seq 0 nh), Ok r)
    /\ shape (ret_ks r) = [nh; bs; k; Z.to_nat (dimension self)]
    /\ shape (ret_vs r) = [nh; bs; k; Z.to_nat (dimension self)]
    /\ (if return_all
        then option_map shape (ret_ts r) = Some [nh; bs; k]
             /\ option_map shape (ret_ids r) = Some [nh; bs; k]
        else ret_ts r = None /\ ret_ids r = None)
    /\ forall h index qh krows vrows,
         nth_error ix h = Some index -> nth_error (elems queries) h = Some qh ->
         nth_error (elems (keys self)) h = Some krows ->
         nth_error (elems (values self)) h = Some vrows ->
         let found := elems (index_search index (mkTensor [bs; dq] qh) topk) in
         nth_error (elems (ret_ks r)) h
         = Some (map (map (fun e => nth (Z.to_nat e) krows [])) found)
         /\ nth_error (elems (ret_vs r)) h
            = Some (map (map (fun e => nth (Z.to_nat e) vrows [])) found)
         /\ (return_all = true ->
             option_map (fun x => nth_error (elems x) h) (ret_ts r)
             = Some (Some (map (map (fun e => nth (Z.to_nat e) (elems tk) 0)) found))
             /\ option_map (fun x => nth_error (elems x) h) (ret_ids r)
                = Some (Some (map (map (fun e => nth (Z.to_nat e) (elems idt) 0)) found))).
Proof.
  intros Hwf Hnh Hpos Hix Hlen Htk Hid Hq Hql Htopk Hsearch.
  destruct ix as [|d0 ix']; [simpl in Hlen; lia | ].
  set (ix := d0 :: ix') in *.
  assert (Hfound : forall h, (h < nh)%nat ->
             shape (found_of queries topk ix d0 h) = [bs; k]
             /\ Forall (Forall (fun e => 0 <= e < size self))
                  (elems (found_of queries topk ix d0 h))).
  { intros h Hh. rewrite Hq. cbn [tl].
    apply (Hsearch h); apply nth_error_nth'; lia. }
  pose proof Hwf as Hwf0. apply wf_wfP in Hwf.
  destruct Hwf as (P1 & P2 & P3 & P4 & P6 & P7 & P8 & P9 & _).
  unfold get_knns. rewrite Hq.
  destruct (topk <=? 0) eqn:E; [apply Z.leb_le in E; lia | ].
  rewrite Hnh, Nat2Z.id.
  rewrite (get_knns_loop_found self queries topk return_all ix d0 tk idt (seq 0 nh)
             Hwf0 Hix Htk Hid).
  2:{ apply Forall_forall. intros h Hh. apply in_seq in Hh.
      repeat split; try lia. now apply Hfound. }
  cbn [app].
  assert (Hne : forall (A : Type) (f : nat -> A), map f (seq 0 nh) <> []).
  { intros A f. destruct nh; [lia | discriminate]. }
  rewrite (stack0_uniform _ [bs; k; Z.to_nat (dimension self)]); [ | apply Hne | ].
  2:{ apply Forall_forall. intros x Hx. apply in_map_iff in Hx.
      destruct Hx as (h & <- & Hh). apply in_seq in Hh. cbn [shape].
      rewrite (proj1 (Hfound h ltac:(lia))), P8. reflexivity. }
  rewrite (stack0_uniform (map (fun h => rows_at queries topk ix d0 (values self) h) _)
             [bs; k; Z.to_nat (dimension self)]); [ | apply Hne | ].
  2:{ apply Forall_forall. intros x Hx. apply in_map_iff in Hx.
      destruct Hx as (h & <- & Hh). apply in_seq in Hh. cbn [shape].
      rewrite (proj1 (Hfound h ltac:(lia))), P9. reflexivity. }
  cbn [bind]. rewrite !length_map, length_seq.
  assert (Hnth : forall h index qh, nth_error ix h = Some index ->
             nth_error (elems queries) h = Some qh ->
             (h < nh)%nat
             /\ elems (found_of queries topk ix d0 h)
                = elems (index_search index (mkTensor [bs; dq] qh) topk)).
  { intros h index qh H1 H2.
    assert (Hh : (h < nh)%nat).
    { rewrite <- Hql. apply nth_error_Some. congruence. }
    split; [exact Hh | ].
    rewrite (nth_error_nth _ _ d0 H1), (nth_error_nth _ _ [] H2), Hq. reflexivity. }
  destruct return_all.
  - rewrite (stack0_uniform _ [bs; k]); [ | apply Hne | ].
    2:{ apply Forall_forall. intros x Hx. apply in_map_iff in Hx.
        destruct Hx as (h & <- & Hh). apply in_seq in Hh. cbn [shape].
        rewrite (proj1 (Hfound h ltac:(lia))). reflexivity. }
    rewrite (stack0_uniform (map (fun h => ints_at queries topk ix d0 idt h) _) [bs; k]);
      [ | apply Hne | ].
    2:{ apply Forall_forall. intros x Hx. apply in_map_iff in Hx.
        destruct Hx as (h & <- & Hh). apply in_seq in Hh. cbn [shape].
        rewrite (proj1 (Hfound h ltac:(lia))). reflexivity. }
    cbn [bind]. rewrite !length_map, length_seq.
    eexists. split; [reflexivity | ].
    cbn [ret_ks ret_vs ret_ts ret_ids shape elems option_map].
    split; [reflexivity | ]. split; [reflexivity | ]. split; [now split | ].
    intros h index qh krows vrows H1 H2 H3 H4.
    destruct (Hnth h index qh H1 H2) as [Hh Hf]. cbv zeta.
    rewrite !map_map, !nth_error_map_seq by exact Hh. cbn [elems].
    rewrite Hf, (nth_error_nth _ _ [] H3), (nth_error_nth _ _ [] H4).
    repeat split.
  - eexists. split; [reflexivity | ].
    cbn [ret_ks ret_vs ret_ts ret_ids shape elems option_map].
    split; [reflexivity | ]. split; [reflexivity | ]. split; [now split | ].
    intros h index qh krows vrows H1 H2 H3 H4.
    destruct (Hnth h index qh H1 H2) as [Hh Hf]. cbv zeta.
    rewrite !map_map, !nth_error_map_seq by exact Hh. cbn [elems].
    rewrite Hf, (nth_error_nth _ _ [] H3), (nth_error_nth _ _ [] H4).
    repeat split; discriminate.
Qed.

End GetKnnsFound.

Lemma get_knns_returns_found_witness :
  exists r,
    MemTransDatastore.get_knns Samples.search0 0 AttnSamples.store_loaded
      Samples.queries2 2 true
    = ([MemTransDatastore.index_search_call 0 2], Ok r)
    /\ shape (MemTransDatastore.ret_ks r) = [1; 2; 2; 1]%nat
    /\ nth_error (elems (MemTransDatastore.ret_ks r)) 0
       = Some [[[11]; [11]]; [[11]; [11]]].
Proof.
  destruct (get_knns_returns_found Samples.search0 0 AttnSamples.store_loaded
              Samples.queries2 2 true 1 2 1 2 [tt]
              (mkTensor [3]%nat [11; 12; 13]) (mkTensor [3]%nat [0; 0; 0])
              eq_refl eq_refl ltac:(lia) eq_refl eq_refl eq_refl eq_refl eq_refl eq_refl
              ltac:(lia))
    as (r & Hr & Hs & _ & _ & Hrows).
  - intros h index qh H1 H2. destruct h as [|h]; [ | destruct h; discriminate H1 ].
    injection H2 as <-. split; [reflexivity | ].
    change (MemTransDatastore.size AttnSamples.store_loaded) with 3.
    cbn. repeat (apply Forall_cons || apply Forall_nil); lia.
  - exists r. split; [exact Hr | ]. split; [exact Hs | ].
    exact (proj1 (Hrows 0%nat tt [[7]; [8]] [[11]; [12]; [13]] [[111]; [112]; [113]]
                    eq_refl eq_refl eq_refl eq_refl)).
Defined.

(** * Further properties of the retrieve stage *)

Section RetrieveMore.
Import MemTransAttn.
Context {F Index : Type}.
Variable index_search : Index -> T2 F -> Z -> T2 Z.
Variable fzero : F.
Variable strided_lookup3 : T3 F -> T1 Z -> T1 Z -> result (T4 F).
Variable strided_lookup1 : T1 Z -> T1 Z -> T1 Z -> result (T2 Z).

Local Abbreviation mta := (@MemTransAttn.t F Index).
Local Abbreviation knns := (@MemTransDatastore.knns F).
Local Abbreviation retrieve_ := (retrieve index_search fzero strided_lookup3 strided_lookup1).

Lemma effective_topk_multi (self : mta) (sl : nat) (kl : Z) :
  (1 < sl)%nat -> effective_topk self sl kl <= 0.
Proof.
  intros Hsl. unfold effective_topk. apply Nat.ltb_lt in Hsl. rewrite Hsl.
  destruct (skip_for_retrieval self kl); lia.
Qed.

(** X8. A multi-token call of [retrieve] (seq_length > 1, the evaluation
    mode) never retrieves: whatever [topk], [by_ids], the skip settings, the
    key length and the ids passed, it hands a [topk] of 0 or less to
    [get_knns], no index is searched and no lookup by ids is made, and with
    tracking off the call returns retrieved keys and values of shape
    (batch_size, n_heads, seq_length, 0, dim); it advances [id_offset] by
    the batch size and empties the by-id cache. *)
Theorem retrieve_multi_token_retrieves_nothing (self : mta) (q : T4 F)
  (bs nh sl d : nat) (kl : Z) (ids_ : option (T1 Z)) :
  shape q = [bs; nh; sl; d] -> (1 < sl)%nat -> track self = false ->
  let out := retrieve_ self q kl ids_ in
  (exists k, k <= 0 /\ snd (fst out) = [get_knns_call k []])
  /\ (exists ks vs, snd out = Ok (ks, vs)
        /\ shape ks = [bs; nh; sl; 0; d]%nat /\ shape vs = [bs; nh; sl; 0; d]%nat)
  /\ id_offset (fst (fst out)) = id_offset self + Z.of_nat bs
  /\ by_ids_cache (fst (fst out)) = None
  /\ dstore (fst (fst out)) = dstore self.
Proof.
  intros Hs Hsl Htr. cbv zeta.
  pose proof (effective_topk_multi self sl kl Hsl) as Hk.
  unfold retrieve. rewrite Hs. unfold retrieve_lookup.
  replace (Nat.eqb sl 1) with false by (symmetry; apply Nat.eqb_neq; lia).
  rewrite andb_false_r.
  unfold MemTransDatastore.get_knns, permute_10, flatten_12.
  rewrite Hs. cbn [shape elems].
  apply Z.leb_le in Hk. rewrite Hk. unfold is_track. rewrite Htr.
  unfold track_retrieval, is_track. rewrite Htr.
  apply Nat.ltb_lt in Hsl. rewrite Hsl. cbn [fst snd].
  split; [exists (effective_topk self sl kl); split; [now apply Z.leb_le | reflexivity] | ].
  split.
  - unfold retrieve_return, size_at, view5, zeros4.
    cbn [MemTransDatastore.ret_ks MemTransDatastore.ret_vs shape nth_error bind numel
         fold_right].
    replace (Nat.eqb (nh * (bs * sl * (0 * (d * 1)))) (nh * (bs * (sl * (0 * (d * 1))))))
      with true by (symmetry; apply Nat.eqb_eq; lia).
    cbn [bind]. eexists. eexists. split; [reflexivity | ].
    unfold permute_10. cbn [shape]. now split.
  - now destruct self.
Qed.

(** X9. Once the by-id cache is filled, it answers every single-token call
    outside the skipped warm-up steps: whatever the query, the key length
    and the ids passed with the call, the datastore is not consulted and
    what the call returns is the cached lookup, reshaped; with tracking off
    the state is left exactly as it was. The cache is not keyed by the ids:
    ids that differ from those of the cached lookup get the cached rows. *)
Theorem retrieve_cache_answers_any_ids (self : mta) (cached : knns) (q : T4 F)
  (bs nh d : nat) (kl : Z) (ids_ : option (T1 Z)) :
  by_ids self = true -> by_ids_cache self = Some cached ->
  skip_for_retrieval self kl = false ->
  shape q = [bs; nh; 1; d]%nat ->
  let out := retrieve_ self q kl ids_ in
  snd (fst out) = [by_ids_cache_hit]
  /\ (forall ks vs, snd out = Ok (ks, vs) -> retrieve_return cached bs nh 1 d = Ok (ks, vs))
  /\ by_ids_cache (fst (fst out)) = Some cached
  /\ id_offset (fst (fst out)) = id_offset self
  /\ dstore (fst (fst out)) = dstore self
  /\ (track self = false -> out = (self, [by_ids_cache_hit], retrieve_return cached bs nh 1 d)).
Proof.
  intros Hb Hc Hk Hs. cbv zeta. unfold retrieve. rewrite Hs.
  unfold retrieve_lookup. rewrite Hb, Hk, Hc. cbn [andb Nat.eqb negb].
  destruct (track self) eqn:Htr.
  - destruct (track_retrieval_frame self 1 cached) as [tr Hfr].
    destruct (track_retrieval self 1 cached) as [s2 [u|e]]; cbn [fst] in Hfr; subst s2;
      cbn [fst snd Nat.ltb Nat.leb];
      (split; [reflexivity | ]);
      (split; [intros ks vs H; (exact H || discriminate H) | ]);
      destruct self; cbn in *; repeat split; try assumption; discriminate.
  - unfold track_retrieval, is_track. rewrite Htr. cbn [fst snd Nat.ltb Nat.leb].
    split; [reflexivity | ]. split; [intros ks vs H; exact H | ].
    repeat split; assumption.
Qed.

End RetrieveMore.

(** * Further properties of the forward pass *)

Section ForwardMore.
Context {F Index : Type}.
Variable torch : Torch F.
Variable astype_float32 : F -> F.
Variable index_search : Index -> T2 F -> Z -> T2 Z.
Variable fzero : F.
Variable strided_lookup3 : T3 F -> T1 Z -> T1 Z -> result (T4 F).
Variable strided_lookup1 : T1 Z -> T1 Z -> T1 Z -> result (T2 Z).

Local Abbreviation layer := (@T5Attention.t F Index).
Local Abbreviation forward :=
  (t5attetnion_forward torch astype_float32 index_search fzero strided_lookup3
     strided_lookup1).

Lemma original_attn_set_mta (self : layer) (m : @MemTransAttn.t F Index)
  (qs ks vs : T4 F) (past : option (T4 F * T4 F)) (pb mask : option (T4 F))
  (lhm : option (T1 F)) (rsl kl : Z) :
  original_attn torch fzero (T5Attention.set_mta self m) qs ks vs past pb mask lhm rsl kl
  = original_attn torch fzero self qs ks vs past pb mask lhm rsl kl.
Proof. reflexivity. Qed.

(** X10. Saving does not change what the layer computes: whenever a forward
    pass in the save stage returns, its outputs (attention output, cached
    key/value state, position bias, attention weights) are those of the
    host's original attention, that is of the same layer in a stage that is
    neither 'save' nor 'retrieve', which itself leaves the layer as it is;
    and of the layer only the retrieval state [mta] has changed. *)
Theorem forward_save_stage_outputs (self self' : layer) (m0 : @MemTransAttn.t F Index)
  (s : string) (hidden_states : T3 F)
  (mask : option (T4 F)) (key_value_states : option (T3 F))
  (position_bias : option (T4 F)) (past_key_value : option (T4 F * T4 F))
  (layer_head_mask : option (T1 F)) (query_length : option Z)
  (use_cache output_attentions : bool) (out : outputs) :
  MemTransAttn.stage (T5Attention.mta self) = MemTransAttn.stage_save ->
  MemTransAttn.stage m0 = MemTransAttn.stage_other s ->
  forward self hidden_states mask key_value_states position_bias past_key_value
    layer_head_mask query_length use_cache output_attentions = (self', Ok out) ->
  forward (T5Attention.set_mta self m0) hidden_states mask key_value_states position_bias
    past_key_value layer_head_mask query_length use_cache output_attentions
  = (T5Attention.set_mta self m0, Ok out)
  /\ exists m', self' = T5Attention.set_mta self m'.
Proof.
  intros Hst Hm0. unfold t5attetnion_forward.
  destruct (shape hidden_states) as [|batch_size [|seq_length rest]]; try discriminate.
  rewrite !project_set_mta.
  cbn [T5Attention.set_mta T5Attention.mta T5Attention.q T5Attention.k T5Attention.v
       T5Attention.is_decoder].
  change (shape_states (T5Attention.mk _ _ _ _ _ _ _ _ _ _ _ _ m0))
    with (shape_states self).
  destruct (real_seq_length <- real_seq_length_of seq_length past_key_value query_length ;;
            _) as [[[[[rsl kl] qs] ks] vs]|e]; try discriminate.
  rewrite Hst, Hm0.
  destruct (MemTransAttn.save astype_float32 (T5Attention.mta self) ks vs) as [m saved].
  destruct saved as [u|e]; try discriminate.
  change (original_attn torch fzero (T5Attention.mk _ _ _ _ _ _ _ _ _ _ _ _ m0))
    with (original_attn torch fzero self).
  rewrite original_attn_set_mta.
  intros H. injection H as <- H.
  split; [f_equal; exact H | ]. now exists m.
Qed.

End ForwardMore.

(** ** Splitting into heads and merging back *)

Section Transpose.
Context {A : Type}.

Local Abbreviation column i :=
  (fun row : list A => match nth_error row i with Some x => [x] | None => [] end).

Lemma transpose_cons_from (rows : list (list A)) (r pre : list A) :
  map (fun i => flat_map (column i) ((pre ++ r) :: rows)) (seq (length pre) (length r))
  = map2 cons r (map (fun i => flat_map (column i) rows) (seq (length pre) (length r))).
Proof.
  revert pre. induction r as [|x r IH]; intros pre; [reflexivity | ].
  cbn [length seq map map2 flat_map].
  rewrite nth_error_app2, Nat.sub_diag by lia. cbn [nth_error app]. f_equal.
  specialize (IH (pre ++ [x])). rewrite <- app_assoc in IH. cbn [app] in IH.
  rewrite length_app, Nat.add_1_r in IH. exact IH.
Qed.

Lemma transpose_cons (n : nat) (r : list A) (rows : list (list A)) :
  length r = n -> transpose n (r :: rows) = map2 cons r (transpose n rows).
Proof.
  intros <-. unfold transpose. exact (transpose_cons_from rows r []).
Qed.

Lemma transpose_length (n : nat) (rows : list (list A)) : length (transpose n rows) = n.
Proof. unfold transpose. now rewrite length_map, length_seq. Qed.

Lemma heads_of_map2_cons (r : list A) (cols : list (list A)) :
  length r = length cols -> flat_map (column 0) (map2 cons r cols) = r.
Proof.
  revert cols. induction r as [|x r IH]; intros [|c cols] H; try reflexivity;
    try discriminate.
  cbn [map2 flat_map nth_error app]. f_equal. apply IH. simpl in H. lia.
Qed.

Lemma tails_of_map2_cons (r : list A) (cols : list (list A)) (j : nat) :
  length r = length cols ->
  flat_map (column (S j)) (map2 cons r cols) = flat_map (column j) cols.
Proof.
  revert cols. induction r as [|x r IH]; intros [|c cols] H; try reflexivity;
    try discriminate.
  cbn [map2 flat_map nth_error]. f_equal. apply IH. simpl in H. lia.
Qed.

Lemma transpose_map2_cons (m : nat) (r : list A) (cols : list (list A)) :
  length r = length cols ->
  transpose (S m) (map2 cons r cols) = r :: transpose m cols.
Proof.
  intros H. unfold transpose. cbn [seq map].
  rewrite (heads_of_map2_cons r cols H). f_equal.
  rewrite <- seq_shift, map_map. apply map_ext. intros j.
  now apply tails_of_map2_cons.
Qed.

(** exchanging the two levels twice gives the rows back *)
Lemma transpose_involutive (n : nat) (rows : list (list A)) :
  Forall (fun r => length r = n) rows ->
  transpose (length rows) (transpose n rows) = rows.
Proof.
  induction 1 as [|r rows Hr Hrows IH]; [reflexivity | ].
  rewrite (transpose_cons n r rows Hr). cbn [length].
  rewrite transpose_map2_cons by (now rewrite transpose_length).
  now rewrite IH.
Qed.

Lemma concat_chunks (n count : nat) (l : list A) :
  length l = (count * n)%nat -> concat (chunks n count l) = l.
Proof.
  revert l. induction count as [|c IH]; intros l H.
  - simpl in *. now destruct l.
  - cbn [chunks concat]. rewrite IH; [apply firstn_skipn | ].
    rewrite length_skipn, H. simpl. lia.
Qed.

Lemma chunks_length (n count : nat) (l : list A) : length (chunks n count l) = count.
Proof. revert l. induction count as [|c IH]; intros l; simpl; [ | rewrite IH ]; reflexivity. Qed.

Lemma chunks_concat (n : nat) (rows : list (list A)) :
  Forall (fun r => length r = n) rows -> chunks n (length rows) (concat rows) = rows.
Proof.
  induction 1 as [|r rows Hr Hrows IH]; [reflexivity | ].
  cbn [length chunks concat].
  assert (H1 : firstn n (r ++ concat rows) = r).
  { rewrite <- Hr, firstn_app, Nat.sub_diag, firstn_all. simpl. apply app_nil_r. }
  assert (H2 : skipn n (r ++ concat rows) = concat rows).
  { rewrite <- Hr, skipn_app, Nat.sub_diag, skipn_all. reflexivity. }
  now rewrite H1, H2, IH.
Qed.

End Transpose.

Section TransposeRows.
Context {A : Type}.

Lemma Forall_map2_cons (P P' : list A -> Prop) (Q : A -> Prop) (r : list A)
  (cols : list (list A)) :
  (forall x c, Q x -> P c -> P' (x :: c)) ->
  Forall Q r -> Forall P cols -> Forall P' (map2 cons r cols).
Proof.
  intros HPQ Hr. revert cols. induction Hr as [|x r Hx Hr IH]; intros cols Hc.
  - constructor.
  - destruct cols as [|c cols]; [constructor | ].
    inversion Hc; subst. cbn [map2]. constructor; auto.
Qed.

Lemma transpose_nil (n : nat) : transpose n (@nil (list A)) = repeat [] n.
Proof.
  unfold transpose. cbn [flat_map].
  generalize 0%nat. induction n as [|n IH]; intros s; [reflexivity | ].
  cbn [seq map repeat]. now rewrite IH.
Qed.

(** the columns of a rectangular table are as long as the table has rows,
    and they hold its entries *)
Lemma transpose_columns (n : nat) (Q : A -> Prop) (rows : list (list A)) :
  Forall (fun r => length r = n /\ Forall Q r) rows ->
  Forall (fun c => length c = length rows /\ Forall Q c) (transpose n rows).
Proof.
  induction 1 as [|r rows [Hr HQ] Hrows IH].
  - rewrite transpose_nil. apply Forall_forall. intros c Hc.
    apply repeat_spec in Hc. subst c. split; [reflexivity | constructor].
  - rewrite (transpose_cons n r rows Hr).
    eapply Forall_map2_cons with (Q := Q); [ | exact HQ | exact IH ].
    intros x c Hx [Hc1 Hc2]. cbn [length]. split; [lia | now constructor].
Qed.

End TransposeRows.

Lemma rows_ok_Forall {A : Type} (n : nat) (inner : A -> bool) (l : list A) :
  rows_ok n inner l = true -> length l = n /\ Forall (fun x => inner x = true) l.
Proof.
  intros H. apply rows_ok_inv in H. destruct H as [H1 H2]. split; [exact H1 | ].
  apply Forall_forall. now apply forallb_forall.
Qed.

Lemma Forall_rows_ok {A : Type} (n : nat) (inner : A -> bool) (l : list A) :
  length l = n -> Forall (fun x => inner x = true) l -> rows_ok n inner l = true.
Proof.
  intros H1 H2. apply rows_ok_intro; [exact H1 | ].
  apply forallb_forall. now apply Forall_forall.
Qed.

Section HeadsRoundTrip.
Context {F Index : Type}.

Local Abbreviation layer := (@T5Attention.t F Index).

Lemma merge_split_rows (nh d s : nat) (e : list (list F)) :
  rows_ok s (rows_ok (nh * d) (fun _ => true)) e = true ->
  map (@concat F) (transpose s (transpose nh (map (chunks d nh) e))) = e.
Proof.
  intros He. apply rows_ok_Forall in He. destruct He as [Hl He].
  rewrite <- Hl. rewrite <- (length_map (chunks d nh) e).
  rewrite transpose_involutive.
  2:{ apply Forall_forall. intros r Hr. apply in_map_iff in Hr.
      destruct Hr as (x & <- & _). apply chunks_length. }
  rewrite map_map. rewrite <- (map_id e) at 2. apply map_ext_in.
  intros row Hrow. rewrite Forall_forall in He. specialize (He row Hrow).
  apply rows_ok_inv in He. apply concat_chunks. lia.
Qed.

Lemma split_merge_rows (nh d s : nat) (per : list (list (list F))) :
  rows_ok nh (rows_ok s (rows_ok d (fun _ => true))) per = true ->
  transpose nh (map (chunks d nh) (map (@concat F) (transpose s per))) = per.
Proof.
  intros Hp. apply rows_ok_Forall in Hp. destruct Hp as [Hl Hp].
  assert (Hcols : Forall (fun c => length c = length per
                                   /\ Forall (fun v => length v = d) c)
                    (transpose s per)).
  { apply transpose_columns. revert Hp. apply Forall_impl. intros r Hr.
    apply rows_ok_Forall in Hr. destruct Hr as [Hr1 Hr2]. split; [exact Hr1 | ].
    revert Hr2. apply Forall_impl. intros v Hv. now apply rows_ok_inv in Hv. }
  rewrite map_map.
  replace (map (fun x => chunks d nh (concat x)) (transpose s per)) with (transpose s per).
  - rewrite <- Hl. apply transpose_involutive.
    revert Hp. apply Forall_impl. intros r Hr. now apply rows_ok_inv in Hr.
  - rewrite <- (map_id (transpose s per)) at 1. apply map_ext_in.
    intros c Hc. rewrite Forall_forall in Hcols. destruct (Hcols c Hc) as [Hc1 Hc2].
    rewrite <- Hl, <- Hc1. symmetry. now apply chunks_concat.
Qed.

(** X11. Splitting into heads and merging back are inverse to each other.
    [unshape] (of [MemTransAttn]) undoes [shape] (of the forward pass) on
    every well-formed tensor of shape (batch_size, length, n_heads * dim_per_head),
    and [shape] undoes [unshape] on every well-formed tensor of shape
    (batch_size, n_heads, length, dim_per_head). *)
Theorem unshape_shape_states_inverse (self : layer) (bs : nat) :
  (forall (x : T3 F) (y : T4 F),
      wf3 x = true -> shape_states self bs x = Ok y -> unshape y = Ok x)
  /\ (forall (y : T4 F) (sl : nat),
        wf4 y = true ->
        shape y = [bs; T5Attention.n_heads self; sl; T5Attention.key_value_proj_dim self] ->
        exists x : T3 F, unshape y = Ok x /\ shape_states self bs x = Ok y).
Proof.
  split.
  - intros x y Hx Hy. destruct (wf3_shape x Hx) as (b & s & inner & Hs & Hr).
    unfold shape_states in Hy. rewrite Hs in Hy.
    destruct (Nat.eqb b bs && Nat.eqb inner _) eqn:E; [ | discriminate Hy ].
    apply andb_prop in E. destruct E as [E1 E2].
    apply Nat.eqb_eq in E1, E2. subst b inner.
    injection Hy as <-. unfold permute_021, unshape. cbn [shape elems].
    destruct x as [sh el]. cbn [shape elems] in *. subst sh. do 2 f_equal.
    rewrite !map_map. rewrite <- (map_id el) at 2. apply map_ext_in.
    intros e He. apply rows_ok_Forall in Hr. destruct Hr as [_ Hr].
    rewrite Forall_forall in Hr. apply merge_split_rows. exact (Hr e He).
  - intros y sl Hy Hs. unfold unshape. rewrite Hs.
    eexists. split; [reflexivity | ].
    unfold shape_states. cbn [shape elems]. rewrite !Nat.eqb_refl. cbn [andb].
    unfold permute_021. cbn [shape elems].
    destruct y as [sh el]. cbn [shape elems] in *. subst sh. do 2 f_equal.
    rewrite !map_map. rewrite <- (map_id el) at 2. apply map_ext_in.
    intros per Hper. unfold wf4 in Hy. cbn [shape elems] in Hy.
    apply rows_ok_Forall in Hy. destruct Hy as [_ Hy].
    rewrite Forall_forall in Hy. apply split_merge_rows. exact (Hy per Hper).
Qed.

End HeadsRoundTrip.

(** ** The key/value cache of self-attention *)

Lemma chunks_entries {A : Type} (n count : nat) (l : list A) :
  length l = (count * n)%nat -> Forall (fun c => length c = n) (chunks n count l).
Proof.
  revert l. induction count as [|c IH]; intros l H; cbn [chunks]; constructor.
  - rewrite length_firstn, H. simpl. lia.
  - apply IH. rewrite length_skipn, H. simpl. lia.
Qed.

Section CacheProps.
Context {F Index : Type}.

Local Abbreviation layer := (@T5Attention.t F Index).

(** the heads of a well-formed tensor form a well-formed tensor *)
Lemma shape_states_wf (self : layer) (bs : nat) (x : T3 F) (y : T4 F) :
  wf3 x = true -> shape_states self bs x = Ok y ->
  wf4 y = true
  /\ exists s, shape y = [bs; T5Attention.n_heads self; s; T5Attention.key_value_proj_dim self].
Proof.
  intros Hx Hy. destruct (wf3_shape x Hx) as (b & s & inner & Hs & Hr).
  unfold shape_states in Hy. rewrite Hs in Hy.
  destruct (Nat.eqb b bs && Nat.eqb inner _) eqn:E; [ | discriminate Hy ].
  apply andb_prop in E. destruct E as [E1 E2].
  apply Nat.eqb_eq in E1, E2. subst b inner.
  injection Hy as <-. unfold permute_021. cbn [shape elems].
  split; [ | now exists s ].
  unfold wf4. cbn [shape elems].
  apply rows_ok_Forall in Hr. destruct Hr as [Hl Hr].
  apply Forall_rows_ok; [now rewrite !length_map | ].
  apply Forall_forall. intros per Hper.
  rewrite map_map in Hper. apply in_map_iff in Hper. destruct Hper as (e & <- & He).
  rewrite Forall_forall in Hr. specialize (Hr e He).
  apply rows_ok_Forall in Hr. destruct Hr as [Hle Hr].
  apply Forall_rows_ok; [apply transpose_length | ].
  pose proof (transpose_columns (T5Attention.n_heads self)
                (fun v : list F => length v = T5Attention.key_value_proj_dim self)
                (map (chunks (T5Attention.key_value_proj_dim self)
                        (T5Attention.n_heads self)) e)) as Hc.
  rewrite length_map, Hle in Hc.
  assert (Hrows : Forall (fun r => length r = T5Attention.n_heads self
                                   /\ Forall (fun v : list F =>
                                                length v = T5Attention.key_value_proj_dim self) r)
                    (map (chunks (T5Attention.key_value_proj_dim self)
                            (T5Attention.n_heads self)) e)).
  { apply Forall_forall. intros r Hr'. apply in_map_iff in Hr'.
    destruct Hr' as (row & <- & Hrow). rewrite Forall_forall in Hr.
    specialize (Hr row Hrow). apply rows_ok_inv in Hr. destruct Hr as [Hrl _].
    split; [apply chunks_length | now apply chunks_entries]. }
  specialize (Hc Hrows). revert Hc. apply Forall_impl. intros c [Hc1 Hc2].
  apply Forall_rows_ok; [exact Hc1 | ].
  revert Hc2. apply Forall_impl. intros v Hv.
  apply Forall_rows_ok; [exact Hv | ]. apply Forall_forall. reflexivity.
Qed.

Lemma slice_to_app_exact {A : Type} (a b : list A) :
  slice_to (a ++ b) (Z.of_nat (length a)) = a.
Proof.
  unfold slice_to. rewrite slice_bound_in by (rewrite length_app; lia).
  rewrite Nat2Z.id, firstn_app, Nat.sub_diag, firstn_all. simpl. apply app_nil_r.
Qed.

Lemma slice_from_app_exact {A : Type} (a b : list A) :
  slice_from (a ++ b) (Z.of_nat (length a)) = b.
Proof.
  unfold slice_from. rewrite slice_bound_in by (rewrite length_app; lia).
  rewrite Nat2Z.id, skipn_app, Nat.sub_diag, skipn_all. reflexivity.
Qed.

Lemma map_map2_2 {A B C D : Type} (f : A -> B -> C) (g : C -> D) (l : list A) (m : list B) :
  map g (map2 f l m) = map2 (fun a b => g (f a b)) l m.
Proof.
  revert m. induction l as [|a l IH]; intros [|b m]; simpl; try reflexivity.
  now rewrite IH.
Qed.

(** X12. In self-attention with a cache, [project] appends: the states it
    returns have the cached positions first, unchanged, and the newly
    projected positions after them, so the key length grows by the number
    of new positions. *)
Theorem project_appends_to_cache (self : layer) (bs : nat) (hidden_states : T3 F)
  (proj_layer : T3 F -> T3 F) (past y : T4 F) :
  wf4 past = true -> wf3 (proj_layer hidden_states) = true ->
  project self bs hidden_states proj_layer None (Some past) = Ok y ->
  exists (hs : T4 F) (b n p s d : nat),
    shape_states self bs (proj_layer hidden_states) = Ok hs
    /\ shape past = [b; n; p; d] /\ shape hs = [b; n; s; d]
    /\ shape y = [b; n; (p + s)%nat; d]
    /\ to_dim2 y (Z.of_nat p) = past
    /\ from_dim2 y (Z.of_nat p) = hs.
Proof.
  intros Hp Hx Hy. cbn [project] in Hy.
  destruct (shape_states self bs (proj_layer hidden_states)) as [hs|] eqn:Ehs;
    [ | discriminate Hy ].
  cbn [bind] in Hy.
  destruct (shape_states_wf self bs _ hs Hx Ehs) as [Hhs _].
  destruct (wf4_shape past Hp) as (b & n & p & d & Sp & Rp).
  destruct (wf4_shape hs Hhs) as (b' & n' & s & d' & Sh & Rh).
  unfold cat2 in Hy. rewrite Sp, Sh in Hy.
  destruct (Nat.eqb b b' && Nat.eqb n n' && Nat.eqb d d') eqn:E; [ | discriminate Hy ].
  split_andb.
  repeat match goal with Hq : Nat.eqb _ _ = true |- _ => apply Nat.eqb_eq in Hq end.
  subst b' n' d'. injection Hy as <-.
  exists hs, b, n, p, s, d. split; [reflexivity | ]. split; [exact Sp | ].
  split; [exact Sh | ]. split; [reflexivity | ].
  apply rows_ok_inv in Rp, Rh. destruct Rp as [Lp Rp]. destruct Rh as [Lh Rh].
  unfold to_dim2, from_dim2. cbn [shape elems].
  rewrite !slice_bound_in by lia. rewrite Nat2Z.id.
  replace (p + s - p)%nat with s by lia.
  destruct past as [shp elp], hs as [shh elh]. cbn [shape elems] in *. subst shp shh.
  split; f_equal.
  - rewrite map_map2_2.
    eapply map2_fst_id2; [ | lia | exact Rp | exact Rh ].
    intros u w Hu Hw. cbv beta. rewrite map_map2_2.
    apply rows_ok_inv in Hu, Hw. destruct Hu as [Lu Hu]. destruct Hw as [Lw Hw].
    eapply map2_fst_id2; [ | lia | exact Hu | exact Hw ].
    intros r r' Hr Hr'. cbv beta.
    apply rows_ok_inv in Hr. destruct Hr as [<- _]. apply slice_to_app_exact.
  - rewrite map_map2_2.
    eapply map2_snd_id; [ | lia | exact Rp | exact Rh ].
    intros u w Hu Hw. cbv beta. rewrite map_map2_2.
    apply rows_ok_inv in Hu, Hw. destruct Hu as [Lu Hu]. destruct Hw as [Lw Hw].
    eapply map2_snd_id; [ | lia | exact Hu | exact Hw ].
    intros r r' Hr Hr'. cbv beta.
    apply rows_ok_inv in Hr. destruct Hr as [<- _]. apply slice_from_app_exact.
Qed.

End CacheProps.

(** * What the save stage stores *)

Section MaskHelpers.
Context {A : Type}.

Lemma mask_select_length (mask : list bool) (l : list A) :
  length l = length mask -> length (mask_select mask l) = count_true mask.
Proof.
  unfold mask_select, count_true. rewrite length_map.
  revert l. induction mask as [|b mask IH]; intros [|x l] H; try reflexivity;
    try discriminate.
  cbn [combine filter fst]. destruct b; cbn [length]; rewrite IH; auto.
Qed.

Lemma forallb_mask_select (p : A -> bool) (mask : list bool) (l : list A) :
  forallb p l = true -> forallb p (mask_select mask l) = true.
Proof.
  unfold mask_select.
  revert l. induction mask as [|b mask IH]; intros [|x l] H; try reflexivity.
  cbn [combine filter fst]. cbn [forallb] in H. apply andb_prop in H.
  destruct H as [Hx Hl]. destruct b; cbn [map snd forallb]; [rewrite Hx | ]; now apply IH.
Qed.

Lemma concat_length_uniform (n : nat) (l : list (list A)) :
  Forall (fun r => length r = n) l -> length (concat l) = (length l * n)%nat.
Proof.
  induction 1 as [|r l Hr Hl IH]; [reflexivity | ].
  cbn [concat length]. rewrite length_app, Hr, IH. reflexivity.
Qed.

Lemma Forall_concat (P : A -> Prop) (l : list (list A)) :
  Forall (Forall P) l -> Forall P (concat l).
Proof.
  induction 1 as [|r l Hr Hl IH]; [constructor | ].
  cbn [concat]. apply Forall_app. now split.
Qed.

End MaskHelpers.

Section SaveContent.
Import MemTransAttn.
Context {F Index : Type}.
Variable astype_float32 : F -> F.

Local Abbreviation mta := (@MemTransAttn.t F Index).

(** (batch, heads, length, dim) turned into (heads, batch * length, dim) *)
Lemma flatten_permute_wf (x : T4 F) (bs nh sl d : nat) :
  wf4 x = true -> shape x = [bs; nh; sl; d] ->
  shape (flatten_12 (permute_10 x)) = [nh; (bs * sl)%nat; d]
  /\ rows_ok nh (rows_ok (bs * sl) (rows_ok d (fun _ => true)))
       (elems (flatten_12 (permute_10 x))) = true.
Proof.
  intros Hwf Hs. destruct (wf4_shape x Hwf) as (a & b & c & e & Hs' & Hr).
  rewrite Hs in Hs'. injection Hs' as <- <- <- <-.
  unfold permute_10, flatten_12. rewrite Hs. cbn [shape elems].
  split; [reflexivity | ].
  apply rows_ok_Forall in Hr. destruct Hr as [Hl Hr].
  apply Forall_rows_ok; [now rewrite length_map, transpose_length | ].
  pose proof (transpose_columns nh
                (fun v : list (list F) => rows_ok sl (rows_ok d (fun _ => true)) v = true)
                (elems x)) as Hc.
  rewrite Hl in Hc.
  assert (Hrows : Forall (fun r => length r = nh
                                   /\ Forall (fun v : list (list F) =>
                                                rows_ok sl (rows_ok d (fun _ => true)) v = true) r)
                    (elems x)).
  { revert Hr. apply Forall_impl. intros r Hr. now apply rows_ok_Forall in Hr. }
  specialize (Hc Hrows).
  apply Forall_forall. intros row Hrow. apply in_map_iff in Hrow.
  destruct Hrow as (col & <- & Hcol).
  rewrite Forall_forall in Hc. destruct (Hc col Hcol) as [Hc1 Hc2].
  apply Forall_rows_ok.
  - rewrite (concat_length_uniform sl), Hc1; [reflexivity | ].
    revert Hc2. apply Forall_impl. intros v Hv. now apply rows_ok_inv in Hv.
  - apply Forall_concat. revert Hc2. apply Forall_impl. intros v Hv.
    now apply rows_ok_Forall in Hv.
Qed.

Lemma flatten_01_rows (x : T2 Z) (bs sl : nat) :
  shape x = [bs; sl] -> rows_ok bs (rows_ok sl (fun _ => true)) (elems x) = true ->
  shape (flatten_01 x) = [(bs * sl)%nat]
  /\ length (elems (flatten_01 x)) = (bs * sl)%nat.
Proof.
  intros Hs Hr. unfold flatten_01. rewrite Hs. cbn [shape elems].
  split; [reflexivity | ].
  apply rows_ok_Forall in Hr. destruct Hr as [Hl Hr].
  rewrite (concat_length_uniform sl), Hl; [reflexivity | ].
  revert Hr. apply Forall_impl. intros r Hr'. now apply rows_ok_inv in Hr'.
Qed.

Lemma example_ids_length (o : Z) (bs sl : nat) :
  length (elems (example_ids o bs sl)) = (bs * sl)%nat.
Proof.
  unfold example_ids. cbn [elems]. rewrite length_map.
  rewrite (concat_length_uniform sl), length_map, length_seq; [reflexivity | ].
  apply Forall_forall. intros r Hr. apply in_map_iff in Hr.
  destruct Hr as (j & <- & _). apply repeat_length.
Qed.

Lemma index_mask1_rows (x : T3 F) (mask : T1 bool) (nh n d : nat) :
  shape x = [nh; n; d] ->
  rows_ok nh (rows_ok n (rows_ok d (fun _ => true))) (elems x) = true ->
  shape mask = [n] -> length (elems mask) = n ->
  exists y, index_mask1 x mask = Ok y
    /\ elems y = map (mask_select (elems mask)) (elems x)
    /\ shape y = [nh; count_true (elems mask); d]
    /\ wf3 y = true.
Proof.
  intros Hs Hr Hm Hl. unfold index_mask1. rewrite Hs, Hm, Nat.eqb_refl.
  eexists. split; [reflexivity | ]. split; [reflexivity | ]. split; [reflexivity | ].
  unfold wf3. cbn [shape elems].
  apply rows_ok_inv in Hr. destruct Hr as [Hlen Hr].
  apply rows_ok_intro; [now rewrite length_map | ].
  rewrite forallb_map. revert Hr. apply forallb_impl. intros rows Hrows.
  apply rows_ok_inv in Hrows. destruct Hrows as [Hl1 Hl2].
  apply rows_ok_intro; [apply mask_select_length; lia | now apply forallb_mask_select].
Qed.

Lemma index_mask0_rows (x : T1 Z) (mask : T1 bool) (n : nat) :
  shape x = [n] -> length (elems x) = n ->
  shape mask = [n] -> length (elems mask) = n ->
  exists y, index_mask0 x mask = Ok y
    /\ elems y = mask_select (elems mask) (elems x)
    /\ shape y = [count_true (elems mask)]
    /\ wf1 y = true.
Proof.
  intros Hs Hlx Hm Hl. unfold index_mask0. rewrite Hs, Hm, Nat.eqb_refl.
  eexists. split; [reflexivity | ]. split; [reflexivity | ]. split; [reflexivity | ].
  unfold wf1. cbn [shape elems].
  apply rows_ok_intro; [apply mask_select_length; lia | ].
  apply forallb_forall. reflexivity.
Qed.

(** X13. What [save] stores. With the labels and the decoder input ids of a
    batch set, a store with room, and key and value states of shape
    (batch_size, n_heads, seq_length, dim): the positions whose label is
    -100 are left out and the others are stored in order (row by row) from
    [cur_idx] on, which advances by their number; the token stored for a
    position is the decoder input id at that position, the id stored is
    [id_offset] plus the row number, and each head stores its key and value
    vectors of these positions. *)
Theorem save_stores_unmasked_positions (self : mta) (key_states value_states : T4 F)
  (bs nh sl d : nat) (labels decoder_input_ids : T2 Z) :
  let st := dstore self in
  let mask := map (fun x => negb (x =? -100)) (concat (elems labels)) in
  MemTransDatastore.wf st = true ->
  MemTransDatastore.mode st = MemTransDatastore.mode_w_plus ->
  MemTransDatastore.n_heads st = Z.of_nat nh ->
  MemTransDatastore.dimension st = Z.of_nat d ->
  wf4 key_states = true -> wf4 value_states = true ->
  shape key_states = [bs; nh; sl; d] -> shape value_states = [bs; nh; sl; d] ->
  MemTransDatastore._labels st = Some labels ->
  MemTransDatastore._decoder_input_ids st = Some decoder_input_ids ->
  shape labels = [bs; sl] ->
  rows_ok bs (rows_ok sl (fun _ => true)) (elems labels) = true ->
  shape decoder_input_ids = [bs; sl] ->
  rows_ok bs (rows_ok sl (fun _ => true)) (elems decoder_input_ids) = true ->
  MemTransDatastore.cur_idx st + Z.of_nat (count_true mask) <= MemTransDatastore.size st ->
  let out := save astype_float32 self key_states value_states in
  let st' := dstore (fst out) in
  let lo := MemTransDatastore.cur_idx st in
  let hi := MemTransDatastore.cur_idx st + Z.of_nat (count_true mask) in
  snd out = Ok tt
  /\ MemTransDatastore.cur_idx st' = hi
  /\ option_map (fun x => slice (elems x) lo hi) (MemTransDatastore.tokens st')
     = Some (map to_int32 (mask_select mask (concat (elems decoder_input_ids))))
  /\ option_map (fun x => slice (elems x) lo hi) (MemTransDatastore.ids st')
     = Some (map to_int32
               (mask_select mask (elems (example_ids (id_offset self) bs sl))))
  /\ map (fun rows => slice rows lo hi) (elems (MemTransDatastore.keys st'))
     = map (fun rows => map (map astype_float32) (mask_select mask rows))
         (elems (flatten_12 (permute_10 key_states)))
  /\ map (fun rows => slice rows lo hi) (elems (MemTransDatastore.values st'))
     = map (fun rows => map (map astype_float32) (mask_select mask rows))
         (elems (flatten_12 (permute_10 value_states))).
Proof.
  cbv zeta. intros Hwf Hmode Hnh Hd Wk Wv Sk Sv Hl Hdi Sl Rl Sd Rd Hroom.
  destruct (flatten_permute_wf key_states bs nh sl d Wk Sk) as [SK RK].
  destruct (flatten_permute_wf value_states bs nh sl d Wv Sv) as [SV RV].
  destruct (flatten_01_rows labels bs sl Sl Rl) as [SL LL].
  destruct (flatten_01_rows decoder_input_ids bs sl Sd Rd) as [SD LD].
  set (mask := mkTensor (shape (flatten_01 labels))
                 (map (fun x => negb (x =? -100)) (elems (flatten_01 labels)))).
  assert (Sm : shape mask = [(bs * sl)%nat]) by exact SL.
  assert (Lm : length (elems mask) = (bs * sl)%nat)
    by (unfold mask; cbn [elems]; now rewrite length_map).
  assert (Em : elems mask = map (fun x => negb (x =? -100)) (concat (elems labels))).
  { unfold mask, flatten_01. now destruct (shape labels) as [|? [|? ?]]. }
  destruct (index_mask1_rows _ mask nh (bs * sl) d SK RK Sm Lm) as (ks & Eks & Lks & Sks & Wks).
  destruct (index_mask1_rows _ mask nh (bs * sl) d SV RV Sm Lm) as (vs & Evs & Lvs & Svs & Wvs).
  destruct (index_mask0_rows (flatten_01 decoder_input_ids) mask (bs * sl) SD LD Sm Lm)
    as (ts & Ets & Lts & Sts & Wts).
  destruct (index_mask0_rows (example_ids (id_offset self) bs sl) mask (bs * sl)
              eq_refl (example_ids_length _ _ _) Sm Lm) as (iv & Eiv & Liv & Siv & Wiv).
  unfold save. rewrite Sk. unfold MemTransDatastore.get_labels. rewrite Hl, Hdi.
  fold mask. rewrite Eks, Evs. cbn [bind]. rewrite Ets, Eiv. cbn [bind].
  cbn [dstore set_id_offset].
  pose proof (save_key_value_fits astype_float32 (dstore self) (count_true (elems mask))
                (ks, vs, Some ts, Some iv) Hwf) as Hfit.
  cbv zeta in Hfit. cbn [MemTransDatastore.apply_call] in Hfit.
  destruct (MemTransDatastore.save_key_value astype_float32 (dstore self) ks vs
              (Some ts) (Some iv)) as [st' res].
  cbn [fst snd dstore set_dstore].
  rewrite <- Em.
  destruct Hfit as (H1 & H2 & H3 & H4 & H5 & H6); try assumption.
  - unfold MemTransDatastore.batch_ok. rewrite Wks, Wvs, Wts, Wiv, Sks, Svs, Sts, Siv.
    rewrite Hnh, Hd, !Nat2Z.id. cbn [andb].
    now rewrite !(proj2 (shape_eqb_eq _ _) eq_refl).
  - now rewrite Em.
  - split; [exact H1 | ]. split; [exact H2 | ].
    cbn [option_map] in H5, H6. rewrite Lts in H5. rewrite Liv in H6.
    split; [ | split; [ | split ]].
    + rewrite H5. unfold flatten_01. rewrite Sd. reflexivity.
    + exact H6.
    + rewrite H3, Lks, map_map. reflexivity.
    + rewrite H4, Lvs, map_map. reflexivity.
Qed.

End SaveContent.

(** ** The theorems above at sample inputs *)

Lemma retrieve_multi_token_retrieves_nothing_witness :
  MemTransAttn.id_offset
    (fst (fst (AttnSamples.retrieve_ AttnSamples.mta_skip2 MoreSamples.query2 2 None)))
  = 1
  /\ MemTransAttn.by_ids_cache
       (fst (fst (AttnSamples.retrieve_ AttnSamples.mta_skip2 MoreSamples.query2 2 None)))
     = None.
Proof.
  destruct (retrieve_multi_token_retrieves_nothing Samples.search0 0
              AttnSamples.strided_lookup3 AttnSamples.strided_lookup1
              AttnSamples.mta_skip2 MoreSamples.query2 1 1 2 1 2 None
              eq_refl ltac:(lia) eq_refl) as (_ & _ & H1 & H2 & _).
  split; [exact H1 | exact H2].
Defined.

Lemma retrieve_cache_answers_any_ids_witness :
  snd (fst (AttnSamples.retrieve_ AttnSamples.mta_cached AttnSamples.query1 4
              (Some (mkTensor [1]%nat [2]))))
  = [MemTransAttn.by_ids_cache_hit].
Proof.
  destruct (MemTransAttn.by_ids_cache AttnSamples.mta_cached) as [cached|] eqn:E;
    [ | vm_compute in E; discriminate E ].
  exact (proj1 (retrieve_cache_answers_any_ids Samples.search0 0
                  AttnSamples.strided_lookup3 AttnSamples.strided_lookup1
                  AttnSamples.mta_cached cached AttnSamples.query1 1 1 1 4
                  (Some (mkTensor [1]%nat [2])) eq_refl E eq_refl eq_refl)).
Defined.

Lemma forward_save_stage_outputs_witness :
  exists out : @outputs Z,
    snd (AttnSamples.forward_ (AttnSamples.layer_of AttnSamples.mta_save)
           MoreSamples.hidden2 None None None None None None false false)
    = Ok out
    /\ snd (AttnSamples.forward_ (AttnSamples.layer_of MoreSamples.mta_other)
              MoreSamples.hidden2 None None None None None None false false)
       = Ok out.
Proof.
  destruct (AttnSamples.forward_ (AttnSamples.layer_of AttnSamples.mta_save)
              MoreSamples.hidden2 None None None None None None false false)
    as [self' [out|e]] eqn:E; [ | vm_compute in E; discriminate E ].
  exists out. split; [reflexivity | ].
  pose proof (proj1 (forward_save_stage_outputs AttnSamples.torchZ (fun x => x)
                       Samples.search0 0 AttnSamples.strided_lookup3
                       AttnSamples.strided_lookup1
                       (AttnSamples.layer_of AttnSamples.mta_save) self'
                       MoreSamples.mta_other "none"
                       MoreSamples.hidden2 None None None None None None false false
                       out eq_refl eq_refl E)) as H.
  exact (f_equal snd H).
Defined.

Lemma unshape_shape_states_inverse_witness :
  exists y : T4 Z,
    shape_states MoreSamples.layer_heads2 1 MoreSamples.states22 = Ok y
    /\ unshape y = Ok MoreSamples.states22.
Proof.
  destruct (shape_states MoreSamples.layer_heads2 1 MoreSamples.states22) as [y|e] eqn:E;
    [ | vm_compute in E; discriminate E ].
  exists y. split; [reflexivity | ].
  exact (proj1 (unshape_shape_states_inverse MoreSamples.layer_heads2 1)
           MoreSamples.states22 y eq_refl E).
Defined.

Lemma project_appends_to_cache_witness :
  exists y : T4 Z,
    project (AttnSamples.layer_of AttnSamples.mta_skip2) 1 AttnSamples.hidden1
      (fun x => x) None (Some AttnSamples.keys2) = Ok y
    /\ to_dim2 y 2 = AttnSamples.keys2.
Proof.
  destruct (project (AttnSamples.layer_of AttnSamples.mta_skip2) 1 AttnSamples.hidden1
              (fun x => x) None (Some AttnSamples.keys2)) as [y|e] eqn:E;
    [ | vm_compute in E; discriminate E ].
  exists y. split; [reflexivity | ].
  destruct (project_appends_to_cache (AttnSamples.layer_of AttnSamples.mta_skip2) 1
              AttnSamples.hidden1 (fun x => x) AttnSamples.keys2 y eq_refl eq_refl E)
    as (hs & b & n & p & s & d & _ & Hp & _ & _ & Hto & _).
  injection Hp as <- <- <- <-. exact Hto.
Defined.

Lemma save_stores_unmasked_positions_witness :
  let out := MemTransAttn.save (fun x => x) AttnSamples.mta_save
               AttnSamples.keys2 AttnSamples.values2 in
  snd out = Ok tt
  /\ MemTransDatastore.cur_idx (MemTransAttn.dstore (fst out)) = 1
  /\ option_map (fun x => slice (elems x) 0 1)
       (MemTransDatastore.tokens (MemTransAttn.dstore (fst out)))
     = Some [0].
Proof.
  cbv zeta.
  destruct (save_stores_unmasked_positions (fun x => x) AttnSamples.mta_save
              AttnSamples.keys2 AttnSamples.values2 1 1 2 1
              (mkTensor [1; 2]%nat [[5; -100]]) (mkTensor [1; 2]%nat [[0; 5]])
              eq_refl eq_refl eq_refl eq_refl eq_refl eq_refl eq_refl eq_refl
              eq_refl eq_refl eq_refl eq_refl eq_refl eq_refl ltac:(simpl; lia))
    as (H1 & H2 & H3 & _).
  split; [exact H1 | ]. split; [exact H2 | exact H3].
Defined.

(** * [build_index] *)

Section Batches.
Context {A : Type}.

Lemma slice_nat (l : list A) (a n : nat) :
  (a <= length l)%nat ->
  slice l (Z.of_nat a) (Z.of_nat a + Z.of_nat n) = firstn n (skipn a l).
Proof.
  intros Ha. unfold slice.
  rewrite (slice_bound_in (length l) (Z.of_nat a)) by lia.
  rewrite (slice_bound_nonneg (length l) (Z.of_nat a + Z.of_nat n)) by lia.
  rewrite Nat2Z.id.
  replace (Z.to_nat (Z.of_nat a + Z.of_nat n)) with (a + n)%nat by lia.
  destruct (Nat.le_ge_cases (a + n) (length l)) as [H|H].
  - f_equal. lia.
  - replace (Nat.min (a + n) (length l) - a)%nat with (length l - a)%nat by lia.
    rewrite <- (length_skipn a l).
    rewrite firstn_all. symmetry. apply firstn_all2. rewrite length_skipn. lia.
Qed.

(** consecutive batches of [n] entries cover the list *)
Lemma concat_batches (n : nat) :
  forall (c : nat) (l : list A),
    (length l <= c * n)%nat ->
    concat (map (fun i => firstn n (skipn (i * n) l)) (seq 0 c)) = l.
Proof.
  induction c as [|c IH]; intros l Hl.
  - simpl in *. now destruct l.
  - cbn [seq map concat]. cbn [Nat.mul skipn].
    rewrite <- seq_shift, map_map.
    rewrite (map_ext _ (fun i => firstn n (skipn (i * n) (skipn n l)))).
    + rewrite IH by (rewrite length_skipn; simpl in Hl; lia). apply firstn_skipn.
    + intros i. rewrite skipn_skipn. do 2 f_equal. simpl. lia.
Qed.

End Batches.

Lemma range_count (n b : Z) :
  0 < b -> 0 <= n ->
  let count := if 0 <? n then (n - 1) / b + 1 else 0 in
  0 <= count /\ n <= count * b /\ (forall i, 0 <= i < count -> i * b < n).
Proof.
  intros Hb Hn. cbv zeta. destruct (0 <? n) eqn:E.
  - apply Z.ltb_lt in E.
    pose proof (Z.div_pos (n - 1) b ltac:(lia) Hb) as Hq.
    pose proof (Z.mul_div_le (n - 1) b Hb) as H1.
    pose proof (Z.mul_succ_div_gt (n - 1) b Hb) as H2.
    split; [lia | ]. split; [nia | ]. intros i Hi. nia.
  - apply Z.ltb_ge in E. split; [lia | ]. split; [lia | ]. intros i Hi. lia.
Qed.

Section BuildIndexProps.
Import MemTransDatastore.
Context {F Index : Type}.
Variable astype_float32 : F -> F.
Variable index_flat_ip : Z -> Index.
Variable is_trained : Index -> bool.
Variable index_train : Index -> T2 F -> Index.
Variable index_add : Index -> T2 F -> Index.

Local Abbreviation store := (@MemTransDatastore.t F Index).
Local Abbreviation build_index_ :=
  (build_index astype_float32 index_flat_ip is_trained index_train index_add).
Local Abbreviation build_index_loop_ :=
  (build_index_loop astype_float32 index_flat_ip is_trained index_train index_add).

(** the unused slots removed from the keys of head [h] *)
Local Abbreviation kept_of self h :=
  (slice_to (nth h (elems (keys self)) []) (cur_idx self)).

Local Abbreviation head_keys self h :=
  (mkTensor (length (kept_of self h) :: skipn 2 (shape (keys self))) (kept_of self h)).

Local Abbreviation starts_of self batch_size h :=
  (match py_range 0 (Z.of_nat (length (kept_of self h))) batch_size with
   | Ok starts => starts
   | Raise _ => []
   end).

(** what the loop records for head [h] *)
Local Abbreviation head_events loc self batch_size h :=
  (map (fun b => index_add_call h
                   (t2_map astype_float32
                      (t2_slice (head_keys self h) b (b + batch_size))))
       (starts_of self batch_size h)
   ++ [write_index_call h (index_path loc self (Z.of_nat h))]).

Lemma add_batches_log (h : nat) (keys_one_head : T2 F) (batch_size : Z)
  (starts : list Z) :
  forall index log,
    snd (add_batches astype_float32 index_add index h keys_one_head batch_size starts log)
    = log ++ map (fun b => index_add_call h
                             (t2_map astype_float32
                                (t2_slice keys_one_head b (b + batch_size)))) starts.
Proof.
  induction starts as [|b starts IH]; intros index log; cbn [add_batches map].
  - now rewrite app_nil_r.
  - rewrite IH. now rewrite <- app_assoc.
Qed.

Lemma py_range_nonzero (start stop step : Z) :
  step <> 0 -> exists starts, py_range start stop step = Ok starts.
Proof.
  intros H. unfold py_range.
  destruct (step =? 0) eqn:E; [apply Z.eqb_eq in E; contradiction | ].
  eexists. reflexivity.
Qed.

Lemma build_index_loop_log (loc : location) (self : store) (batch_size : Z)
  (heads : list nat) :
  batch_size <> 0 ->
  Forall (fun h => (h < length (elems (keys self)))%nat) heads ->
  forall acc log,
    let out := build_index_loop_ loc self batch_size heads acc log in
    snd out = Ok tt
    /\ length (fst (fst out)) = (length acc + length heads)%nat
    /\ snd (fst out) = log ++ flat_map (fun h => head_events loc self batch_size h) heads.
Proof.
  intros Hb. induction 1 as [|h heads Hh Hrest IH]; intros acc log; cbv zeta.
  - cbn. rewrite app_nil_r. repeat split; lia.
  - cbn [build_index_loop flat_map].
    rewrite (getitem_nat (elems (keys self)) h [] Hh).
    destruct (py_range_nonzero 0 (Z.of_nat (length (kept_of self h))) batch_size Hb)
      as [starts Hst].
    rewrite Hst.
    match goal with
    | |- context [add_batches ?a ?b ?i ?hh ?k ?bs ?st ?lg] =>
        pose proof (add_batches_log hh k bs st i lg) as Hlog;
        destruct (add_batches a b i hh k bs st lg) as [index' log']
    end.
    cbn [snd] in Hlog. subst log'.
    match goal with
    | |- context [build_index_loop _ _ _ _ _ _ _ _ heads ?a ?l] => specialize (IH a l)
    end.
    cbv zeta in IH. destruct IH as (IH1 & IH2 & IH3).
    split; [exact IH1 | ]. split.
    + rewrite IH2, length_app. cbn [length]. lia.
    + rewrite IH3. rewrite <- !app_assoc. reflexivity.
Qed.

(** the batches of a positive size are non-empty, no longer than the size,
    and cover the rows in order *)
Lemma batches_cover {A : Type} (kept : list A) (batch_size : Z) (starts : list Z) :
  0 < batch_size ->
  py_range 0 (Z.of_nat (length kept)) batch_size = Ok starts ->
  concat (map (fun b => slice kept b (b + batch_size)) starts) = kept
  /\ Forall (fun b => (1 <= length (slice kept b (b + batch_size)))%nat
                      /\ Z.of_nat (length (slice kept b (b + batch_size))) <= batch_size)
       starts.
Proof.
  intros Hb Hr. unfold py_range in Hr.
  destruct (batch_size =? 0) eqn:E0; [apply Z.eqb_eq in E0; lia | ].
  apply Z.ltb_lt in Hb. rewrite Hb in Hr. apply Z.ltb_lt in Hb.
  rewrite Z.sub_0_r in Hr. injection Hr as <-.
  destruct (range_count (Z.of_nat (length kept)) batch_size Hb ltac:(lia))
    as (Hc0 & Hc1 & Hc2).
  set (count := if 0 <? Z.of_nat (length kept)
                then (Z.of_nat (length kept) - 1) / batch_size + 1 else 0) in *.
  set (n := Z.to_nat batch_size).
  assert (Hslice : forall i, (i < Z.to_nat count)%nat ->
             slice kept (Z.of_nat i * batch_size) (Z.of_nat i * batch_size + batch_size)
             = firstn n (skipn (i * n) kept)).
  { intros i Hi. specialize (Hc2 (Z.of_nat i) ltac:(lia)).
    replace (Z.of_nat i * batch_size) with (Z.of_nat (i * n)) by (unfold n; nia).
    replace batch_size with (Z.of_nat n) at 1 by (unfold n; lia).
    apply slice_nat. unfold n. nia. }
  rewrite map_map. split.
  - rewrite (map_ext_in _ (fun i => firstn n (skipn (i * n) kept))).
    + apply concat_batches. unfold n. nia.
    + intros i Hi. apply in_seq in Hi. cbn [Z.add]. apply Hslice. lia.
  - apply Forall_forall. intros b Hin. apply in_map_iff in Hin.
    destruct Hin as (i & <- & Hi). apply in_seq in Hi. cbn [Z.add].
    rewrite Hslice by lia. specialize (Hc2 (Z.of_nat i) ltac:(lia)).
    rewrite length_firstn, length_skipn. unfold n. split; nia.
Qed.

Lemma added_rows_app (h : nat) (l1 l2 : list (@build_event F)) :
  added_rows h (l1 ++ l2) = added_rows h l1 ++ added_rows h l2.
Proof. unfold added_rows. apply flat_map_app. Qed.

Lemma added_rows_adds (h h' : nat) (batches : list (T2 F)) :
  added_rows h (map (index_add_call h') batches)
  = if Nat.eqb h' h then concat (map elems batches) else [].
Proof.
  unfold added_rows. induction batches as [|b batches IH]; cbn [map flat_map concat].
  - now destruct (Nat.eqb h' h).
  - rewrite IH. destruct (Nat.eqb h' h); reflexivity.
Qed.

Lemma added_rows_heads (loc : location) (self : store) (batch_size : Z) (h : nat)
  (heads : list nat) :
  NoDup heads -> In h heads ->
  added_rows h (flat_map (fun h' => head_events loc self batch_size h') heads)
  = concat (map (fun b => elems (t2_map astype_float32
                                   (t2_slice (head_keys self h) b (b + batch_size))))
              (starts_of self batch_size h)).
Proof.
  assert (Hone : forall h',
             added_rows h (head_events loc self batch_size h')
             = if Nat.eqb h' h
               then concat (map (fun b => elems (t2_map astype_float32
                                                   (t2_slice (head_keys self h') b
                                                      (b + batch_size))))
                              (starts_of self batch_size h'))
               else []).
  { intros h'. rewrite added_rows_app.
    rewrite <- (map_map (fun b => t2_map astype_float32
                                    (t2_slice (head_keys self h') b (b + batch_size)))
                  (index_add_call h')).
    rewrite added_rows_adds, map_map. cbn [added_rows flat_map].
    rewrite app_nil_r. reflexivity. }
  assert (Hnone : forall l, ~ In h l ->
             added_rows h (flat_map (fun h' => head_events loc self batch_size h') l) = []).
  { induction l as [|x l IHl]; intros Hn; [reflexivity | ].
    cbn [flat_map]. rewrite added_rows_app, Hone.
    destruct (Nat.eqb x h) eqn:E; [apply Nat.eqb_eq in E; subst; simpl in Hn; tauto | ].
    rewrite IHl; [reflexivity | ]. simpl in Hn. tauto. }
  induction 1 as [|x l Hx Hnd IH]; intros Hin; [contradiction | ].
  cbn [flat_map]. rewrite added_rows_app, Hone.
  destruct (Nat.eqb x h) eqn:E.
  - apply Nat.eqb_eq in E. subst x. rewrite (Hnone l Hx). apply app_nil_r.
  - destruct Hin as [->|Hin]; [rewrite Nat.eqb_refl in E; discriminate | ].
    now rewrite IH.
Qed.

(** X14. [build_index] with a positive batch size, on a well-formed store,
    returns normally with one index per head in [self.indices], and the
    index of head [h] is given exactly the first [cur_idx] stored keys of
    head [h], as float32 and in store order: the batches added for the head
    are non-empty, hold at most [batch_size] rows each and, put end to end,
    are these keys, so that the row numbers a search returns are positions
    in the store. Each head's index is written once, to its own index
    path, in head order. *)
Theorem build_index_adds_stored_keys (loc : location) (self : store) (batch_size : Z) :
  wf self = true -> 0 < batch_size ->
  let out := build_index_ loc self batch_size in
  let log := snd (fst out) in
  snd out = Ok tt
  /\ option_map (@length Index) (indices (fst (fst out))) = Some (Z.to_nat (n_heads self))
  /\ (forall (h : nat) (rows : list (list F)),
        nth_error (elems (keys self)) h = Some rows ->
        added_rows h log = map (map astype_float32) (slice_to rows (cur_idx self)))
  /\ Forall (fun ev => match ev with
                       | index_add_call _ batch =>
                           (1 <= length (elems batch))%nat
                           /\ Z.of_nat (length (elems batch)) <= batch_size
                       | write_index_call _ _ => True
                       end) log
  /\ flat_map (fun ev => match ev with
                         | index_add_call _ _ => []
                         | write_index_call h index_name => [(h, index_name)]
                         end) log
     = map (fun h => (h, index_path loc self (Z.of_nat h)))
         (seq 0 (Z.to_nat (n_heads self))).
Proof.
  intros Hwf Hb. cbv zeta.
  apply wf_wfP in Hwf.
  destruct Hwf as (P1 & P2 & P3 & P4 & P6 & P7 & P8 & P9 & _).
  destruct (wf3_shape _ P6) as (a1 & b1 & c1 & S1 & R1). rewrite P8 in S1.
  injection S1 as <- <- <-. apply rows_ok_inv in R1. destruct R1 as [L1 _].
  pose proof (build_index_loop_log loc self batch_size (seq 0 (Z.to_nat (n_heads self)))
                ltac:(lia)) as Hloop.
  unfold build_index.
  destruct (build_index_loop_ loc self batch_size (seq 0 (Z.to_nat (n_heads self))) [] [])
    as [[ix log] res] eqn:E.
  specialize (Hloop ltac:(apply Forall_forall; intros h Hh; apply in_seq in Hh; lia) [] []).
  cbv zeta in Hloop. rewrite E in Hloop. cbn [fst snd app length] in Hloop.
  destruct Hloop as (Hres & Hlen & Hlog). cbn [fst snd set_indices indices option_map].
  rewrite length_seq in Hlen. rewrite Nat.add_0_l in Hlen. subst log.
  assert (Hcover : forall h,
             concat (map (fun b => slice (kept_of self h) b (b + batch_size))
                       (starts_of self batch_size h)) = kept_of self h
             /\ Forall (fun b => (1 <= length (slice (kept_of self h) b (b + batch_size)))%nat
                                 /\ Z.of_nat (length (slice (kept_of self h) b (b + batch_size)))
                                    <= batch_size)
                  (starts_of self batch_size h)).
  { intros h.
    destruct (py_range_nonzero 0 (Z.of_nat (length (kept_of self h))) batch_size
                ltac:(lia)) as [starts Hst].
    rewrite Hst. now apply batches_cover. }
  split; [exact Hres | ]. split; [now rewrite Hlen | ]. split; [ | split ].
  - intros h rows Hrows.
    assert (Hh : (h < Z.to_nat (n_heads self))%nat).
    { rewrite <- L1. apply nth_error_Some. congruence. }
    rewrite added_rows_heads by (apply seq_NoDup || (apply in_seq; lia)).
    unfold t2_map, t2_slice. cbn [elems].
    pose proof (proj1 (Hcover h)) as Hc.
    rewrite (nth_error_nth _ _ [] Hrows) in Hc |- *.
    etransitivity; [ | apply (f_equal (map (map astype_float32))); exact Hc ].
    rewrite concat_map, map_map. reflexivity.
  - apply Forall_forall. intros ev Hev. apply in_flat_map in Hev.
    destruct Hev as (h & _ & Hev). apply in_app_or in Hev.
    destruct Hev as [Hev | [<- | []]]; [ | exact I ].
    apply in_map_iff in Hev. destruct Hev as (b & <- & Hb').
    unfold t2_map, t2_slice. cbn [elems]. rewrite length_map.
    pose proof (proj2 (Hcover h)) as Hall. rewrite Forall_forall in Hall.
    exact (Hall b Hb').
  - generalize (seq 0 (Z.to_nat (n_heads self))). intros heads.
    induction heads as [|h heads IH]; [reflexivity | ].
    cbn [flat_map map]. rewrite flat_map_app, IH, flat_map_app.
    cbn [flat_map app].
    match goal with
    | |- (?x ++ _) ++ _ = _ => replace x with (@nil (nat * string)); [reflexivity | ]
    end.
    symmetry. induction (starts_of self batch_size h) as [|b l IHl]; [reflexivity | ].
    cbn [map flat_map app]. exact IHl.
Qed.

(** X15. The batch size of [build_index] at its edges. With a batch size of
    0 the call raises ValueError (the step of [range] is zero) after it has
    created the index of the first head: nothing is added and nothing is
    written. With a negative batch size the call returns normally and
    writes the index of every head, but not a single key has been added. *)
Theorem build_index_batch_size_edges (loc : location) (self : store) (batch_size : Z) :
  wf self = true -> 0 < n_heads self ->
  (batch_size = 0 ->
   let out := build_index_ loc self batch_size in
   snd out = Raise ValueError /\ snd (fst out) = []
   /\ option_map (@length Index) (indices (fst (fst out))) = Some 1%nat)
  /\ (batch_size < 0 ->
      let out := build_index_ loc self batch_size in
      snd out = Ok tt
      /\ snd (fst out)
         = map (fun h => write_index_call h (index_path loc self (Z.of_nat h)))
             (seq 0 (Z.to_nat (n_heads self)))).
Proof.
  intros Hwf Hn.
  apply wf_wfP in Hwf.
  destruct Hwf as (P1 & P2 & P3 & P4 & P6 & P7 & P8 & P9 & _).
  destruct (wf3_shape _ P6) as (a1 & b1 & c1 & S1 & R1). rewrite P8 in S1.
  injection S1 as <- <- <-. apply rows_ok_inv in R1. destruct R1 as [L1 _].
  split.
  - intros ->. cbv zeta. unfold build_index.
    destruct (Z.to_nat (n_heads self)) as [|n] eqn:En; [lia | ].
    cbn [seq build_index_loop].
    rewrite (getitem_nat (elems (keys self)) 0 []) by lia.
    unfold py_range. cbn. repeat split.
  - intros Hb. cbv zeta.
    pose proof (build_index_loop_log loc self batch_size (seq 0 (Z.to_nat (n_heads self)))
                  ltac:(lia)) as Hloop.
    unfold build_index.
    destruct (build_index_loop_ loc self batch_size (seq 0 (Z.to_nat (n_heads self))) [] [])
      as [[ix log] res] eqn:E.
    specialize (Hloop ltac:(apply Forall_forall; intros h Hh; apply in_seq in Hh; lia) [] []).
    cbv zeta in Hloop. rewrite E in Hloop. cbn [fst snd app length] in Hloop.
    destruct Hloop as (Hres & _ & Hlog). cbn [fst snd]. split; [exact Hres | ].
    subst log. generalize (seq 0 (Z.to_nat (n_heads self))). intros heads.
    induction heads as [|h heads IH]; [reflexivity | ].
    cbn [flat_map map]. rewrite IH. unfold py_range.
    destruct (batch_size =? 0) eqn:E0; [apply Z.eqb_eq in E0; lia | ].
    destruct (0 <? batch_size) eqn:E1; [apply Z.ltb_lt in E1; lia | ].
    destruct (Z.of_nat (length (kept_of self h)) <? 0) eqn:E2;
      [apply Z.ltb_lt in E2; lia | ].
    reflexivity.
Qed.

Lemma build_index_loop_nothing_stored (loc : location) (self : store) (batch_size : Z)
  (heads : list nat) :
  cur_idx self = 0 ->
  forall acc log,
    Forall (fun ev => match ev with
                      | index_add_call _ _ => False
                      | write_index_call _ _ => True
                      end) log ->
    Forall (fun ev => match ev with
                      | index_add_call _ _ => False
                      | write_index_call _ _ => True
                      end)
      (snd (fst (build_index_loop_ loc self batch_size heads acc log))).
Proof.
  intros Hc. induction heads as [|h heads IH]; intros acc log Hlog; [exact Hlog | ].
  cbn [build_index_loop].
  destruct (getitem (elems (keys self)) (Z.of_nat h)) as [rows|e]; [ | exact Hlog ].
  rewrite Hc. unfold slice_to at 1 2 3. unfold slice_bound at 1 2 3.
  cbn [Z.ltb Z.compare Z.to_nat Nat.min firstn length Z.of_nat].
  unfold py_range. destruct (batch_size =? 0); [exact Hlog | ].
  destruct (0 <? batch_size); cbn [Z.ltb Z.compare Z.to_nat seq map add_batches];
    apply IH; apply Forall_app; (split; [exact Hlog | repeat constructor]).
Qed.

End BuildIndexProps.

(** * The constructor *)

Section InitProps.
Import MemTransDatastore.
Context {F Index : Type}.
Variable astype_float32 : F -> F.
Variable knnlm_get_dstore_path : string -> string -> Z -> Z -> string.
Variable os_path_exists : string -> bool.
Variable np_memmap3 : string -> mmap_mode -> Z * Z * Z -> result (T3 F).
Variable np_memmap1 : string -> mmap_mode -> Z -> result (T1 Z).
Variable index_flat_ip : Z -> Index.
Variable is_trained : Index -> bool.
Variable index_train : Index -> T2 F -> Index.
Variable index_add : Index -> T2 F -> Index.

Local Abbreviation store := (@MemTransDatastore.t F Index).
Local Abbreviation init_ :=
  (init (Index := Index) knnlm_get_dstore_path os_path_exists np_memmap3 np_memmap1).

(** X16. The store object as the constructor leaves it. Its [cur_idx] is 0
    whatever the files hold, so [build_index] on it adds no key to any
    index, for every batch size: keys get into an index only through the
    object that saved them. The four arrays are opened read-only exactly
    when the key file exists, and then no [save_key_value] succeeds or
    changes anything. The tokens and the ids are both mapped or both
    unset. *)
Theorem init_leaves_nothing_to_index (loc : location) (size_ dimension_ n_heads_ : Z)
  (self : store) :
  init_ loc size_ dimension_ n_heads_ = Ok self ->
  let key_file :=
    fst (fst (fst (get_dstore_path knnlm_get_dstore_path loc size_ dimension_))) in
  cur_idx self = 0
  /\ (size self, dimension self, n_heads self) = (size_, dimension_, n_heads_)
  /\ mode self = (if os_path_exists key_file then mode_r else mode_w_plus)
  /\ (tokens self = None <-> ids self = None)
  /\ (forall (loc' : location) (batch_size : Z),
        Forall (fun ev => match ev with
                          | index_add_call _ _ => False
                          | write_index_call _ _ => True
                          end)
          (snd (fst (build_index astype_float32 index_flat_ip is_trained index_train
                       index_add loc' self batch_size))))
  /\ (os_path_exists key_file = true ->
      forall (k v : T3 F) (tk i : option (T1 Z)),
        fst (save_key_value astype_float32 self k v tk i) = self
        /\ exists e, snd (save_key_value astype_float32 self k v tk i) = Raise e).
Proof.
  unfold init. cbn [get_dstore_path fst]. intros H.
  repeat inv_bind H.
  set (mode_ := if os_path_exists _ then mode_r else mode_w_plus) in *.
  assert (Hself : cur_idx self = 0
                  /\ (size self, dimension self, n_heads self) = (size_, dimension_, n_heads_)
                  /\ mode self = mode_
                  /\ (tokens self = None <-> ids self = None)).
  { destruct (np_memmap1 _ mode_ size_) as [tk|];
      [destruct (np_memmap1 _ mode_ size_) as [idt|] | ];
      injection H as <-; cbn; repeat split; intros; congruence. }
  destruct Hself as (Hc & Hcfg & Hm & Hti).
  split; [exact Hc | ]. split; [exact Hcfg | ]. split; [exact Hm | ].
  split; [exact Hti | ]. split.
  - intros loc' batch_size. unfold build_index.
    pose proof (build_index_loop_nothing_stored astype_float32 index_flat_ip is_trained
                  index_train index_add loc' self batch_size
                  (seq 0 (Z.to_nat (n_heads self))) Hc [] [] (Forall_nil _)) as Hl.
    destruct (build_index_loop _ _ _ _ _ _ _ _ _ _ _) as [[ix log] res]. exact Hl.
  - intros Hex k v tk i. unfold mode_ in Hm. rewrite Hex in Hm.
    destruct (save_key_value_mode_r astype_float32 self k v tk i Hm) as (H1 & e & H2 & _).
    split; [exact H1 | now exists e].
Qed.

End InitProps.

(** * The files of a datastore *)

Lemma str_inj (a b : Z) : str a = str b -> a = b.
Proof.
  unfold str. intros H.
  assert (Hnn : forall z, Z.to_int z <> Decimal.Pos Decimal.Nil
                          /\ Z.to_int z <> Decimal.Neg Decimal.Nil).
  { intros [|p|p]; cbn; split; try discriminate;
      intros E; injection E as E; exact (DecimalPos.Unsigned.to_uint_nonnil p E). }
  apply DecimalZ.to_int_inj.
  pose proof (NilZero.isi (Z.to_int a) (proj1 (Hnn a)) (proj2 (Hnn a))) as Ha.
  pose proof (NilZero.isi (Z.to_int b) (proj1 (Hnn b)) (proj2 (Hnn b))) as Hb.
  rewrite H in Ha. rewrite Ha in Hb. now injection Hb.
Qed.

Lemma append_cancel_l (s a b : string) : (s ++ a = s ++ b)%string -> a = b.
Proof. induction s as [|c s IH]; cbn; intros H; [exact H | injection H as H; auto]. Qed.

Lemma append_length (a b : string) :
  String.length (a ++ b) = (String.length a + String.length b)%nat.
Proof. induction a as [|c a IH]; cbn; [reflexivity | now rewrite IH]. Qed.

Lemma append_cancel_r (s a b : string) : (a ++ s = b ++ s)%string -> a = b.
Proof.
  intros H. assert (Hl : String.length a = String.length b).
  { apply (f_equal String.length) in H. rewrite !append_length in H. lia. }
  revert b H Hl. induction a as [|c a IH]; intros [|c' b] H Hl; try discriminate Hl.
  - reflexivity.
  - cbn in H. injection H as -> H. f_equal. apply IH; [exact H | ]. cbn in Hl. lia.
Qed.

Lemma append_assoc_l (a b c : string) : (a ++ (b ++ c) = (a ++ b) ++ c)%string.
Proof. induction a as [|x a IH]; cbn; [reflexivity | now rewrite IH]. Qed.

Lemma append_last_char (u v : string) (c c' : ascii) :
  (u ++ String c EmptyString = v ++ String c' EmptyString)%string -> c = c'.
Proof.
  revert v. induction u as [|x u IH]; intros [|y v] H; cbn in H.
  - now injection H.
  - injection H as _ H. destruct v; discriminate H.
  - injection H as _ H. destruct u; discriminate H.
  - injection H as _ H. now apply IH in H.
Qed.

Lemma indexed_is_not_npy (s t : string) :
  (s ++ ".indexed")%string <> (t ++ ".npy")%string.
Proof.
  intros H.
  change (".indexed")%string with (".indexe" ++ String "d" EmptyString)%string in H.
  change (".npy")%string with (".np" ++ String "y" EmptyString)%string in H.
  rewrite !append_assoc_l in H. apply append_last_char in H. discriminate H.
Qed.

(** X17. The files of one datastore do not collide. The index files of two
    different heads have different paths; the four array files (keys,
    values, tokens, ids) have four different paths, whatever the common
    prefix is; and no index file is one of the array files. *)
Theorem datastore_files_distinct (dstore_dir model_type : string)
  (dstore_size dimension : Z)
  (knnlm_get_dstore_path : string -> string -> Z -> Z -> string)
  (loc : MemTransDatastore.location) :
  (forall h1 h2 : Z,
      get_index_path dstore_dir model_type dstore_size dimension h1
      = get_index_path dstore_dir model_type dstore_size dimension h2 -> h1 = h2)
  /\ (let '(key_file, val_file, tok_file, id_file) :=
        MemTransDatastore.get_dstore_path knnlm_get_dstore_path loc dstore_size dimension in
      NoDup [key_file; val_file; tok_file; id_file]
      /\ forall (dir mt : string) (sz dim h : Z),
           ~ In (get_index_path dir mt sz dim h) [key_file; val_file; tok_file; id_file]).
Proof.
  split.
  - intros h1 h2 H. unfold get_index_path in H.
    repeat (apply append_cancel_l in H). apply append_cancel_r in H.
    now apply str_inj.
  - cbn [MemTransDatastore.get_dstore_path].
    set (prefix := knnlm_get_dstore_path _ _ _ _).
    assert (Hne : forall a b : string, a <> b -> (prefix ++ a)%string <> (prefix ++ b)%string).
    { intros a b Hab H. apply append_cancel_l in H. contradiction. }
    split.
    + repeat constructor; cbn [In]; intros H;
        repeat (destruct H as [H|H]; [revert H; apply Hne; discriminate | ]);
        exact H.
    + intros dir mt sz dim h Hin. unfold get_index_path in Hin.
      rewrite !append_assoc_l in Hin. cbn [In] in Hin.
      destruct Hin as [H|[H|[H|[H|[]]]]];
        [ change ("_keys.npy")%string with ("_keys" ++ ".npy")%string in H
        | change ("_vals.npy")%string with ("_vals" ++ ".npy")%string in H
        | change ("_tokens.npy")%string with ("_tokens" ++ ".npy")%string in H
        | change ("_ids.npy")%string with ("_ids" ++ ".npy")%string in H ];
        rewrite append_assoc_l in H; symmetry in H; exact (indexed_is_not_npy _ _ H).
Qed.

Lemma build_index_adds_stored_keys_witness :
  let out := MoreSamples.build_index_ MoreSamples.loc0 MoreSamples.store_full 2 in
  snd out = Ok tt
  /\ MemTransDatastore.added_rows 0 (snd (fst out)) = [[11]; [12]; [13]].
Proof.
  cbv zeta.
  destruct (build_index_adds_stored_keys (fun x => x) (fun _ => []) (fun _ => true)
              (fun index _ => index) MoreSamples.flat_add
              MoreSamples.loc0 MoreSamples.store_full 2 eq_refl ltac:(lia))
    as (H1 & _ & H3 & _).
  split; [exact H1 | ].
  exact (H3 0%nat [[11]; [12]; [13]] eq_refl).
Defined.

Lemma build_index_batch_size_edges_witness :
  snd (MoreSamples.build_index_ MoreSamples.loc0 MoreSamples.store_full 0)
  = Raise ValueError
  /\ snd (fst (MoreSamples.build_index_ MoreSamples.loc0 MoreSamples.store_full (-1)))
     = [MemTransDatastore.write_index_call 0 "dstore/layer-6/index_t5_3_1_0.indexed"].
Proof.
  assert (Hwf : MemTransDatastore.wf MoreSamples.store_full = true)
    by (vm_compute; reflexivity).
  assert (Hn : 0 < MemTransDatastore.n_heads MoreSamples.store_full)
    by (vm_compute; reflexivity).
  destruct (build_index_batch_size_edges (fun x => x) (fun _ => []) (fun _ => true)
              (fun index _ => index) MoreSamples.flat_add
              MoreSamples.loc0 MoreSamples.store_full 0 Hwf Hn)
    as [H0 _].
  destruct (build_index_batch_size_edges (fun x => x) (fun _ => []) (fun _ => true)
              (fun index _ => index) MoreSamples.flat_add
              MoreSamples.loc0 MoreSamples.store_full (-1) Hwf Hn)
    as [_ H1].
  split; [exact (proj1 (H0 eq_refl)) | exact (proj2 (H1 ltac:(lia)))].
Defined.

Lemma init_leaves_nothing_to_index_witness :
  exists self,
    MoreSamples.init_ MoreSamples.loc0 3 1 1 = Ok self
    /\ MemTransDatastore.cur_idx self = 0
    /\ MemTransDatastore.mode self = MemTransDatastore.mode_r.
Proof.
  destruct (MoreSamples.init_ MoreSamples.loc0 3 1 1) as [self|e] eqn:E;
    [ | vm_compute in E; discriminate E ].
  exists self. split; [reflexivity | ].
  destruct (init_leaves_nothing_to_index (fun x => x)
              (fun dir _ _ _ => (dir ++ "/dstore")%string)
              (fun _ => true)
              (fun _ _ shape_ =>
                 let '(nh, sz, dim) := shape_ in
                 Ok (zeros3 0 (Z.to_nat nh) (Z.to_nat sz) (Z.to_nat dim)))
              (fun _ _ sz => Ok (mkTensor [Z.to_nat sz] (repeat 0 (Z.to_nat sz))))
              (fun _ => []) (fun _ => true) (fun index _ => index) MoreSamples.flat_add
              MoreSamples.loc0 3 1 1 self E) as (H1 & _ & H3 & _).
  split; [exact H1 | exact H3].
Defined.

(** * [get_knns_by_ids] *)

Section ByIdsProps.
Import MemTransDatastore.
Context {F Index : Type}.
Variable strided_lookup3 : T3 F -> T1 Z -> T1 Z -> result (T4 F).
Variable strided_lookup1 : T1 Z -> T1 Z -> T1 Z -> result (T2 Z).

Local Abbreviation store := (@MemTransDatastore.t F Index).
Local Abbreviation by_ids_ := (get_knns_by_ids strided_lookup3 strided_lookup1).




End ByIdsProps.


(** * The output of [RetrievalTracker.write] *)

Section TransposeNth.
Context {A : Type}.

Lemma transpose_nth (n : nat) (d : A) (rows : list (list A)) :
  Forall (fun r => length r = n) rows ->
  transpose n rows = map (fun i => map (fun r => nth i r d) rows) (seq 0 n).
Proof.
  intros Hrows. unfold transpose. apply map_ext_in. intros i Hi. apply in_seq in Hi.
  induction Hrows as [|r rows Hr Hrows IH]; [reflexivity | ].
  cbn [flat_map map]. rewrite IH.
  destruct (nth_error r i) as [x|] eqn:E.
  - now rewrite (nth_error_nth _ _ d E).
  - apply nth_error_None in E. lia.
Qed.

End TransposeNth.

Lemma stack1_uniform {A : Type} (ts : list (Tensor (list A))) (n : nat) (rest : list nat) :
  ts <> [] -> Forall (fun x => shape x = n :: rest) ts ->
  stack1 ts = Ok (mkTensor (n :: length ts :: rest) (transpose n (map elems ts))).
Proof.
  intros Hne Hall. unfold stack1. destruct ts as [|t0 ts']; [contradiction | ].
  pose proof (Forall_inv Hall) as H0. cbv beta in H0. rewrite H0.
  replace (forallb (fun x => shape_eqb (shape x) (n :: rest)) (t0 :: ts')) with true;
    [reflexivity | ].
  symmetry. apply forallb_forall. intros x Hx.
  rewrite Forall_forall in Hall. rewrite (Hall x Hx). now apply shape_eqb_eq.
Qed.

Section WriteFormat.
Import RetrievalTracker TrackerFormat.

Lemma argmax_from_constant (k : nat) (l : list nat) :
  Forall (fun w => w = k) l -> forall i b, argmax_from l i b k = b.
Proof.
  induction 1 as [|w l -> Hl IH]; intros i b; [reflexivity | ].
  cbn [argmax_from]. rewrite Nat.ltb_irrefl. apply IH.
Qed.

(** steps of one width are handed on as they are *)
Lemma pad_steps_uniform (steps : list (T3 Z)) (widest : result (T3 Z)) (bs nh k : nat) :
  Forall (fun t => shape t = [bs; nh; k]) steps ->
  pad_steps steps widest k = Ok steps.
Proof.
  intros H. unfold pad_steps.
  rewrite (mapM_ok_map _ (fun x => x)); [now rewrite map_id | ].
  revert H. apply Forall_impl. intros t Ht. unfold size_last. rewrite Ht.
  cbn [rev app bind]. now rewrite Nat.eqb_refl.
Qed.

Lemma write_steps_written (self : t) (steps : list (list Z)) :
  let self' := write_steps self steps in
  written self' = written self ++ map join_line (until_eos (eos_token_id self) steps)
  /\ eos_token_id self' = eos_token_id self
  /\ (track_file self', n_heads self', topk self') = (track_file self, n_heads self, topk self)
  /\ (predictions self', retrieved_tokens self', retrieved_ids self')
     = (predictions self, retrieved_tokens self, retrieved_ids self).
Proof.
  revert self. induction steps as [|s rest IH]; intros self; cbv zeta.
  - cbn. now rewrite app_nil_r.
  - cbn [write_steps until_eos]. destruct (hd 0 s =? eos_token_id self).
    + cbn. now rewrite app_nil_r.
    + destruct (IH (_write self (join_line s))) as (H1 & H2 & H3 & H4).
      cbn [_write written eos_token_id track_file n_heads topk predictions
           retrieved_tokens retrieved_ids] in *.
      rewrite H1, H2. cbn [map]. rewrite <- app_assoc. repeat split; assumption.
Qed.

Lemma write_rows_written (agg : list (list (list Z))) :
  forall self : t,
    let self' := write_rows self agg in
    written self'
    = written self
      ++ flat_map (fun row => map join_line (until_eos (eos_token_id self) row) ++ [newline])
           agg
    /\ eos_token_id self' = eos_token_id self
    /\ (track_file self', n_heads self', topk self') = (track_file self, n_heads self, topk self)
    /\ (predictions self', retrieved_tokens self', retrieved_ids self')
       = (predictions self, retrieved_tokens self, retrieved_ids self).
Proof.
  induction agg as [|row agg IH]; intros self; cbv zeta.
  - cbn. now rewrite app_nil_r.
  - cbn [write_rows flat_map].
    destruct (write_steps_written self row) as (W1 & W2 & W3 & W4).
    destruct (IH (_write (write_steps self row) newline)) as (H1 & H2 & H3 & H4).
    cbn [_write written eos_token_id track_file n_heads topk predictions
         retrieved_tokens retrieved_ids] in *.
    rewrite H1, H2, W1, W2. rewrite <- !app_assoc.
    repeat split; congruence.
Qed.

Lemma map2_zip3 {P T D X Y Z' W : Type} (f : X -> Y * Z' -> W)
  (a : P -> X) (b : T -> Y) (c : D -> Z') (ps : list P) :
  forall (ts : list T) (ds : list D),
    length ts = length ps -> length ds = length ps ->
    map2 f (map a ps) (combine (map b ts) (map c ds))
    = map (fun s => let '(p, t, d) := s in f (a p) (b t, c d))
        (combine (combine ps ts) ds).
Proof.
  induction ps as [|p ps IH]; intros [|t ts] [|d ds] Ht Hd; try discriminate;
    [reflexivity | ].
  cbn [map combine map2]. f_equal. apply IH; simpl in *; lia.
Qed.

Lemma set_buffers_id (self : t) :
  set_buffers self (predictions self) (retrieved_tokens self) (retrieved_ids self) = self.
Proof. now destruct self. Qed.

(** X19. What [write] emits. With at least one step buffered and all steps
    of one shape (predictions (batch_size), retrieved tokens and ids
    (batch_size, n_heads, topk)), [write] returns normally, empties the
    three buffers and appends to the output, for each batch row in turn,
    one line per step up to (and without) the first step whose prediction
    is the end-of-sequence token, and then an empty line. A line holds the
    prediction followed, head by head and neighbour by neighbour, by the
    retrieved token and its id, separated by single spaces. *)
Theorem write_emits_lines (self : t) (bs nh k : nat) :
  predictions self <> [] ->
  length (retrieved_tokens self) = length (predictions self) ->
  length (retrieved_ids self) = length (predictions self) ->
  Forall (fun p => shape p = [bs] /\ length (elems p) = bs) (predictions self) ->
  Forall (fun x => shape x = [bs; nh; k] /\ length (elems x) = bs) (retrieved_tokens self) ->
  Forall (fun x => shape x = [bs; nh; k] /\ length (elems x) = bs) (retrieved_ids self) ->
  let steps :=
    combine (combine (predictions self) (retrieved_tokens self)) (retrieved_ids self) in
  let out := write self in
  snd out = Ok tt
  /\ written (fst out) = written self ++ lines (eos_token_id self) bs steps
  /\ (predictions (fst out), retrieved_tokens (fst out), retrieved_ids (fst out))
     = ([], [], [])
  /\ (track_file (fst out), n_heads (fst out), topk (fst out), eos_token_id (fst out))
     = (track_file self, n_heads self, topk self, eos_token_id self).
Proof.
  intros Hne Lt Li Hp Ht Hi.
  assert (Sp : Forall (fun p : T1 Z => shape p = [bs]) (predictions self))
    by (revert Hp; apply Forall_impl; tauto).
  assert (St : Forall (fun x : T3 Z => shape x = [bs; nh; k]) (retrieved_tokens self))
    by (revert Ht; apply Forall_impl; tauto).
  assert (Si : Forall (fun x : T3 Z => shape x = [bs; nh; k]) (retrieved_ids self))
    by (revert Hi; apply Forall_impl; tauto).
  assert (Nt : retrieved_tokens self <> [])
    by (intros E; rewrite E in Lt; destruct (predictions self); [contradiction | discriminate]).
  assert (Ni : retrieved_ids self <> [])
    by (intros E; rewrite E in Li; destruct (predictions self); [contradiction | discriminate]).
  assert (Hwrite : write self
                   = (set_buffers
                        (write_rows self
                           (map2 (fun prow tirow =>
                       map2 (fun p ti => p :: interleave (fst ti) (snd ti)) prow tirow)
                 (transpose bs (map elems (predictions self)))
                 (map2 (fun trow irow => combine trow irow)
                    (transpose bs (map elems (retrieved_tokens self)))
                    (transpose bs (map elems (retrieved_ids self))))))
                        [] [] [], Ok tt)).
  { unfold write.
  rewrite (stack1_uniform (predictions self) bs [] Hne Sp).
  (* the widest step: all have width [k] *)
  assert (Hwid : mapM size_last (retrieved_tokens self)
                 = Ok (map (fun _ => k) (retrieved_tokens self))).
  { apply mapM_ok_map. revert St. apply Forall_impl. intros x Hx.
    unfold size_last. now rewrite Hx. }
  rewrite Hwid. cbn [bind].
  destruct (retrieved_tokens self) as [|t0 rts] eqn:Ert; [contradiction | ].
  cbn [map argmax bind].
  rewrite argmax_from_constant by (apply Forall_forall; intros w Hw;
                                   apply in_map_iff in Hw; now destruct Hw as (? & <- & _)).
  cbn [Z.of_nat].
  rewrite (getitem_in_range (t0 :: rts) 0 t0) by (cbn [length]; lia).
  cbn [Z.to_nat nth bind].
  pose proof (Forall_inv St) as St0. cbv beta in St0.
  unfold size_last at 1. rewrite St0. cbn [rev app bind].
  rewrite (pad_steps_uniform (t0 :: rts) _ bs nh k St). cbn [bind].
  rewrite <- Ert. rewrite set_buffers_id.
  rewrite (pad_steps_uniform (retrieved_ids self) _ bs nh k Si).
  rewrite set_buffers_id.
  rewrite (stack1_uniform (retrieved_tokens self) bs [nh; k]) by (rewrite Ert; assumption).
  rewrite (stack1_uniform (retrieved_ids self) bs [nh; k] Ni Si). cbn [bind].
  unfold aggregate. cbn [shape elems].
  rewrite <- Ert in Lt.
  repeat match goal with
         | |- context [shape_eqb ?a ?b] =>
             replace (shape_eqb a b) with true
               by (symmetry; apply shape_eqb_eq; do 2 f_equal;
                   first [ symmetry; exact Lt | exact (eq_trans Lt (eq_sym Li)) ])
         end.
  cbn [bind]. rewrite Ert. reflexivity. }
  cbv zeta. rewrite Hwrite. cbn [fst snd].
  destruct (write_rows_written
              (map2 (fun prow tirow =>
                       map2 (fun p ti => p :: interleave (fst ti) (snd ti)) prow tirow)
                 (transpose bs (map elems (predictions self)))
                 (map2 (fun trow irow => combine trow irow)
                    (transpose bs (map elems (retrieved_tokens self)))
                    (transpose bs (map elems (retrieved_ids self))))) self)
    as (W1 & W2 & W3 & W4).
  cbn [set_buffers written predictions retrieved_tokens retrieved_ids track_file n_heads
       topk eos_token_id].
  split; [reflexivity | ]. split; [ | split; [reflexivity | ] ].
  - rewrite W1. f_equal. unfold lines.
    rewrite (transpose_nth bs 0 (map elems (predictions self)))
      by (apply Forall_forall; intros r Hr; apply in_map_iff in Hr;
          destruct Hr as (x & <- & Hx); rewrite Forall_forall in Hp; now apply Hp).
    rewrite (transpose_nth bs [] (map elems (retrieved_tokens self)))
      by (apply Forall_forall; intros r Hr; apply in_map_iff in Hr;
          destruct Hr as (x & <- & Hx); rewrite Forall_forall in Ht; now apply Ht).
    rewrite (transpose_nth bs [] (map elems (retrieved_ids self)))
      by (apply Forall_forall; intros r Hr; apply in_map_iff in Hr;
          destruct Hr as (x & <- & Hx); rewrite Forall_forall in Hi; now apply Hi).
    rewrite !map2_map_map. rewrite flat_map_concat_map, map_map, <- flat_map_concat_map.
    apply flat_map_ext. intros i. do 3 f_equal.
    rewrite !map_map.
    rewrite (map2_zip3 (fun p ti => p :: interleave (fst ti) (snd ti))
               (fun p : T1 Z => nth i (elems p) 0)
               (fun x : T3 Z => nth i (elems x) [])
               (fun x : T3 Z => nth i (elems x) [])) by assumption.
    apply map_ext. intros [[p x] d]. reflexivity.
  - injection W3 as -> -> ->. now rewrite W2.
Qed.

End WriteFormat.

Lemma write_emits_lines_witness :
  snd (RetrievalTracker.write Samples.tracker_5_7_eos) = Ok tt
  /\ RetrievalTracker.written (fst (RetrievalTracker.write Samples.tracker_5_7_eos))
     = [join_line [5; 41; 0; 42; 0]; join_line [7; 43; 0; 44; 1]; newline].
Proof.
  destruct (write_emits_lines Samples.tracker_5_7_eos 1 1 2) as (H1 & H2 & _).
  - discriminate.
  - reflexivity.
  - reflexivity.
  - vm_compute. repeat constructor.
  - vm_compute. repeat constructor.
  - vm_compute. repeat constructor.
  - split; [exact H1 | exact H2].
Defined.

(** * [load_index] *)

Section LoadIndexMore.
Import MemTransDatastore.
Context {F Index : Type}.
Variable read_index : Z -> result Index.

Local Abbreviation store := (@MemTransDatastore.t F Index).

Lemma read_indices_ok (heads : list nat) :
  forall acc ix u,
    read_indices read_index heads acc = (ix, Ok u) ->
    exists read,
      mapM read_index (map Z.of_nat heads) = Ok read
      /\ ix = acc ++ read /\ length read = length heads.
Proof.
  induction heads as [|h heads IH]; intros acc ix u H; cbn [read_indices map mapM] in *.
  - injection H as <- _. exists []. now rewrite app_nil_r.
  - destruct (read_index (Z.of_nat h)) as [index|e]; [ | discriminate H ].
    apply IH in H. destruct H as (read & Hm & -> & Hl).
    rewrite Hm. exists (index :: read). rewrite <- app_assoc. cbn [length].
    repeat split. lia.
Qed.

(** X20. [load_index] does not touch what is stored: the four arrays,
    [cur_idx] and the configuration are the same after the call, whether it
    returns or raises. When it returns, [self.indices] holds the index read
    for each head, heads 0 to n_heads - 1 in order; and with
    [build_offset] the id array was accepted by the offsets loop and the
    start offsets, the end offsets and the lengths are set to what the loop
    found, while without it they are left as they were. *)
Theorem load_index_loads_every_head (self : store) (build_offset_ : bool) :
  let out := load_index read_index self build_offset_ in
  (keys (fst out), values (fst out), tokens (fst out), ids (fst out))
  = (keys self, values self, tokens self, ids self)
  /\ (cur_idx (fst out), size (fst out), dimension (fst out), n_heads (fst out), mode (fst out))
     = (cur_idx self, size self, dimension self, n_heads self, mode self)
  /\ (snd out = Ok tt ->
      (exists ix,
          mapM read_index (map Z.of_nat (seq 0 (Z.to_nat (n_heads self)))) = Ok ix
          /\ indices (fst out) = Some ix
          /\ length ix = Z.to_nat (n_heads self))
      /\ if build_offset_
         then exists idt so eo lens,
                ids self = Some idt
                /\ build_offset (elems idt) = (so, eo, Ok lens)
                /\ start_offsets (fst out) = Some (tensor1 so)
                /\ end_offsets (fst out) = Some (tensor1 eo)
                /\ lengths (fst out) = Some (tensor1 lens)
         else (start_offsets (fst out), end_offsets (fst out), lengths (fst out))
              = (start_offsets self, end_offsets self, lengths self)).
Proof.
  cbv zeta. unfold load_index.
  destruct build_offset_.
  - destruct (ids self) as [idt|] eqn:Ei.
    + destruct (build_offset (elems idt)) as [[so eo] [lens|e]] eqn:Eb.
      * cbn [set_offsets n_heads].
        destruct (read_indices read_index (seq 0 (Z.to_nat (n_heads self))) [])
          as [ix res] eqn:Er.
        cbn [fst snd set_indices set_offsets keys values tokens ids cur_idx size dimension
             n_heads mode indices start_offsets end_offsets lengths].
        split; [now rewrite Ei | ]. split; [reflexivity | ].
        intros ->. apply read_indices_ok in Er. destruct Er as (read & Hm & -> & Hl).
        rewrite length_seq in Hl. split.
        -- exists read. repeat split; assumption.
        -- exists idt, so, eo, lens. repeat split; try reflexivity; exact Eb.
      * cbn [fst snd set_offsets keys values tokens ids cur_idx size dimension n_heads mode].
        split; [now rewrite Ei | ]. split; [reflexivity | discriminate].
    + cbn [fst snd set_offsets keys values tokens ids cur_idx size dimension n_heads mode].
      split; [now rewrite Ei | ]. split; [reflexivity | discriminate].
  - destruct (read_indices read_index (seq 0 (Z.to_nat (n_heads self))) [])
      as [ix res] eqn:Er.
    cbn [fst snd set_indices keys values tokens ids cur_idx size dimension
         n_heads mode indices start_offsets end_offsets lengths].
    split; [reflexivity | ]. split; [reflexivity | ].
    intros ->. apply read_indices_ok in Er. destruct Er as (read & Hm & -> & Hl).
    rewrite length_seq in Hl. split; [ | reflexivity ].
    exists read. repeat split; assumption.
Qed.

End LoadIndexMore.
